(** * java_version_config_updater.py: a shallow embedding and its properties

    The script walks a list of repositories, reads the Java level declared in
    each [build.gradle], renders a CircleCI configuration from a master
    template and commits it.  This development embeds

    - the text functions the script relies on ([str.split], [str.replace],
      [str.lower], [int(str)], [os.path.join], [Path.suffix], [re.search]
      for the two patterns of [detect_java_version]);
    - the methods of [JavaVersionConfigUpdater] and [main], written in a
      state-and-exception monad over an abstract platform (file system, git,
      environment) that records every external call and every log line;
    - a small executable platform, [Sim], on which runs can be evaluated.

    Conventions.  A Python [str] is a [string] whose characters are read as
    the code points 0..255; [None] is [None] of an [option].  Exceptions
    deriving from [Exception] are values of [py_exc]; [SystemExit] is kept
    apart because [except Exception] does not catch it. *)

From Stdlib Require Import Ascii NArith ZArith.
From Stdlib Require Import DecimalString.
From stdpp Require Import gmap strings list fin_maps.

(** ** Text *)

Module Str.

Fixpoint drop (n : nat) (s : string) : string :=
  match n, s with
  | S k, String _ s' => drop k s'
  | _, _ => s
  end.

(** [strip_prefix l s] is [Some rest] when [s = l +:+ rest]. *)
Fixpoint strip_prefix (l s : string) : option string :=
  match l with
  | EmptyString => Some s
  | String a l' =>
      match s with
      | String b s' => if Ascii.eqb a b then strip_prefix l' s' else None
      | EmptyString => None
      end
  end.

Definition startswith (s l : string) : bool :=
  match strip_prefix l s with Some _ => true | None => false end.

Fixpoint endswith_char (s : string) (c : ascii) : bool :=
  match s with
  | EmptyString => false
  | String a EmptyString => Ascii.eqb a c
  | String _ s' => endswith_char s' c
  end.

Fixpoint drop_while (p : ascii -> bool) (s : string) : string :=
  match s with
  | String c s' => if p c then drop_while p s' else s
  | EmptyString => EmptyString
  end.

Fixpoint map (f : ascii -> ascii) (s : string) : string :=
  match s with
  | String c s' => String (f c) (map f s')
  | EmptyString => EmptyString
  end.

Fixpoint forallb (p : ascii -> bool) (s : string) : bool :=
  match s with
  | String c s' => p c && forallb p s'
  | EmptyString => true
  end.

(** [s] has an occurrence of [sub]. *)
Definition occurs (sub s : string) : Prop :=
  exists pre post, s = pre +:+ sub +:+ post.

(** [str.split(sep)] for a one-character separator: the pieces between
    the separators, in order; never an empty list. *)
Fixpoint split (sep : ascii) (s : string) : list string :=
  match s with
  | EmptyString => [EmptyString]
  | String c s' =>
      if Ascii.eqb c sep then EmptyString :: split sep s'
      else match split sep s' with
           | piece :: pieces => String c piece :: pieces
           | [] => [String c EmptyString]
           end
  end.

(** [l[-1]] of a list of strings; the empty string stands for the
    [IndexError] that cannot happen on the result of [split]. *)
Definition last (l : list string) : string := List.last l EmptyString.

(** [str.replace(old, new)]: occurrences of [old] are replaced from left
    to right without overlap.  [skip] counts the characters of an
    occurrence still to be dropped. *)
Fixpoint replace_from (old new : string) (skip : nat) (s : string) : string :=
  match s with
  | EmptyString => EmptyString
  | String c s' =>
      match skip with
      | S k => replace_from old new k s'
      | O =>
          if startswith s old
          then new +:+ replace_from old new (String.length old - 1) s'
          else String c (replace_from old new 0 s')
      end
  end.

(** With an empty [old], Python inserts [new] before every character and
    at the end. *)
Fixpoint intersperse (new s : string) : string :=
  match s with
  | EmptyString => new
  | String c s' => new +:+ String c (intersperse new s')
  end.

Definition replace (old new s : string) : string :=
  match old with
  | EmptyString => intersperse new s
  | _ => replace_from old new 0 s
  end.

(** [str.lower] on the code points 0..255: A-Z, and the Latin-1 capitals
    0xC0..0xDE except the multiplication sign 0xD7. *)
Definition lower_char (c : ascii) : ascii :=
  let n := N_of_ascii c in
  if ((65 <=? n) && (n <=? 90))%N then ascii_of_N (n + 32)
  else if ((192 <=? n) && (n <=? 222) && negb (n =? 215))%N then ascii_of_N (n + 32)
  else c.

Definition lower (s : string) : string := map lower_char s.

(** [str(n)] for a natural number. *)
Definition of_nat (n : nat) : string := NilEmpty.string_of_uint (Nat.to_uint n).

(** [str.rfind(c)] for one character: index of the last occurrence. *)
Fixpoint rfind (c : ascii) (s : string) : option nat :=
  match s with
  | EmptyString => None
  | String a s' =>
      match rfind c s' with
      | Some i => Some (S i)
      | None => if Ascii.eqb a c then Some 0 else None
      end
  end.

End Str.

(** Character classes.  [\d] and [\s] of a [str] pattern follow Unicode; on
    the code points 0..255 the decimal digits are 0-9 and the white space is
    TAB..CR, FS..US, SPACE, NEL and NBSP. *)
Definition is_digit (c : ascii) : bool :=
  let n := N_of_ascii c in ((48 <=? n) && (n <=? 57))%N.

Definition is_unicode_space (c : ascii) : bool :=
  let n := N_of_ascii c in
  (((9 <=? n) && (n <=? 13)) || ((28 <=? n) && (n <=? 32)) || (n =? 133) || (n =? 160))%N.

Definition is_quote (c : ascii) : bool :=
  Ascii.eqb c "'"%char || Ascii.eqb c "034"%char.

(** [Py_ISSPACE]: the C-locale white space used by [PyLong_FromString]. *)
Definition is_c_space (c : ascii) : bool :=
  let n := N_of_ascii c in (((9 <=? n) && (n <=? 13)) || (n =? 32))%N.

(** ** Exceptions *)

Inductive exc_class : Type :=
| ValueError | TypeError | AttributeError | KeyError | OSError | GitError | OtherError.

(** An instance of (a subclass of) [Exception], with its message. *)
Record py_exc : Type := PyExc { exc_cls : exc_class; exc_msg : string }.

Inductive raised : Type :=
| Exc (e : py_exc)
| SystemExit (code : Z).

(** ** [int(str)] *)

Module PyInt.

(** [_PyUnicode_TransformDecimalAndSpaceToASCII]: an ASCII string is used
    as it is; otherwise code points from 127 up become a space when they
    are white space and a question mark when they are not (no decimal
    digit lies between 127 and 255). *)
Definition is_ascii (c : ascii) : bool := (N_of_ascii c <? 128)%N.

Definition transform_char (c : ascii) : ascii :=
  if (N_of_ascii c <? 127)%N then c
  else if is_unicode_space c then " "%char else "?"%char.

Definition transform (s : string) : string :=
  if Str.forallb is_ascii s then s else Str.map transform_char s.

Definition digit_value (c : ascii) : Z := Z.of_N (N_of_ascii c) - 48.

(** The digit loop of [long_from_string_base]: digits and single
    underscores between them.  [prev_us] tells whether the previous
    character was an underscore.  Returns the value, the number of
    digits and the unread rest; [None] on a doubled or trailing
    underscore. *)
Fixpoint scan_digits (s : string) (prev_us : bool) (acc : Z) (n : nat)
  : option (Z * nat * string) :=
  match s with
  | String c s' =>
      if Ascii.eqb c "_"%char then
        if prev_us then None else scan_digits s' true acc n
      else if is_digit c then
        scan_digits s' false (10 * acc + digit_value c) (S n)
      else if prev_us then None else Some (acc, n, s)
  | EmptyString => if prev_us then None else Some (acc, n, s)
  end.

Definition invalid_literal : py_exc :=
  PyExc ValueError "invalid literal for int() with base 10".

Definition too_many_digits : py_exc :=
  PyExc ValueError "Exceeds the limit for integer string conversion".

(** [int(s)] for a [str] argument.  [max_str_digits] is
    [sys.get_int_max_str_digits()]: 0 disables the limit, which is only
    looked at above 640 digits. *)
Definition int (max_str_digits : nat) (s : string) : py_exc + Z :=
  let s1 := Str.drop_while is_c_space (transform s) in
  let '(negative, s2) :=
    match s1 with
    | String "+"%char r => (false, r)
    | String "-"%char r => (true, r)
    | _ => (false, s1)
    end in
  match s2 with
  | String "_"%char _ => inl invalid_literal
  | _ =>
      match scan_digits s2 false 0 0 with
      | None => inl invalid_literal
      | Some (v, n, rest) =>
          if (640 <? n) && (0 <? max_str_digits) && (max_str_digits <? n)
          then inl too_many_digits
          else if n =? 0 then inl invalid_literal
          else
            match Str.drop_while is_c_space rest with
            | EmptyString => inr (if negative then (- v)%Z else v)
            | _ => inl invalid_literal
            end
      end
  end.

End PyInt.

(** ** Paths *)

(** [posixpath.join(a, b)]. *)
Definition os_path_join (a b : string) : string :=
  if Str.startswith b "/" then b
  else match a with
       | EmptyString => b
       | _ => if Str.endswith_char a "/"%char then a +:+ b else a +:+ "/" +:+ b
       end.

(** [PurePosixPath(p).name]: the last component, where empty components and
    single dots do not count. *)
Definition path_name (p : string) : string :=
  Str.last (EmptyString :: filter (fun c => c <> EmptyString /\ c <> ".") (Str.split "/"%char p)).

(** [PurePath.suffix] as defined up to Python 3.13: the part of the name
    from its last dot on, unless that dot is the first or the last
    character of the name. *)
Definition path_suffix (p : string) : string :=
  let name := path_name p in
  match Str.rfind "."%char name with
  | Some i => if (0 <? i) && (i <? String.length name - 1) then Str.drop i name
              else EmptyString
  | None => EmptyString
  end.

(** ** Regular expressions

    A backtracking matcher for the fragment of [re] that the two patterns of
    [detect_java_version] use: literals, one-character classes, the greedy
    quantifiers [?], [*] and [+] on a class, sequencing, and one capturing
    group.  [rmatch] lists the ways a pattern matches at the start of the
    text in the order in which the backtracking engine tries them, so that
    the head of the list is the match [re] reports. *)

Module Re.

Inductive regex : Type :=
| Lit (l : string)
| Cls (p : ascii -> bool)
| Opt (p : ascii -> bool)
| Star (p : ascii -> bool)
| Plus (p : ascii -> bool)
| Seq (r1 r2 : regex)
| Group (r : regex).

(** One way of matching: the text consumed, the text left, and group 1. *)
Record thread : Type := Thread { consumed : string; rest : string; group1 : option string }.

(** The splits of [s] into a run of [p]-characters and the rest, longest
    run first. *)
Fixpoint star_splits (p : ascii -> bool) (s : string) : list (string * string) :=
  match s with
  | String c s' =>
      if p c
      then List.map (fun '(a, b) => (String c a, b)) (star_splits p s') ++ [(EmptyString, s)]
      else [(EmptyString, s)]
  | EmptyString => [(EmptyString, EmptyString)]
  end.

Fixpoint rmatch (r : regex) (s : string) (g : option string) : list thread :=
  match r with
  | Lit l =>
      match Str.strip_prefix l s with
      | Some s' => [Thread l s' g]
      | None => []
      end
  | Cls p =>
      match s with
      | String c s' => if p c then [Thread (String c EmptyString) s' g] else []
      | EmptyString => []
      end
  | Opt p =>
      match s with
      | String c s' =>
          if p c then [Thread (String c EmptyString) s' g; Thread EmptyString s g]
          else [Thread EmptyString s g]
      | EmptyString => [Thread EmptyString s g]
      end
  | Star p => List.map (fun '(a, b) => Thread a b g) (star_splits p s)
  | Plus p =>
      match s with
      | String c s' =>
          if p c then List.map (fun '(a, b) => Thread (String c a) b g) (star_splits p s')
          else []
      | EmptyString => []
      end
  | Seq r1 r2 =>
      List.flat_map
        (fun t1 => List.map (fun t2 => Thread (consumed t1 +:+ consumed t2) (rest t2) (group1 t2))
                     (rmatch r2 (rest t1) (group1 t1)))
        (rmatch r1 s g)
  | Group r' =>
      List.map (fun t => Thread (consumed t) (rest t) (Some (consumed t))) (rmatch r' s g)
  end.

(** A match object: where the match starts, its text, and group 1. *)
Record match_object : Type :=
  Match { m_start : nat; m_text : string; m_group1 : option string }.

(** [re.search]: the first position, from the left, at which the pattern
    matches, with the first way of matching there. *)
Fixpoint search_from (r : regex) (pos : nat) (s : string) : option match_object :=
  match rmatch r s None with
  | t :: _ => Some (Match pos (consumed t) (group1 t))
  | [] =>
      match s with
      | String _ s' => search_from r (S pos) s'
      | EmptyString => None
      end
  end.

Definition search (r : regex) (s : string) : option match_object := search_from r 0 s.

End Re.

Import Re.

(** [r'sourceCompatibility\s*=\s*[\'"]?(\d+)[\'"]?'] *)
Definition source_compat_pattern : regex :=
  Seq (Lit "sourceCompatibility")
   (Seq (Star is_unicode_space)
    (Seq (Lit "=")
     (Seq (Star is_unicode_space)
      (Seq (Opt is_quote)
       (Seq (Group (Plus is_digit)) (Opt is_quote)))))).

(** [r'sourceCompatibility\s*=\s*JavaVersion\.VERSION_(\d+)'] *)
Definition java_version_pattern : regex :=
  Seq (Lit "sourceCompatibility")
   (Seq (Star is_unicode_space)
    (Seq (Lit "=")
     (Seq (Star is_unicode_space)
      (Seq (Lit "JavaVersion.VERSION_")
       (Group (Plus is_digit)))))).

(** ** The platform: file system, git and environment

    Everything the script does to the outside world goes through a [call].
    A platform answers a call with a value or with an exception deriving
    from [Exception], and moves to a new world.  [os.path.exists] and
    [os.environ.get] do not fail and are plain observations. *)

(** A row of [csv.DictReader]: a dict from column names to fields, [None]
    for the fields a short row lacks. *)
Abbreviation row := (gmap string (option string)).

Inductive call : Type :=
| MakeDirs (path : string)                       (* os.makedirs(path, exist_ok=True) *)
| ReadText (path : string)                       (* open(path, 'r').read() *)
| ReadCsv (path : string)                        (* the rows of csv.DictReader(open(path, 'r')) *)
| WriteText (path content : string)              (* open(path, 'w').write(content) *)
| GitRepo (path : string)                        (* git.Repo(path) *)
| GitOrigin (path : string)                      (* repo.remotes.origin *)
| GitFetch (path : string)                       (* origin.fetch() *)
| GitReferences (path : string)                  (* [ref.name for ref in repo.references] *)
| GitCheckout (path : string) (branch : option string)
| GitCheckoutNew (path start : string) (branch : option string)  (* checkout(start, b=branch) *)
| GitPull (path : string)                        (* origin.pull() *)
| GitCloneFrom (url path : string) (branch : option string)
| GitIsDirty (path : string)                     (* repo.is_dirty() *)
| GitAdd (path file : string)
| GitCommit (path message : string)              (* repo.git.commit("-m", message) *)
| GitPush (path : string).

Definition response (c : call) : Type :=
  match c with
  | ReadText _ => string
  | ReadCsv _ => list row
  | GitReferences _ => list string
  | GitIsDirty _ => bool
  | _ => unit
  end.

Class Platform : Type := {
  World : Type;
  environ_get : string -> World -> option string;
  path_exists : string -> World -> bool;
  perform : forall c : call, World -> (py_exc + response c) * World;
  (** [sys.get_int_max_str_digits()] of the interpreter *)
  max_str_digits : nat
}.

Inductive level : Type := INFO | WARNING | ERROR.

(** What a run leaves behind: the external calls, each with whether it
    returned ([true]) or raised ([false]), and the log lines. *)
Inductive event : Type :=
| ECall (c : call) (ok : bool)
| ELog (lvl : level) (msg : string).

Inductive result (A : Type) : Type :=
| Ret (a : A)
| Raise (r : raised).
Arguments Ret {A} a.
Arguments Raise {A} r.

(** The exit status of the process for the outcome of [main]: an uncaught
    exception ends the interpreter with status 1. *)
Definition exit_status {A} (r : result A) : Z :=
  match r with
  | Ret _ => 0
  | Raise (SystemExit code) => code
  | Raise (Exc _) => 1
  end.

(** [str(x)] inside an f-string, for a value that is a [str] or [None]. *)
Definition fmt (v : option string) : string :=
  match v with Some s => s | None => "None" end.

(** [if v:] for a value that is a [str] or [None]: the value when it is
    true, [None] when it is [None] or the empty string. *)
Definition truthy (v : option string) : option string :=
  match v with
  | Some EmptyString => None
  | _ => v
  end.

Definition docker_image_17 : string := "circleci/openjdk:17-buster-node-browsers-legacy".
Definition docker_image_13 : string := "circleci/openjdk:13.0-buster-node-browsers-legacy".
Definition placeholder : string := "{{JAVA_DOCKER_IMAGE}}".

(** [config_content] of [update_circleci_config]. *)
Definition config_content (template docker_image : string) : string :=
  Str.replace placeholder docker_image template.

(** An entry of [repos]: the dict with the keys ['url'] and ['branch']. *)
Record repository : Type := Repository { url : option string; branch : option string }.

(** The attributes of a [JavaVersionConfigUpdater]. *)
Record updater : Type := Updater {
  repo_file : string;
  workspace_dir : string;
  master_config_file : string;
  headers : gmap string string;
  token : option string;
  master_config_template : string
}.

(** The parsed command line. *)
Record arguments : Type := Arguments_ {
  arg_repo_file : string;
  arg_master_config : string;
  arg_token : option string;
  arg_workspace : string
}.

(** The state of a run: the world, and the events so far. *)
Record state_of (W : Type) : Type := State { world : W; trace : list event }.
Arguments State {W} world trace.
Arguments world {W} s.
Arguments trace {W} s.

Abbreviation state := (state_of World).

Section Program.

Context {P : Platform}.

(** *** State, exceptions and the log *)


Definition M (A : Type) : Type := state -> result A * state.

Definition ret {A} (a : A) : M A := fun st => (Ret a, st).

Definition bind {A B} (m : M A) (k : A -> M B) : M B :=
  fun st =>
    match m st with
    | (Ret a, st') => k a st'
    | (Raise r, st') => (Raise r, st')
    end.

Definition raise {A} (r : raised) : M A := fun st => (Raise r, st).

Definition emit (ev : event) (st : state) : state :=
  State (world st) (trace st ++ [ev]).

Definition log (lvl : level) (msg : string) : M unit :=
  fun st => (Ret tt, emit (ELog lvl msg) st).

(** An external call. *)
Definition ext (c : call) : M (response c) :=
  fun st =>
    match perform c (world st) with
    | (inr v, w') => (Ret v, State w' (trace st ++ [ECall c true]))
    | (inl e, w') => (Raise (Exc e), State w' (trace st ++ [ECall c false]))
    end.

Definition observe {A} (f : World -> A) : M A := fun st => (Ret (f (world st)), st).

(** [try: m except Exception as e: h e]. [SystemExit] passes through. *)
Definition try_except {A} (m : M A) (h : py_exc -> M A) : M A :=
  fun st =>
    match m st with
    | (Raise (Exc e), st') => h e st'
    | other => other
    end.

(** [try: m except ValueError: h]. *)
Definition try_except_ValueError {A} (m : M A) (h : M A) : M A :=
  fun st =>
    match m st with
    | (Raise (Exc (PyExc ValueError msg)), st') => h st'
    | other => other
    end.

Definition sys_exit {A} (code : Z) : M A := raise (SystemExit code).

(** [for x in l: body x] *)
Fixpoint for_each {A} (l : list A) (body : A -> M unit) : M unit :=
  match l with
  | [] => ret tt
  | x :: l' => bind (body x) (fun _ => for_each l' body)
  end.

Fixpoint map_m {A B} (f : A -> M B) (l : list A) : M (list B) :=
  match l with
  | [] => ret []
  | x :: l' => bind (f x) (fun y => bind (map_m f l') (fun ys => ret (y :: ys)))
  end.

Notation "'let*' x ':=' m 'in' k" := (bind m (fun x => k))
  (at level 10, x binder, k at level 200).
Notation "m ';;' k" := (bind m (fun _ => k))
  (at level 100, right associativity).

(** [row[key]] *)
Definition row_get (r : row) (key : string) : M (option string) :=
  match r !! key with
  | Some v => ret v
  | None => raise (Exc (PyExc KeyError ("'" +:+ key +:+ "'")))
  end.

(** *** The methods of [JavaVersionConfigUpdater] *)

Definition load_master_config_template (file : string) : M string :=
  try_except
    (let* template := ext (ReadText file) in
     log INFO ("Loaded master template from " +:+ file);;
     ret template)
    (fun e =>
       log ERROR ("Error loading master config template: " +:+ exc_msg e);;
       sys_exit 1).

Definition init (a : arguments) : M updater :=
  let* token :=
    match truthy (arg_token a) with
    | Some t => ret (Some t)
    | None => observe (environ_get "GITHUB_TOKEN")
    end in
  let* headers :=
    match truthy token with
    | Some t =>
        log INFO "GitHub token configured successfully";;
        ret ({["Authorization" := "token " +:+ t]} : gmap string string)
    | None =>
        log WARNING "No GitHub token provided. Private repositories won't be accessible.";;
        ret (∅ : gmap string string)
    end in
  ext (MakeDirs (arg_workspace a));;
  let* template := load_master_config_template (arg_master_config a) in
  ret (Updater (arg_repo_file a) (arg_workspace a) (arg_master_config a)
         headers token template).

Definition read_repositories (self : updater) : M (list repository) :=
  let file_ext := Str.lower (path_suffix (repo_file self)) in
  try_except
    (let* repos :=
       if decide (file_ext = ".csv") then
         let* rows := ext (ReadCsv (repo_file self)) in
         map_m (fun r : row =>
                  let* u := row_get r "repository_url" in
                  let* b := row_get r "branch" in
                  ret (Repository u b)) rows
       else
         log ERROR ("Unsupported file format: " +:+ file_ext);;
         sys_exit 1 in
     log INFO ("Loaded " +:+ Str.of_nat (length repos) +:+ " repositories from "
               +:+ repo_file self);;
     ret repos)
    (fun e =>
       log ERROR ("Error reading repository file: " +:+ exc_msg e);;
       sys_exit 1).

(** [repo_url.split('/')[-1].replace('.git', '')] *)
Definition repo_name_of (repo_url : string) : string :=
  Str.replace ".git" EmptyString (Str.last (Str.split "/" repo_url)).

Definition clone_repository (self : updater) (repo_url branch : option string)
  : M (option string) :=
  match repo_url with
  | None => raise (Exc (PyExc AttributeError "'NoneType' object has no attribute 'split'"))
  | Some repo_url =>
      let repo_name := repo_name_of repo_url in
      let repo_path := os_path_join (workspace_dir self) repo_name in
      try_except
        (let* existing := observe (path_exists repo_path) in
         (if existing : bool then
            log INFO ("Updating existing repository: " +:+ repo_name);;
            ext (GitRepo repo_path);;
            ext (GitOrigin repo_path);;
            ext (GitFetch repo_path);;
            let* refs := ext (GitReferences repo_path) in
            (if decide (branch ∈ List.map (fun name => Some (Str.last (Str.split "/" name))) refs)
             then ext (GitCheckout repo_path branch)
             else ext (GitCheckoutNew repo_path ("origin/" +:+ fmt branch) branch));;
            ext (GitPull repo_path)
          else
            log INFO ("Cloning repository: " +:+ repo_name +:+ ", branch: " +:+ fmt branch);;
            ext (GitCloneFrom repo_url repo_path branch));;
         ret (Some repo_path))
        (fun e =>
           log ERROR ("Error handling repository " +:+ repo_name +:+ ": " +:+ exc_msg e);;
           ret None)
  end.

Definition detect_java_version (self : updater) (repo_path : string) : M (option string) :=
  let gradle_file := os_path_join repo_path "build.gradle" in
  let* existing := observe (path_exists gradle_file) in
  if negb existing then
    log WARNING ("build.gradle not found in " +:+ repo_path);;
    ret None
  else
    try_except
      (let* content := ext (ReadText gradle_file) in
       match search source_compat_pattern content with
       | Some source_compat_match =>
           let version := m_group1 source_compat_match in
           log INFO ("Detected Java version: " +:+ fmt version);;
           ret version
       | None =>
           match search java_version_pattern content with
           | Some java_version_match =>
               let version := m_group1 java_version_match in
               log INFO ("Detected Java version: " +:+ fmt version);;
               ret version
           | None =>
               log WARNING "Could not detect Java version in build.gradle";;
               ret None
           end
       end)
      (fun e =>
         log ERROR ("Error reading build.gradle: " +:+ exc_msg e);;
         ret None).

Definition get_docker_image_for_java_version (self : updater) (java_version : string)
  : M string :=
  try_except_ValueError
    (match PyInt.int max_str_digits java_version with
     | inl e => raise (Exc e)
     | inr java_version_int =>
         if (17 <=? java_version_int)%Z then ret docker_image_17
         else if (13 <=? java_version_int)%Z then ret docker_image_13
         else
           log WARNING ("No specific Docker image for Java " +:+ java_version
                        +:+ ", using Java 13 image");;
           ret docker_image_13
     end)
    (log ERROR ("Invalid Java version: " +:+ java_version);;
     ret docker_image_13).

Definition update_circleci_config (self : updater) (repo_path java_version : string)
  : M bool :=
  let config_dir := os_path_join repo_path ".circleci" in
  let config_file := os_path_join config_dir "config.yml" in
  ext (MakeDirs config_dir);;
  let* docker_image := get_docker_image_for_java_version self java_version in
  let content := config_content (master_config_template self) docker_image in
  try_except
    (ext (WriteText config_file content);;
     log INFO ("Updated CircleCI config for Java " +:+ java_version
               +:+ " with Docker image " +:+ docker_image +:+ " in " +:+ repo_path);;
     ret true)
    (fun e =>
       log ERROR ("Error updating CircleCI config: " +:+ exc_msg e);;
       ret false).

Definition commit_message (java_version : string) : string :=
  "Update CircleCI config for Java " +:+ java_version.

Definition commit_and_push_changes (self : updater) (repo_path java_version : string)
  : M bool :=
  try_except
    (ext (GitRepo repo_path);;
     let* dirty := ext (GitIsDirty repo_path) in
     if negb dirty then
       log INFO "No changes to commit";;
       ret true
     else
       ext (GitAdd repo_path ".circleci/config.yml");;
       let commit_message := commit_message java_version in
       ext (GitCommit repo_path commit_message);;
       ext (GitPush repo_path);;
       log INFO ("Changes committed and pushed: " +:+ commit_message);;
       ret true)
    (fun e =>
       log ERROR ("Error committing changes: " +:+ exc_msg e);;
       ret false).

(** The body of the loop of [process_repositories]. *)
Definition process_repository (self : updater) (repo : repository) : M unit :=
  let repo_url := url repo in
  let branch := branch repo in
  log INFO ("Processing repository: " +:+ fmt repo_url +:+ ", branch: " +:+ fmt branch);;
  let* repo_path := clone_repository self repo_url branch in
  match truthy repo_path with
  | None => log ERROR ("Skipping " +:+ fmt repo_url +:+ " due to clone error")
  | Some repo_path =>
      let* java_version := detect_java_version self repo_path in
      match truthy java_version with
      | None => log WARNING ("Skipping " +:+ fmt repo_url +:+ " due to missing Java version")
      | Some java_version =>
          let* updated := update_circleci_config self repo_path java_version in
          if updated : bool then
            commit_and_push_changes self repo_path java_version;;
            ret tt
          else ret tt
      end
  end.

Definition process_repositories (self : updater) : M unit :=
  let* repos := read_repositories self in
  for_each repos (process_repository self).

Definition main (a : arguments) : M unit :=
  let* updater := init a in
  process_repositories updater.

End Program.

(** ** A platform to run on

    [Sim] is a small file system with git working copies and remotes.  Files
    and directories are known by their full path as the script spells it.  A
    working copy has the tree of its last commit ([head]), its staging area
    ([index]) and its files in the file system; there is no history, so a
    pull succeeds when the remote branch has nothing new. *)

Module Sim.

Abbreviation tree := (gmap string string).

Record repo : Type := Repo {
  head : tree;
  index : tree;
  refs : list string;
  origin : option string;
  current : string
}.

Record world : Type := World_ {
  environ : gmap string string;
  files : gmap string string;
  dirs : gset string;
  denied : gset string;                      (* paths that cannot be created or written *)
  remotes : gmap string (gmap string tree);  (* url, then branch *)
  repos : gmap string repo
}.

Definition os_error (msg path : string) : py_exc :=
  PyExc OSError (msg +:+ ": '" +:+ path +:+ "'").

Definition git_error (msg : string) : py_exc := PyExc GitError msg.

(** Rows of a file of unquoted comma-separated fields under a header
    line; blank lines are skipped as [csv.DictReader] does. *)
Definition parse_csv (text : string) : list row :=
  match filter (fun l => l <> EmptyString) (Str.split "010"%char text) with
  | [] => []
  | header :: lines =>
      let names := Str.split ","%char header in
      List.map
        (fun line =>
           let fields := Str.split ","%char line in
           list_to_map (zip names (List.map Some fields ++ replicate (length names) None)) : row)
        lines
  end.

Definition exists_ (path : string) (w : world) : bool :=
  bool_decide (is_Some (files w !! path)) || bool_decide (path ∈ dirs w).

(** [Repo.is_dirty()] with GitPython's defaults ([index=True],
    [working_tree=True], [untracked_files=False]): the staging area differs
    from the last commit, or a tracked file differs from the staging area.
    Files that are not tracked do not count. *)
Definition is_dirty (w : world) (path : string) (r : repo) : bool :=
  negb (bool_decide (index r = head r))
  || negb (bool_decide (map_Forall (fun f c => files w !! os_path_join path f = Some c) (index r))).

Definition checkout_files (path : string) (t : tree) (fs : gmap string string)
  : gmap string string :=
  map_fold (fun f c acc => <[os_path_join path f := c]> acc) fs t.

Definition set_files (fs : gmap string string) (w : world) : world :=
  World_ (environ w) fs (dirs w) (denied w) (remotes w) (repos w).
Definition set_dirs (ds : gset string) (w : world) : world :=
  World_ (environ w) (files w) ds (denied w) (remotes w) (repos w).
Definition set_remotes (rs : gmap string (gmap string tree)) (w : world) : world :=
  World_ (environ w) (files w) (dirs w) (denied w) rs (repos w).
Definition set_repos (rs : gmap string repo) (w : world) : world :=
  World_ (environ w) (files w) (dirs w) (denied w) (remotes w) rs.

Definition with_repo {A} (path : string) (w : world)
    (k : repo -> (py_exc + A) * world) : (py_exc + A) * world :=
  match repos w !! path with
  | Some r => k r
  | None => (inl (git_error ("not a git repository: " +:+ path)), w)
  end.

Definition remote_tree (w : world) (r : repo) : option tree :=
  u ← origin r; bs ← remotes w !! u; bs !! current r.

Definition run (c : call) (w : world) : (py_exc + response c) * world :=
  match c return (py_exc + response c) * world with
  | MakeDirs path =>
      if bool_decide (is_Some (files w !! path)) then (inl (os_error "File exists" path), w)
      else if bool_decide (path ∈ dirs w) then (inr tt, w)
      else if bool_decide (path ∈ denied w) then (inl (os_error "Permission denied" path), w)
      else (inr tt, set_dirs ({[path]} ∪ dirs w) w)
  | ReadText path =>
      match files w !! path with
      | Some text => (inr text, w)
      | None => (inl (os_error "No such file or directory" path), w)
      end
  | ReadCsv path =>
      match files w !! path with
      | Some text => (inr (parse_csv text), w)
      | None => (inl (os_error "No such file or directory" path), w)
      end
  | WriteText path content =>
      if bool_decide (path ∈ dirs w) then (inl (os_error "Is a directory" path), w)
      else if bool_decide (path ∈ denied w) then (inl (os_error "Permission denied" path), w)
      else (inr tt, set_files (<[path := content]> (files w)) w)
  | GitRepo path => with_repo path w (fun _ => (inr tt, w))
  | GitOrigin path =>
      with_repo path w (fun r =>
        match origin r with
        | Some _ => (inr tt, w)
        | None => (inl (git_error "no remote named origin"), w)
        end)
  | GitFetch path =>
      with_repo path w (fun r =>
        match remote_tree w r with
        | Some _ => (inr tt, w)
        | None => (inl (git_error "could not read from remote repository"), w)
        end)
  | GitReferences path => with_repo path w (fun r => (inr (refs r), w))
  | GitCheckout path b =>
      with_repo path w (fun r =>
        if decide (b = Some (current r)) then (inr tt, w)
        else (inl (git_error "pathspec did not match"), w))
  | GitCheckoutNew path start b =>
      with_repo path w (fun r => (inl (git_error ("not a commit: " +:+ start)), w))
  | GitPull path =>
      with_repo path w (fun r =>
        if decide (remote_tree w r = Some (head r)) then (inr tt, w)
        else (inl (git_error "cannot pull"), w))
  | GitCloneFrom u path b =>
      match b, remotes w !! u with
      | Some b, Some bs =>
          match bs !! b with
          | Some t =>
              if exists_ path w then (inl (git_error "destination path already exists"), w)
              else
                (inr tt,
                 set_repos (<[path := Repo t t [b; "origin/" +:+ b] (Some u) b]> (repos w))
                   (set_dirs ({[path]} ∪ dirs w)
                      (set_files (checkout_files path t (files w)) w)))
          | None => (inl (git_error ("remote branch not found: " +:+ b)), w)
          end
      | _, _ => (inl (git_error ("repository not found: " +:+ u)), w)
      end
  | GitIsDirty path => with_repo path w (fun r => (inr (is_dirty w path r), w))
  | GitAdd path file =>
      with_repo path w (fun r =>
        match files w !! os_path_join path file with
        | Some content =>
            (inr tt,
             set_repos (<[path := Repo (head r) (<[file := content]> (index r))
                                    (refs r) (origin r) (current r)]> (repos w)) w)
        | None =>
            if bool_decide (is_Some (index r !! file)) then
              (inr tt,
               set_repos (<[path := Repo (head r) (delete file (index r))
                                      (refs r) (origin r) (current r)]> (repos w)) w)
            else (inl (git_error ("pathspec did not match any files: " +:+ file)), w)
        end)
  | GitCommit path message =>
      with_repo path w (fun r =>
        if bool_decide (index r = head r) then (inl (git_error "nothing to commit"), w)
        else
          (inr tt,
           set_repos (<[path := Repo (index r) (index r) (refs r) (origin r) (current r)]>
                        (repos w)) w))
  | GitPush path =>
      with_repo path w (fun r =>
        match origin r with
        | Some u =>
            match remotes w !! u with
            | Some bs =>
                if bool_decide (u ∈ denied w) then (inl (git_error "permission denied"), w)
                else (inr tt, set_remotes (<[u := <[current r := head r]> bs]> (remotes w)) w)
            | None => (inl (git_error "could not read from remote repository"), w)
            end
        | None => (inl (git_error "no configured push destination"), w)
        end)
  end.

#[export] Instance platform : Platform := {|
  World := world;
  environ_get name w := environ w !! name;
  path_exists := exists_;
  perform := run;
  max_str_digits := 4300
|}.

(** The states of a run on this platform. *)
Abbreviation state := (state_of (@World platform)).

Definition start (w : world) : state := State w [].

Definition resume (w : world) (tr : list event) : state := State w tr.

End Sim.

(** ** Notions used in the statements *)

(** [sub in s] *)
Fixpoint contains (sub s : string) : bool :=
  Str.startswith s sub
  || match s with
     | String _ s' => contains sub s'
     | EmptyString => false
     end.

(** The text begins with a decimal digit. *)
Definition starts_with_digit (s : string) : bool :=
  match s with
  | String c _ => is_digit c
  | EmptyString => false
  end.

(** A thread on a text that continues with [x]. *)
Definition extend (x : string) (t : thread) : thread :=
  Thread (consumed t) (rest t +:+ x) (group1 t).

(** A thread that started one character earlier. *)
Definition prepend (a : ascii) (t : thread) : thread :=
  Thread (String a (consumed t)) (rest t) (group1 t).

(** No end of the literal [l] can be continued by a text that begins with
    the characters [c1 c2]. *)
Fixpoint lit_apart (c1 c2 : ascii) (l : string) : bool :=
  match l with
  | EmptyString => true
  | String a l' =>
      negb (Ascii.eqb a c1
            && match l' with
               | EmptyString => true
               | String a2 _ => Ascii.eqb a2 c2
               end)
      && lit_apart c1 c2 l'
  end.

(** No part of the pattern can read into a text that begins with [c1 c2]:
    a match that has reached such a text is over. *)
Fixpoint apart (c1 c2 : ascii) (r : regex) : bool :=
  match r with
  | Lit l => lit_apart c1 c2 l
  | Cls p | Opt p | Star p | Plus p => negb (p c1)
  | Seq r1 r2 => apart c1 c2 r1 && apart c1 c2 r2
  | Group r' => apart c1 c2 r'
  end.

(** The same for matches that start before that text: the pattern may
    begin with a literal whose first character is [c1]. *)
Definition apart_after_start (c1 c2 : ascii) (r : regex) : bool :=
  match r with
  | Seq (Lit (String a l)) r2 => apart c1 c2 (Seq (Lit l) r2)
  | _ => apart c1 c2 r
  end.

(** The build descriptor of the checkout at [repo_path] exists and reads as
    [content] in the state [st]. *)
Definition descriptor_reads `{P : Platform} (repo_path content : string) (st : state) : Prop :=
  path_exists (os_path_join repo_path "build.gradle") (world st) = true
  /\ fst (perform (ReadText (os_path_join repo_path "build.gradle")) (world st)) = inr content.

(** The events a computation added to the trace of [st]. *)
Definition new_events `{P : Platform} (st st' : state) : list event :=
  drop (length (trace st)) (trace st').

(** The external calls among the events, in order. *)
Definition calls (evs : list event) : list call :=
  omap (fun ev => match ev with ECall c _ => Some c | ELog _ _ => None end) evs.

Definition is_git_call (c : call) : bool :=
  match c with
  | MakeDirs _ | ReadText _ | ReadCsv _ | WriteText _ _ => false
  | _ => true
  end.

(** No git command was issued. *)
Definition no_git_call (evs : list event) : bool :=
  forallb (fun ev => match ev with ECall c _ => negb (is_git_call c) | ELog _ _ => true end) evs.

(** No [os.makedirs] raised. *)
Definition no_failed_makedirs (evs : list event) : bool :=
  forallb (fun ev => match ev with ECall (MakeDirs _) false => false | _ => true end) evs.

Definition processing_message (repo : repository) : string :=
  "Processing repository: " +:+ fmt (url repo) +:+ ", branch: " +:+ fmt (branch repo).

(** The events are those of a loop that took up every entry of the list, in
    order: each entry opens its part of the trace with its own
    "Processing repository" line. *)
Inductive attempted : list repository -> list event -> Prop :=
| attempted_nil : attempted [] []
| attempted_cons repo repos evs evs' :
    attempted repos evs' ->
    attempted (repo :: repos) (ELog INFO (processing_message repo) :: evs ++ evs').

(** The CI configuration file of a checkout, as [update_circleci_config]
    spells its path. *)
Definition config_file_of (repo_path : string) : string :=
  os_path_join (os_path_join repo_path ".circleci") "config.yml".

Definition returned {A} (r : py_exc + A) : bool :=
  match r with inr _ => true | inl _ => false end.

(** Every call that raised is followed at once by an ERROR line.  With
    [pending], a call that raised may stand last: its handler has not run
    yet. *)
Fixpoint errors_logged (pending : bool) (evs : list event) : bool :=
  match evs with
  | [] => true
  | ECall _ false :: rest =>
      match rest with
      | [] => pending
      | ELog ERROR _ :: _ => errors_logged pending rest
      | _ => false
      end
  | _ :: rest => errors_logged pending rest
  end.

(** Three ways a computation can behave with respect to failures.  It is
    [tame] when it raises nothing but instances of [Exception] and has
    logged every failure of a call but, when it raises, the last; [total]
    when it always returns, every failure logged; [guarded] when it returns,
    every failure logged, unless an [os.makedirs] of its own has raised, in
    which case that exception leaves it. *)
Definition tame `{P : Platform} {A} (m : M A) : Prop :=
  forall st, exists evs,
    trace (snd (m st)) = trace st ++ evs
    /\ errors_logged true evs = true
    /\ (forall a, fst (m st) = Ret a -> errors_logged false evs = true)
    /\ forall r, fst (m st) = Raise r -> exists e, r = Exc e.

Definition total `{P : Platform} {A} (m : M A) : Prop :=
  forall st, exists evs a,
    trace (snd (m st)) = trace st ++ evs
    /\ errors_logged false evs = true
    /\ fst (m st) = Ret a.

(** A handler that logs an error first and then returns. *)
Definition logging_handler `{P : Platform} {A} (h : py_exc -> M A) : Prop :=
  forall e st, exists msg evs a,
    trace (snd (h e st)) = trace st ++ ELog ERROR msg :: evs
    /\ errors_logged false evs = true
    /\ fst (h e st) = Ret a.

Definition guarded `{P : Platform} {A} (m : M A) : Prop :=
  forall st, exists evs,
    trace (snd (m st)) = trace st ++ evs
    /\ ((exists a, fst (m st) = Ret a) /\ errors_logged false evs = true
        \/ (exists e, fst (m st) = Raise (Exc e)) /\ no_failed_makedirs evs = false).

Definition has_url (repo : repository) : bool :=
  match url repo with Some _ => true | None => false end.

(** ** Further notions *)

(** [c in s] for one character. *)
Fixpoint has_char (c : ascii) (s : string) : bool :=
  match s with
  | String a s' => Ascii.eqb a c || has_char c s'
  | EmptyString => false
  end.

(** No character of [s] is a character of [t]. *)
Definition chars_apart (s t : string) : bool :=
  Str.forallb (fun c => negb (has_char c t)) s.

(** No occurrence of [old] starts within [pre] in the text [pre +:+ rest]. *)
Fixpoint free_before (old pre rest : string) : bool :=
  match pre with
  | EmptyString => true
  | String c pre' =>
      negb (Str.startswith (pre +:+ rest) old) && free_before old pre' rest
  end.

(** Every way of matching [r] leaves group 1 as it was. *)
Definition keeps_group (r : regex) : Prop :=
  forall s g t, In t (rmatch r s g) -> group1 t = g.

(** Every way of matching [r] sets group 1 to a text with [Q]. *)
Definition sets_group (Q : string -> Prop) (r : regex) : Prop :=
  forall s g t, In t (rmatch r s g) -> exists v, group1 t = Some v /\ Q v.

(** A text of decimal digits, not empty. *)
Definition digits (v : string) : Prop :=
  v <> EmptyString /\ Str.forallb is_digit v = true.

(** The number a text of decimal digits stands for. *)
Fixpoint decimal_value (s : string) : Z :=
  match s with
  | String c s' =>
      (PyInt.digit_value c * 10 ^ Z.of_nat (String.length s') + decimal_value s')%Z
  | EmptyString => 0%Z
  end.

(** No call among the events raised. *)
Definition all_returned (evs : list event) : bool :=
  forallb (fun ev => match ev with ECall _ ok => ok | ELog _ _ => true end) evs.

(** Whether each call among the events returned, in order. *)
Definition outcomes (evs : list event) : list bool :=
  omap (fun ev => match ev with ECall _ ok => Some ok | ELog _ _ => None end) evs.

(** The entry of [repos] that a row gives: both columns must be there. *)
Definition row_entry (r : row) : option repository :=
  match r !! "repository_url", r !! "branch" with
  | Some u, Some b => Some (Repository u b)
  | _, _ => None
  end.

(** The path of the checkout of [repo_url]. *)
Definition checkout_path (self : updater) (repo_url : string) : string :=
  os_path_join (workspace_dir self) (repo_name_of repo_url).

(** A computation adds only events with [Q], and what it returns has [R]. *)
Definition emits `{P : Platform} {A} (Q : event -> Prop) (R : A -> Prop) (m : M A) : Prop :=
  forall st, exists evs,
    trace (snd (m st)) = trace st ++ evs
    /\ Forall Q evs
    /\ forall a, fst (m st) = Ret a -> R a.

(** The events that belong to the work on the list of [self]: reads of the
    list and of [build.gradle] under the checkout path of some URL, the
    configuration directory and file under such a path, the template
    rendered with one of the two images, the staged path, the commit
    message, and any other git call or log line. *)
Definition list_event (self : updater) (ev : event) : Prop :=
  match ev with
  | ECall (ReadCsv f) _ => f = repo_file self
  | ECall (ReadText f) _ =>
      exists repo_url, f = os_path_join (checkout_path self repo_url) "build.gradle"
  | ECall (MakeDirs d) _ =>
      exists repo_url, d = os_path_join (checkout_path self repo_url) ".circleci"
  | ECall (WriteText f c) _ =>
      exists repo_url image,
        f = config_file_of (checkout_path self repo_url)
        /\ c = config_content (master_config_template self) image
        /\ (image = docker_image_17 \/ image = docker_image_13)
  | ECall (GitAdd _ f) _ => f = ".circleci/config.yml"
  | ECall (GitCommit _ message) _ => exists v, digits v /\ message = commit_message v
  | _ => True
  end.

(** What must have returned earlier for the call [c] to be in order: a
    write goes to the configuration file of a checkout whose [build.gradle]
    has been read; [is_dirty], add, commit and push work on a checkout whose
    configuration file has been written. *)
Definition earlier (pre : list event) (c : call) : Prop :=
  match c with
  | WriteText f _ =>
      exists repo_path,
        f = config_file_of repo_path
        /\ In (ECall (ReadText (os_path_join repo_path "build.gradle")) true) pre
  | GitIsDirty p | GitAdd p _ | GitCommit p _ | GitPush p =>
      exists content, In (ECall (WriteText (config_file_of p) content) true) pre
  | _ => True
  end.

Definition in_order (evs : list event) : Prop :=
  forall pre c ok post, evs = pre ++ ECall c ok :: post -> earlier pre c.

(** The event is in order once the events [ctx] have happened. *)
Definition given (ctx : list event) (ev : event) : Prop :=
  match ev with ECall c _ => earlier ctx c | ELog _ _ => True end.

(** What a computation does depends on the world and not on the events
    logged so far. *)
Definition framed `{P : Platform} {A} (m : M A) : Prop :=
  forall w, exists r w' evs, forall t, m (State w t) = (r, State w' (t ++ evs)).

(** [__init__] after the token has been looked at. *)
Definition init_rest `{P : Platform} (a : arguments) (h : gmap string string)
    (t : option string) : M updater :=
  bind (ext (MakeDirs (arg_workspace a))) (fun _ =>
  bind (load_master_config_template (arg_master_config a)) (fun template =>
  ret (Updater (arg_repo_file a) (arg_workspace a) (arg_master_config a) h t template))).

(** ** Worlds to run on *)

Module Examples.

Definition nl : string := String "010" EmptyString.

Definition app_url : string := "https://github.com/acme/app.git".

(** A workspace holding one clean checkout, [./workspace/app] on [main],
    whose only file is a [build.gradle]. *)
Definition checkout_repo (gradle : string) : Sim.repo :=
  let t : Sim.tree := {["build.gradle" := gradle]} in
  Sim.Repo t t ["main"; "origin/main"] (Some app_url) "main".

Definition checkout (gradle : string) : Sim.world :=
  Sim.World_ ∅
    {["./workspace/app/build.gradle" := gradle]}
    {["./workspace"; "./workspace/app"]}
    ∅
    {[app_url := {["main" := {["build.gradle" := gradle]}]}]}
    {["./workspace/app" := checkout_repo gradle]}.

Definition self : updater :=
  Updater "repos.csv" "./workspace" "template.yml" ∅ None "image: {{JAVA_DOCKER_IMAGE}}".

Definition gradle_quoted_17 : string :=
  "plugins { id 'java' }" +:+ nl +:+ "sourceCompatibility = '17'" +:+ nl.

Definition gradle_symbolic_11 : string :=
  "java {" +:+ nl +:+ "  sourceCompatibility = JavaVersion.VERSION_11" +:+ nl +:+ "}".

Definition gradle_none : string :=
  "plugins { id 'java' }" +:+ nl +:+ "targetCompatibility = '17'" +:+ nl.

(** Two declarations: the root project on Java 11, a later block on 17. *)
Definition gradle_11_then_17 : string :=
  "allprojects { sourceCompatibility = 11 }" +:+ nl +:+ "sourceCompatibility = '17'" +:+ nl.

(** The symbolic declaration first, a numeric one after it. *)
Definition gradle_symbolic_then_numeric : string :=
  "sourceCompatibility = JavaVersion.VERSION_11" +:+ nl +:+ "sourceCompatibility = 17" +:+ nl.

Definition gradle_dotted : string :=
  "apply plugin: 'java'" +:+ nl +:+ "sourceCompatibility = 1.8" +:+ nl.

Definition gradle_17_then_dotted : string :=
  "sourceCompatibility = 17" +:+ nl +:+ "project(':legacy') { sourceCompatibility = 1.8 }" +:+ nl.

(** The same checkout with a committed CI configuration that has been
    edited in the working copy. *)
Definition edited_checkout : Sim.world :=
  let t : Sim.tree :=
    {["build.gradle" := "sourceCompatibility = 17";
      ".circleci/config.yml" := "image: old"]} in
  Sim.World_ ∅
    {["./workspace/app/build.gradle" := "sourceCompatibility = 17";
      "./workspace/app/.circleci/config.yml" := "image: new"]}
    {["./workspace"; "./workspace/app"; "./workspace/app/.circleci"]}
    ∅
    {[app_url := {["main" := t]}]}
    {["./workspace/app" := Sim.Repo t t ["main"; "origin/main"] (Some app_url) "main"]}.

(** Before the first run: a list file, the template, and one remote
    repository whose descriptor declares Java 17. *)
Definition fresh (list_file : string) : Sim.world :=
  Sim.World_ ∅
    {[list_file := "repository_url,branch" +:+ nl +:+ app_url +:+ ",main" +:+ nl;
      "template.yml" := "image: {{JAVA_DOCKER_IMAGE}}"]}
    ∅ ∅
    {[app_url := {["main" := {["build.gradle" := "sourceCompatibility = 17"]}]}]}
    ∅.

Definition command_line (list_file : string) : arguments :=
  Arguments_ list_file "template.yml" None "./workspace".

Definition lib_url : string := "https://github.com/acme/lib.git".

(** Two entries: [app] can be cloned, [lib] is not on the remote side. *)
Definition two_entries : Sim.world :=
  Sim.World_ ∅
    {["repos.csv" := "repository_url,branch" +:+ nl +:+ lib_url +:+ ",dev" +:+ nl
                     +:+ app_url +:+ ",main" +:+ nl;
      "template.yml" := "image: {{JAVA_DOCKER_IMAGE}}"]}
    ∅ ∅
    {[app_url := {["main" := {["build.gradle" := "sourceCompatibility = 17"]}]}]}
    ∅.

(** The workspace path is taken by a regular file. *)
Definition blocked_workspace : Sim.world :=
  Sim.World_ ∅
    {["repos.csv" := "repository_url,branch" +:+ nl +:+ app_url +:+ ",main" +:+ nl;
      "template.yml" := "image: {{JAVA_DOCKER_IMAGE}}";
      "./workspace" := EmptyString]}
    ∅ ∅
    {[app_url := {["main" := {["build.gradle" := "sourceCompatibility = 17"]}]}]}
    ∅.

(** Two entries; the first repository tracks a regular file named
    [.circleci]. *)
Definition circleci_is_a_file : Sim.world :=
  Sim.World_ ∅
    {["repos.csv" := "repository_url,branch" +:+ nl +:+ lib_url +:+ ",main" +:+ nl
                     +:+ app_url +:+ ",main" +:+ nl;
      "template.yml" := "image: {{JAVA_DOCKER_IMAGE}}"]}
    ∅ ∅
    {[lib_url := {["main" := {["build.gradle" := "sourceCompatibility = 11";
                               ".circleci" := "see ci/ instead"]}]};
      app_url := {["main" := {["build.gradle" := "sourceCompatibility = 17"]}]}]}
    ∅.

(** A command line that carries a token. *)
Definition command_line_with_token : arguments :=
  Arguments_ "repos.csv" "template.yml" (Some "s3cr3t") "./workspace".

(** The checkout of [app] knows the branch [dev] only as a remote-tracking
    reference. *)
Definition remote_only_branch : Sim.world :=
  let t : Sim.tree := {["build.gradle" := "sourceCompatibility = 17"]} in
  Sim.World_ ∅
    {["./workspace/app/build.gradle" := "sourceCompatibility = 17"]}
    {["./workspace"; "./workspace/app"]}
    ∅
    {[app_url := {["main" := t; "dev" := t]}]}
    {["./workspace/app" :=
        Sim.Repo t t ["main"; "origin/main"; "origin/dev"] (Some app_url) "main"]}.

End Examples.

(** * Properties *)

(** ** Text lemmas *)

Lemma app_cons (c : ascii) (s t : string) : String c s +:+ t = String c (s +:+ t).
Proof. done. Qed.

Lemma app_empty_r (s : string) : s +:+ EmptyString = s.
Proof. induction s as [|c s IH]; [done|]. by rewrite app_cons, IH. Qed.

Lemma app_empty_l (s : string) : EmptyString +:+ s = s.
Proof. done. Qed.

Lemma app_assoc_str (s t u : string) : (s +:+ t) +:+ u = s +:+ t +:+ u.
Proof. induction s as [|c s IH]; [done|]. rewrite !app_cons. by rewrite IH. Qed.

Lemma strip_prefix_app (l r : string) : Str.strip_prefix l (l +:+ r) = Some r.
Proof.
  induction l as [|a l IH]; [done|].
  rewrite app_cons. cbn. by rewrite Ascii.eqb_refl.
Qed.

Lemma strip_prefix_Some (l s r : string) : Str.strip_prefix l s = Some r -> s = l +:+ r.
Proof.
  revert s. induction l as [|a l IH]; intros s H; cbn in H.
  - by inversion H.
  - destruct s as [|b s]; [done|].
    destruct (Ascii.eqb_spec a b) as [->|]; [|done].
    rewrite app_cons. f_equal. by apply IH.
Qed.

Lemma occurs_here (sub r : string) : Str.occurs sub (sub +:+ r).
Proof. by exists EmptyString, r. Qed.

Lemma occurs_cons (sub s : string) (c : ascii) : Str.occurs sub s -> Str.occurs sub (String c s).
Proof. intros (pre & post & ->). by exists (String c pre), post. Qed.

(** Where [old] does not occur, [replace_from] copies the text. *)
Lemma replace_from_absent (old new s : string) :
  ~ Str.occurs old s -> Str.replace_from old new 0 s = s.
Proof.
  induction s as [|c s IH]; intros Hno; [done|].
  cbn [Str.replace_from]. unfold Str.startswith.
  destruct (Str.strip_prefix old (String c s)) as [r|] eqn:Hp.
  - apply strip_prefix_Some in Hp. destruct Hno. rewrite Hp. apply occurs_here.
  - f_equal. apply IH. intros Hs. apply Hno. by apply occurs_cons.
Qed.

(** ** The matcher on a text that goes on *)

Lemma contains_of_occurs (sub s : string) : Str.occurs sub s -> contains sub s = true.
Proof.
  intros (pre & post & ->). induction pre as [|c pre IH].
  - rewrite app_empty_l. destruct (sub +:+ post) eqn:E; cbn [contains];
      unfold Str.startswith; rewrite <- E, strip_prefix_app; done.
  - rewrite app_cons. cbn [contains]. rewrite IH. apply orb_true_r.
Qed.

Lemma not_occurs_of_contains (sub s : string) : contains sub s = false -> ~ Str.occurs sub s.
Proof. intros H Ho. apply contains_of_occurs in Ho. congruence. Qed.

Lemma strip_prefix_apart (c1 c2 : ascii) (x l p : string) :
  lit_apart c1 c2 l = true ->
  Str.strip_prefix l (p +:+ String c1 (String c2 x))
  = (fun r => r +:+ String c1 (String c2 x)) <$> Str.strip_prefix l p.
Proof.
  revert p. induction l as [|a l IH]; intros p Hl; [done|].
  cbn [lit_apart] in Hl. apply andb_true_iff in Hl as [Ha Hl].
  destruct p as [|b p].
  - rewrite app_empty_l. cbn [Str.strip_prefix].
    destruct (Ascii.eqb_spec a c1) as [->|]; [|done].
    destruct l as [|a2 l]; [done|]. cbn [Str.strip_prefix].
    destruct (Ascii.eqb_spec a2 c2) as [->|]; [|done].
    done.
  - rewrite app_cons. cbn [Str.strip_prefix].
    destruct (Ascii.eqb a b); [by apply IH|done].
Qed.

Lemma star_splits_apart (q : ascii -> bool) (c1 : ascii) (x p : string) :
  q c1 = false ->
  star_splits q (p +:+ String c1 x)
  = List.map (fun '(a, b) => (a, b +:+ String c1 x)) (star_splits q p).
Proof.
  intros Hq. induction p as [|c p IH].
  - rewrite app_empty_l. cbn. by rewrite Hq.
  - rewrite app_cons. cbn [star_splits]. destruct (q c); [|done].
    rewrite IH, List.map_app, !List.map_map. cbn. f_equal.
    apply List.map_ext. by intros [a b].
Qed.

Lemma flat_map_extend {A B} (f g : A -> list B) (h : A -> A) (k : B -> B) (l : list A) :
  (forall t, f (h t) = List.map k (g t)) ->
  List.flat_map f (List.map h l) = List.map k (List.flat_map g l).
Proof.
  intros H. induction l as [|t l IH]; [done|].
  cbn. by rewrite List.map_app, H, IH.
Qed.

Lemma rmatch_apart (c1 c2 : ascii) (x : string) (r : regex) :
  apart c1 c2 r = true ->
  forall p g,
    rmatch r (p +:+ String c1 (String c2 x)) g
    = List.map (extend (String c1 (String c2 x))) (rmatch r p g).
Proof.
  induction r as [l|q|q|q|q|r1 IH1 r2 IH2|r IH]; cbn [apart]; intros Hr p g.
  - cbn [rmatch]. rewrite (strip_prefix_apart _ _ _ _ _ Hr).
    by destruct (Str.strip_prefix l p).
  - apply negb_true_iff in Hr. destruct p as [|c p].
    + rewrite app_empty_l. cbn. by rewrite Hr.
    + rewrite app_cons. cbn. by destruct (q c).
  - apply negb_true_iff in Hr. destruct p as [|c p].
    + rewrite app_empty_l. cbn. by rewrite Hr.
    + rewrite app_cons. cbn. by destruct (q c).
  - apply negb_true_iff in Hr. cbn [rmatch].
    rewrite (star_splits_apart _ _ _ _ Hr), !List.map_map.
    apply List.map_ext. by intros [a b].
  - apply negb_true_iff in Hr. destruct p as [|c p].
    + rewrite app_empty_l. cbn. by rewrite Hr.
    + rewrite app_cons. cbn [rmatch]. destruct (q c); [|done].
      rewrite (star_splits_apart _ _ _ _ Hr), !List.map_map.
      apply List.map_ext. by intros [a b].
  - apply andb_true_iff in Hr as [H1 H2]. cbn [rmatch].
    rewrite (IH1 H1). apply flat_map_extend. intros t.
    cbn [extend rest group1 consumed]. rewrite (IH2 H2), !List.map_map. done.
  - cbn [rmatch]. rewrite (IH Hr), !List.map_map. done.
Qed.

Lemma rmatch_literal_step (a b : ascii) (l s : string) (r2 : regex) (g : option string) :
  rmatch (Seq (Lit (String a l)) r2) (String b s) g
  = if Ascii.eqb a b then List.map (prepend a) (rmatch (Seq (Lit l) r2) s g) else [].
Proof.
  cbn [rmatch Str.strip_prefix]. destruct (Ascii.eqb a b); [|done].
  destruct (Str.strip_prefix l s); [|done].
  cbn. rewrite !app_nil_r, List.map_map. done.
Qed.

(** A match that starts before the text [c1 c2 x] does not depend on it. *)
Lemma rmatch_before (c1 c2 b : ascii) (x p : string) (r : regex) (g : option string) :
  apart_after_start c1 c2 r = true ->
  rmatch r (String b p +:+ String c1 (String c2 x)) g
  = List.map (extend (String c1 (String c2 x))) (rmatch r (String b p) g).
Proof.
  intros Hr.
  assert (Hgen : apart c1 c2 r = true ->
    rmatch r (String b p +:+ String c1 (String c2 x)) g
    = List.map (extend (String c1 (String c2 x))) (rmatch r (String b p) g))
    by (intros H; by apply rmatch_apart).
  destruct r as [l|q|q|q|q|r1 r2|r]; try (by apply Hgen).
  destruct r1 as [l|q|q|q|q|r11 r12|r1]; try (by apply Hgen).
  destruct l as [|a l]; [by apply Hgen|].
  cbn [apart_after_start] in Hr.
  rewrite app_cons, !rmatch_literal_step. destruct (Ascii.eqb a b); [|done].
  rewrite (rmatch_apart _ _ _ _ Hr), !List.map_map. done.
Qed.

(** Searching a text that goes on with [c1 c2 x]: when the pattern does
    not match in the first part, the search moves on to the second. *)
Lemma search_from_app (c1 c2 : ascii) (x pre : string) (r : regex) (n : nat) :
  apart_after_start c1 c2 r = true ->
  search_from r n pre = None ->
  search_from r n (pre +:+ String c1 (String c2 x))
  = search_from r (n + String.length pre) (String c1 (String c2 x)).
Proof.
  intros Hr. revert n. induction pre as [|b pre IH]; intros n Hnone.
  - rewrite app_empty_l. cbn [String.length]. by rewrite Nat.add_0_r.
  - cbn [search_from] in Hnone.
    destruct (rmatch r (String b pre) None) as [|t ts] eqn:Hm; [|done].
    rewrite app_cons.
    transitivity (search_from r (S n) (pre +:+ String c1 (String c2 x))).
    + cbn [search_from]. rewrite <- app_cons.
      by rewrite (rmatch_before _ _ _ _ _ _ _ Hr), Hm.
    + rewrite (IH (S n) Hnone). f_equal. cbn [String.length]. lia.
Qed.

(** ** The image selector *)

Lemma int_raises_ValueError (m : nat) (s : string) (e : py_exc) :
  PyInt.int m s = inl e -> exc_cls e = ValueError.
Proof.
  unfold PyInt.int. intros H.
  repeat match type of H with
         | context [let '(_, _) := ?x in _] => destruct x
         | context [match ?x with _ => _ end] => destruct x
         end; by inversion H.
Qed.

Section Selector.

Context {P : Platform}.

Lemma get_docker_image_returns (self : updater) (java_version : string) (st : state) :
  exists image st',
    get_docker_image_for_java_version self java_version st = (Ret image, st')
    /\ (image = docker_image_17 \/ image = docker_image_13)
    /\ world st' = world st
    /\ exists logs, trace st' = trace st ++ logs
         /\ Forall (fun ev => exists lvl msg, ev = ELog lvl msg) logs.
Proof.
  unfold get_docker_image_for_java_version, try_except_ValueError.
  destruct (PyInt.int max_str_digits java_version) as [e|n] eqn:Hint.
  - apply int_raises_ValueError in Hint. destruct e as [cls msg]. cbn in Hint. subst cls.
    cbn. eexists _, _. split; [done|]. split; [by right|]. split; [done|].
    eexists [_]. split; [done|]. repeat constructor. by eexists _, _.
  - destruct (17 <=? n)%Z.
    { cbn. eexists _, _. split; [done|]. split; [by left|]. split; [done|].
      exists []. by rewrite app_nil_r. }
    destruct (13 <=? n)%Z.
    { cbn. eexists _, _. split; [done|]. split; [by right|]. split; [done|].
      exists []. by rewrite app_nil_r. }
    cbn. eexists _, _. split; [done|]. split; [by right|]. split; [done|].
    eexists [_]. split; [done|]. repeat constructor. by eexists _, _.
Qed.

End Selector.

(** C1.  The image selector is total on strings: whatever the string, the
    platform and the state, [get_docker_image_for_java_version] returns (it
    raises nothing) one of the two images, and the image is a function of
    the string alone for a given interpreter.  On ["17"] it is the Java 17
    image; on ["13"], ["8"] and ["not-a-number"] it is the Java 13 image. *)
Theorem select_image_total :
  forall (P : Platform) (self : updater) (st : state),
    (forall v, exists image st',
        get_docker_image_for_java_version self v st = (Ret image, st')
        /\ (image = docker_image_17 \/ image = docker_image_13))
    /\ (forall v self' st2, fst (get_docker_image_for_java_version self' v st2)
                           = fst (get_docker_image_for_java_version self v st))
    /\ fst (get_docker_image_for_java_version self "17" st) = Ret docker_image_17
    /\ fst (get_docker_image_for_java_version self "13" st) = Ret docker_image_13
    /\ fst (get_docker_image_for_java_version self "8" st) = Ret docker_image_13
    /\ fst (get_docker_image_for_java_version self "not-a-number" st) = Ret docker_image_13.
Proof.
  intros P self st. split; [|split; [|by repeat split]].
  - intros v. destruct (get_docker_image_returns self v st) as (image & st' & H & Himg & _).
    by exists image, st'.
  - intros v self' st2.
    unfold get_docker_image_for_java_version, try_except_ValueError.
    destruct (PyInt.int max_str_digits v) as [e|n] eqn:Hint.
    + apply int_raises_ValueError in Hint. destruct e as [cls msg]. cbn in Hint. by subst cls.
    + by destruct (17 <=? n)%Z, (13 <=? n)%Z.
Qed.

(** ** The version detector *)

Section Detector.

Context {P : Platform}.

(** On a descriptor that reads as [content], the detector returns group 1
    of the numeric pattern when that pattern matches, and otherwise what
    the symbolic pattern finds. *)
Lemma detect_java_version_value (self : updater) (repo_path content : string) (st : state) :
  descriptor_reads repo_path content st ->
  fst (detect_java_version self repo_path st)
  = Ret match search source_compat_pattern content with
        | Some m => m_group1 m
        | None =>
            match search java_version_pattern content with
            | Some m => m_group1 m
            | None => None
            end
        end.
Proof.
  intros [Hex Hread]. unfold detect_java_version, bind, observe, try_except, ext.
  rewrite Hex. cbn [negb].
  destruct (perform _ (world st)) as [[e|c] w'] eqn:Hp; cbn in Hread; [done|].
  inversion Hread; subst c.
  destruct (search source_compat_pattern content) as [m|]; [done|].
  by destruct (search java_version_pattern content) as [m|].
Qed.

End Detector.

Lemma search_group1_app (c1 c2 : ascii) (x pre : string) (r : regex) :
  apart_after_start c1 c2 r = true ->
  search r pre = None ->
  m_group1 <$> search r (pre +:+ String c1 (String c2 x))
  = m_group1 <$> search_from r (String.length pre) (String c1 (String c2 x)).
Proof. intros Hr Hn. unfold search. by rewrite (search_from_app _ _ _ _ _ _ Hr Hn). Qed.

Lemma source_compat_quoted_17 (pre post : string) :
  search source_compat_pattern pre = None ->
  m_group1 <$> search source_compat_pattern (pre +:+ "sourceCompatibility = '17'" +:+ post)
  = Some (Some "17").
Proof.
  intros Hn.
  change ("sourceCompatibility = '17'" +:+ post)
    with (String "s" (String "o" ("urceCompatibility = '17'" +:+ post))).
  rewrite (search_group1_app "s"%char "o"%char _ pre source_compat_pattern eq_refl Hn).
  generalize (String.length pre). intros k. vm_compute. reflexivity.
Qed.

Lemma source_compat_dotted (pre post : string) :
  search source_compat_pattern pre = None ->
  m_group1 <$> search source_compat_pattern (pre +:+ "sourceCompatibility = 1.8" +:+ post)
  = Some (Some "1").
Proof.
  intros Hn.
  change ("sourceCompatibility = 1.8" +:+ post)
    with (String "s" (String "o" ("urceCompatibility = 1.8" +:+ post))).
  rewrite (search_group1_app "s"%char "o"%char _ pre source_compat_pattern eq_refl Hn).
  generalize (String.length pre). intros k. vm_compute. reflexivity.
Qed.

Lemma java_version_symbolic_11 (pre post : string) :
  search java_version_pattern pre = None ->
  starts_with_digit post = false ->
  m_group1 <$> search java_version_pattern
                 (pre +:+ "sourceCompatibility = JavaVersion.VERSION_11" +:+ post)
  = Some (Some "11").
Proof.
  intros Hn Hpost.
  change ("sourceCompatibility = JavaVersion.VERSION_11" +:+ post)
    with (String "s" (String "o" ("urceCompatibility = JavaVersion.VERSION_11" +:+ post))).
  rewrite (search_group1_app "s"%char "o"%char _ pre java_version_pattern eq_refl Hn).
  generalize (String.length pre). intros k.
  destruct post as [|c post]; [vm_compute; reflexivity|].
  cbn [starts_with_digit] in Hpost.
  destruct c as [[] [] [] [] [] [] [] []]; try discriminate Hpost; vm_compute; reflexivity.
Qed.

Lemma group1_of_search (r : regex) (content : string) (v : option string) :
  m_group1 <$> search r content = Some v ->
  exists m, search r content = Some m /\ m_group1 m = v.
Proof. destruct (search r content) as [m|]; [|done]. intros [= <-]. by exists m. Qed.

(** C2, as the code has it.  On a descriptor in which no match of the
    numeric pattern comes before the declaration [sourceCompatibility = '17'],
    the detector returns ["17"].  On a descriptor that the numeric pattern
    matches nowhere, in which no match of the symbolic pattern comes before
    [sourceCompatibility = JavaVersion.VERSION_11] and no digit follows it,
    the detector returns ["11"].  On a descriptor that neither pattern
    matches it returns [None]. *)
Theorem detect_declared_version :
  forall (P : Platform) (self : updater) (repo_path content : string) (st : state),
    descriptor_reads repo_path content st ->
    (forall pre post,
        content = pre +:+ "sourceCompatibility = '17'" +:+ post ->
        search source_compat_pattern pre = None ->
        fst (detect_java_version self repo_path st) = Ret (Some "17"))
    /\ (forall pre post,
        content = pre +:+ "sourceCompatibility = JavaVersion.VERSION_11" +:+ post ->
        search source_compat_pattern content = None ->
        search java_version_pattern pre = None ->
        starts_with_digit post = false ->
        fst (detect_java_version self repo_path st) = Ret (Some "11"))
    /\ (search source_compat_pattern content = None ->
        search java_version_pattern content = None ->
        fst (detect_java_version self repo_path st) = Ret None).
Proof.
  intros P self repo_path content st Hd.
  rewrite (detect_java_version_value self repo_path content st Hd).
  split; [|split].
  - intros pre post -> Hpre.
    destruct (group1_of_search _ _ _ (source_compat_quoted_17 pre post Hpre)) as (m & -> & ->).
    done.
  - intros pre post -> Hnum Hpre Hpost. rewrite Hnum.
    destruct (group1_of_search _ _ _ (java_version_symbolic_11 pre post Hpre Hpost))
      as (m & -> & ->).
    done.
  - by intros -> ->.
Qed.

Lemma detect_declared_version_witness :
  fst (detect_java_version Examples.self "./workspace/app"
         (Sim.start (Examples.checkout Examples.gradle_quoted_17))) = Ret (Some "17")
  /\ fst (detect_java_version Examples.self "./workspace/app"
            (Sim.start (Examples.checkout Examples.gradle_symbolic_11))) = Ret (Some "11")
  /\ fst (detect_java_version Examples.self "./workspace/app"
            (Sim.start (Examples.checkout Examples.gradle_none))) = Ret None.
Proof.
  split; [|split].
  - refine (proj1 (detect_declared_version Sim.platform Examples.self "./workspace/app"
                     Examples.gradle_quoted_17 _ _)
              ("plugins { id 'java' }" +:+ Examples.nl) Examples.nl _ _).
    + split; vm_compute; reflexivity.
    + vm_compute; reflexivity.
    + vm_compute; reflexivity.
  - refine (proj1 (proj2 (detect_declared_version Sim.platform Examples.self "./workspace/app"
                     Examples.gradle_symbolic_11 _ _))
              ("java {" +:+ Examples.nl +:+ "  ") (Examples.nl +:+ "}") _ _ _ _).
    + split; vm_compute; reflexivity.
    + vm_compute; reflexivity.
    + vm_compute; reflexivity.
    + vm_compute; reflexivity.
    + vm_compute; reflexivity.
  - refine (proj2 (proj2 (detect_declared_version Sim.platform Examples.self "./workspace/app"
                     Examples.gradle_none _ _)) _ _).
    + split; vm_compute; reflexivity.
    + vm_compute; reflexivity.
    + vm_compute; reflexivity.
Defined.

(** C2 as stated fails: a descriptor that contains
    [sourceCompatibility = '17'] after an earlier numeric declaration yields
    the earlier value. *)
Lemma detect_earlier_declaration_wins :
  descriptor_reads "./workspace/app" Examples.gradle_11_then_17
    (Sim.start (Examples.checkout Examples.gradle_11_then_17))
  /\ Str.occurs "sourceCompatibility = '17'" Examples.gradle_11_then_17
  /\ fst (detect_java_version Examples.self "./workspace/app"
            (Sim.start (Examples.checkout Examples.gradle_11_then_17))) = Ret (Some "11")
  /\ fst (detect_java_version Examples.self "./workspace/app"
            (Sim.start (Examples.checkout Examples.gradle_11_then_17))) <> Ret (Some "17").
Proof.
  split; [split; vm_compute; reflexivity|].
  split; [by exists ("allprojects { sourceCompatibility = 11 }" +:+ Examples.nl), Examples.nl|].
  split; [vm_compute; reflexivity|].
  vm_compute. discriminate.
Qed.

(** C7.  The numeric pattern is searched first, over the whole text, and
    its group is the result whenever it matches, wherever the symbolic
    declaration stands; the symbolic pattern is consulted only when the
    numeric one matches nowhere; the result is one value, or [None] when
    neither matches. *)
Theorem detect_pattern_order :
  forall (P : Platform) (self : updater) (repo_path content : string) (st : state),
    descriptor_reads repo_path content st ->
    (forall m, search source_compat_pattern content = Some m ->
        fst (detect_java_version self repo_path st) = Ret (m_group1 m))
    /\ (forall m1 m2,
        search source_compat_pattern content = Some m1 ->
        search java_version_pattern content = Some m2 ->
        m_start m2 < m_start m1 ->
        fst (detect_java_version self repo_path st) = Ret (m_group1 m1))
    /\ (forall m, search source_compat_pattern content = None ->
        search java_version_pattern content = Some m ->
        fst (detect_java_version self repo_path st) = Ret (m_group1 m))
    /\ (search source_compat_pattern content = None ->
        search java_version_pattern content = None ->
        fst (detect_java_version self repo_path st) = Ret None).
Proof.
  intros P self repo_path content st Hd.
  rewrite (detect_java_version_value self repo_path content st Hd).
  repeat split.
  - by intros m ->.
  - by intros m1 m2 -> _ _.
  - by intros m -> ->.
  - by intros -> ->.
Qed.

Lemma detect_pattern_order_witness :
  search java_version_pattern Examples.gradle_symbolic_then_numeric
    = Some (Match 0 "sourceCompatibility = JavaVersion.VERSION_11" (Some "11"))
  /\ fst (detect_java_version Examples.self "./workspace/app"
            (Sim.start (Examples.checkout Examples.gradle_symbolic_then_numeric)))
     = Ret (Some "17").
Proof.
  split; [vm_compute; reflexivity|].
  refine (proj1 (proj2 (detect_pattern_order Sim.platform Examples.self "./workspace/app"
                   Examples.gradle_symbolic_then_numeric _ _))
            (Match 45 "sourceCompatibility = 17" (Some "17"))
            (Match 0 "sourceCompatibility = JavaVersion.VERSION_11" (Some "11")) _ _ _).
  - split; vm_compute; reflexivity.
  - vm_compute; reflexivity.
  - vm_compute; reflexivity.
  - cbn; lia.
Defined.

(** C8, as the code has it.  On a descriptor in which no match of the
    numeric pattern comes before [sourceCompatibility = 1.8], the detector
    returns ["1"], the digits before the dot; the image selector maps ["1"]
    to the Java 13 image and logs one warning. *)
Theorem detect_dotted_version :
  forall (P : Platform) (self : updater) (repo_path content pre post : string) (st : state),
    descriptor_reads repo_path content st ->
    content = pre +:+ "sourceCompatibility = 1.8" +:+ post ->
    search source_compat_pattern pre = None ->
    fst (detect_java_version self repo_path st) = Ret (Some "1")
    /\ forall st',
        get_docker_image_for_java_version self "1" st'
        = (Ret docker_image_13,
           emit (ELog WARNING "No specific Docker image for Java 1, using Java 13 image") st').
Proof.
  intros P self repo_path content pre post st Hd -> Hpre. split; [|done].
  rewrite (detect_java_version_value self repo_path _ st Hd).
  destruct (group1_of_search _ _ _ (source_compat_dotted pre post Hpre)) as (m & -> & ->).
  done.
Qed.

Lemma detect_dotted_version_witness :
  fst (detect_java_version Examples.self "./workspace/app"
         (Sim.start (Examples.checkout Examples.gradle_dotted))) = Ret (Some "1").
Proof.
  refine (proj1 (detect_dotted_version Sim.platform Examples.self "./workspace/app"
                   Examples.gradle_dotted ("apply plugin: 'java'" +:+ Examples.nl) Examples.nl
                   _ _ _ _)).
  - split; vm_compute; reflexivity.
  - vm_compute; reflexivity.
  - vm_compute; reflexivity.
Defined.

(** C8 as stated fails: a descriptor that contains
    [sourceCompatibility = 1.8] after an earlier numeric declaration yields
    the earlier value. *)
Lemma detect_dotted_after_other :
  descriptor_reads "./workspace/app" Examples.gradle_17_then_dotted
    (Sim.start (Examples.checkout Examples.gradle_17_then_dotted))
  /\ Str.occurs "sourceCompatibility = 1.8" Examples.gradle_17_then_dotted
  /\ fst (detect_java_version Examples.self "./workspace/app"
            (Sim.start (Examples.checkout Examples.gradle_17_then_dotted))) = Ret (Some "17")
  /\ fst (detect_java_version Examples.self "./workspace/app"
            (Sim.start (Examples.checkout Examples.gradle_17_then_dotted))) <> Ret (Some "1").
Proof.
  split; [split; vm_compute; reflexivity|].
  split; [by exists ("sourceCompatibility = 17" +:+ Examples.nl +:+ "project(':legacy') { "),
                    (" }" +:+ Examples.nl)|].
  split; [vm_compute; reflexivity|].
  vm_compute. discriminate.
Qed.

(** ** The checkout path *)

Lemma length_app_str (s t : string) :
  String.length (s +:+ t) = String.length s + String.length t.
Proof. induction s as [|c s IH]; [done|]. rewrite app_cons. cbn. by rewrite IH. Qed.

(** A last segment without [.git] is the name. *)
Lemma repo_name_of_plain (repo_url : string) :
  ~ Str.occurs ".git" (Str.last (Str.split "/" repo_url)) ->
  repo_name_of repo_url = Str.last (Str.split "/" repo_url).
Proof. intros Hno. unfold repo_name_of, Str.replace. by apply replace_from_absent. Qed.

Lemma replace_trailing_git (base : string) :
  (forall pre post, base +:+ ".git" = pre +:+ ".git" +:+ post -> post = EmptyString) ->
  Str.replace_from ".git" EmptyString 0 (base +:+ ".git") = base.
Proof.
  induction base as [|c base IH]; intros Honly; [reflexivity|].
  rewrite app_cons. cbn [Str.replace_from]. unfold Str.startswith.
  destruct (Str.strip_prefix ".git" (String c (base +:+ ".git"))) as [r|] eqn:Hp.
  - apply strip_prefix_Some in Hp. rewrite <- app_cons in Hp.
    pose proof (Honly EmptyString r Hp) as ->.
    apply (f_equal String.length) in Hp. rewrite !length_app_str in Hp. cbn in Hp. lia.
  - f_equal. apply IH. intros pre post Heq.
    apply (Honly (String c pre) post). by rewrite !app_cons, Heq.
Qed.

(** A last segment whose only [.git] is its ending loses that ending. *)
Lemma repo_name_of_trailing_git (repo_url base : string) :
  Str.last (Str.split "/" repo_url) = base +:+ ".git" ->
  (forall pre post, base +:+ ".git" = pre +:+ ".git" +:+ post -> post = EmptyString) ->
  repo_name_of repo_url = base.
Proof.
  intros Hseg Honly. unfold repo_name_of, Str.replace. rewrite Hseg.
  by apply replace_trailing_git.
Qed.

(** C4.  The name of the checkout is not the last segment of the URL with a
    trailing [.git] removed: [replace] removes [.git] wherever it stands in
    the segment.  For the repository of a GitHub Pages site the checkout
    goes to [octocathub.io]. *)
Theorem repo_name_removes_inner_git :
  repo_name_of "https://github.com/octocat/octocat.github.io.git" = "octocathub.io"
  /\ Str.last (Str.split "/" "https://github.com/octocat/octocat.github.io.git")
     = "octocat.github.io" +:+ ".git".
Proof. split; reflexivity. Qed.

(** ** Rendering *)

(** C10.  A template in which the placeholder does not occur is rendered as
    it is, whatever the image. *)
Theorem render_without_placeholder (template docker_image : string) :
  ~ Str.occurs placeholder template ->
  config_content template docker_image = template.
Proof.
  intros Hno. unfold config_content, Str.replace, placeholder in *.
  by apply replace_from_absent.
Qed.

Lemma render_without_placeholder_witness :
  config_content "version: 2.1" docker_image_17 = "version: 2.1".
Proof.
  apply (render_without_placeholder "version: 2.1" docker_image_17).
  apply not_occurs_of_contains. vm_compute. reflexivity.
Defined.

(** ** Traces *)

Section Traces.

Context {P : Platform}.

Lemma new_events_app (st : state) (w : World) (evs : list event) :
  new_events st (State w (trace st ++ evs)) = evs.
Proof. unfold new_events. cbn. by rewrite drop_app_length. Qed.

Lemma new_events_of_trace (st st' : state) (evs : list event) :
  trace st' = trace st ++ evs -> new_events st st' = evs.
Proof. unfold new_events. intros ->. by rewrite drop_app_length. Qed.

End Traces.

Ltac trace_simpl :=
  unfold emit; cbn [fst snd trace world]; rewrite <- ?app_assoc; cbn [app];
  rewrite ?new_events_app.

(** ** The publisher *)

(** C5.  In a checkout that opens and that [is_dirty] reports clean, the
    publisher returns [True] after those two calls and one log line: no add,
    no commit, no push.  In a checkout reported dirty, the git commands that
    follow are the first [k >= 1] of: add of [.circleci/config.yml] alone,
    commit with the message "Update CircleCI config for Java " followed by
    the version, push; the commit is reached whenever the add returns. *)
Theorem publish_checks_dirtiness :
  forall (P : Platform) (self : updater) (repo_path java_version : string) (st : state)
         (dirty : bool) (w1 w2 : World),
    perform (GitRepo repo_path) (world st) = (inr tt, w1) ->
    perform (GitIsDirty repo_path) w1 = (inr dirty, w2) ->
    (dirty = false ->
     commit_and_push_changes self repo_path java_version st
     = (Ret true,
        State w2 (trace st ++ [ECall (GitRepo repo_path) true;
                               ECall (GitIsDirty repo_path) true;
                               ELog INFO "No changes to commit"])))
    /\ (dirty = true ->
        exists k, 1 <= k <= 3
          /\ calls (new_events st (snd (commit_and_push_changes self repo_path java_version st)))
             = [GitRepo repo_path; GitIsDirty repo_path]
               ++ take k [GitAdd repo_path ".circleci/config.yml";
                          GitCommit repo_path ("Update CircleCI config for Java " +:+ java_version);
                          GitPush repo_path]
          /\ (returned (fst (perform (GitAdd repo_path ".circleci/config.yml") w2)) = true ->
              2 <= k)).
Proof.
  intros P self repo_path java_version st dirty w1 w2 Hopen Hdirty.
  split; intros ->; unfold commit_and_push_changes, try_except, bind, ext, log, ret;
    rewrite Hopen; cbn [world]; rewrite Hdirty; cbn [negb].
  - by trace_simpl.
  - cbn [world].
    destruct (perform (GitAdd repo_path ".circleci/config.yml") w2) as [[e|[]] w3].
    { exists 1. split; [lia|]. split; [by trace_simpl|]. cbn. done. }
    cbn [world].
    destruct (perform (GitCommit repo_path (commit_message java_version)) w3) as [[e|[]] w4].
    { exists 2. split; [lia|]. split; [by trace_simpl|]. done. }
    cbn [world].
    destruct (perform (GitPush repo_path) w4) as [[e|[]] w5].
    { exists 3. split; [lia|]. split; [by trace_simpl|]. lia. }
    exists 3. split; [lia|]. split; [by trace_simpl|]. lia.
Qed.

Lemma publish_checks_dirtiness_witness :
  fst (commit_and_push_changes Examples.self "./workspace/app" "17"
         (Sim.start (Examples.checkout "sourceCompatibility = 17"))) = Ret true
  /\ exists k, 1 <= k <= 3
       /\ calls (new_events (Sim.start Examples.edited_checkout)
                   (snd (commit_and_push_changes Examples.self "./workspace/app" "17"
                           (Sim.start Examples.edited_checkout))))
          = [GitRepo "./workspace/app"; GitIsDirty "./workspace/app"]
            ++ take k [GitAdd "./workspace/app" ".circleci/config.yml";
                       GitCommit "./workspace/app" "Update CircleCI config for Java 17";
                       GitPush "./workspace/app"].
Proof.
  split.
  - refine (f_equal fst
              (proj1 (publish_checks_dirtiness Sim.platform Examples.self "./workspace/app" "17"
                        (Sim.start (Examples.checkout "sourceCompatibility = 17")) false
                        (Examples.checkout "sourceCompatibility = 17")
                        (Examples.checkout "sourceCompatibility = 17") _ _) eq_refl)).
    + vm_compute; reflexivity.
    + vm_compute; reflexivity.
  - destruct (proj2 (publish_checks_dirtiness Sim.platform Examples.self "./workspace/app" "17"
                       (Sim.start Examples.edited_checkout) true
                       Examples.edited_checkout Examples.edited_checkout
                       ltac:(vm_compute; reflexivity) ltac:(vm_compute; reflexivity)) eq_refl)
      as (k & Hk & Hcalls & _).
    exists k. split; [exact Hk|exact Hcalls].
Defined.

(** ** Start-up *)

Section Startup.

Context {P : Platform}.

(** [__init__] issues at most the creation of the workspace and the read
    of the template, and when it raises the process ends with status 1. *)
Lemma init_outcome (a : arguments) (st : state) :
  exists evs,
    trace (snd (init a st)) = trace st ++ evs
    /\ no_git_call evs = true
    /\ forall r, fst (init a st) = Raise r -> exit_status (Raise r : result unit) = 1%Z.
Proof.
  unfold init, load_master_config_template, try_except, bind, ext, log, ret, observe,
    sys_exit, raise.
  destruct (truthy (arg_token a)) as [t|]; cbn [truthy].
  - destruct t as [|c t]; cbn [truthy];
      destruct (perform (MakeDirs (arg_workspace a)) _) as [[e|[]] w1]; cbn [world];
      try (eexists; split; [trace_simpl; reflexivity|split; [done|by intros r [= <-]]]);
      destruct (perform (ReadText (arg_master_config a)) w1) as [[e|text] w2];
      (eexists; split; [trace_simpl; reflexivity|split; [done|by intros r [= <-]]]).
  - destruct (truthy (environ_get "GITHUB_TOKEN" (world st))) as [t|];
      destruct (perform (MakeDirs (arg_workspace a)) _) as [[e|[]] w1]; cbn [world];
      try (eexists; split; [trace_simpl; reflexivity|split; [done|by intros r [= <-]]]);
      destruct (perform (ReadText (arg_master_config a)) w1) as [[e|text] w2];
      (eexists; split; [trace_simpl; reflexivity|split; [done|by intros r [= <-]]]).
Qed.

Lemma init_repo_file (a : arguments) (st st1 : state) (self : updater) :
  init a st = (Ret self, st1) -> repo_file self = arg_repo_file a.
Proof.
  unfold init, load_master_config_template, try_except, bind, ext, log, ret, observe,
    sys_exit, raise.
  destruct (truthy (arg_token a)) as [t|]; cbn [truthy].
  - destruct t as [|c t]; cbn [truthy];
      destruct (perform (MakeDirs (arg_workspace a)) _) as [[e|[]] w1]; cbn [world];
      try done;
      destruct (perform (ReadText (arg_master_config a)) w1) as [[e|text] w2];
      try done; by intros [= <- _].
  - destruct (truthy (environ_get "GITHUB_TOKEN" (world st))) as [t|];
      destruct (perform (MakeDirs (arg_workspace a)) _) as [[e|[]] w1]; cbn [world];
      try done;
      destruct (perform (ReadText (arg_master_config a)) w1) as [[e|text] w2];
      try done; by intros [= <- _].
Qed.

(** With an extension other than [.csv], [read_repositories] logs the
    error and leaves through [sys.exit(1)] without any call. *)
Lemma read_repositories_unsupported (self : updater) (st : state) :
  Str.lower (path_suffix (repo_file self)) <> ".csv" ->
  read_repositories self st
  = (Raise (SystemExit 1),
     emit (ELog ERROR ("Unsupported file format: "
                       +:+ Str.lower (path_suffix (repo_file self)))) st).
Proof.
  intros Hext. unfold read_repositories, try_except, bind.
  destruct (decide (Str.lower (path_suffix (repo_file self)) = ".csv")); done.
Qed.

End Startup.

Lemma no_git_call_app (evs evs' : list event) :
  no_git_call (evs ++ evs') = no_git_call evs && no_git_call evs'.
Proof. apply forallb_app. Qed.

(** C9.  When the extension of the list file, lower-cased as the script
    does, is not [.csv], the process ends with a non-zero status and no git
    command has been issued: no repository was cloned, fetched or checked
    out. *)
Theorem unsupported_list_extension :
  forall (P : Platform) (a : arguments) (st : state),
    Str.lower (path_suffix (arg_repo_file a)) <> ".csv" ->
    exit_status (fst (main a st)) <> 0%Z
    /\ no_git_call (new_events st (snd (main a st))) = true.
Proof.
  intros P a st Hext.
  destruct (init_outcome a st) as (evs & Htrace & Hquiet & Hfail).
  unfold main, process_repositories, bind in *.
  destruct (init a st) as [[self|r] st1] eqn:Hinit; cbn [fst snd] in *.
  - rewrite read_repositories_unsupported
      by (by rewrite (init_repo_file a st st1 self Hinit)).
    cbn [fst snd]. split; [done|].
    unfold emit. cbn [trace]. rewrite Htrace, <- app_assoc, new_events_app.
    rewrite no_git_call_app, Hquiet. done.
  - split; [by rewrite (Hfail r eq_refl)|].
    by rewrite (new_events_of_trace _ _ _ Htrace).
Qed.

Lemma unsupported_list_extension_witness :
  exit_status (fst (main (Examples.command_line "repos.ini")
                      (Sim.start (Examples.fresh "repos.ini")))) <> 0%Z
  /\ no_git_call (new_events (Sim.start (Examples.fresh "repos.ini"))
                    (snd (main (Examples.command_line "repos.ini")
                            (Sim.start (Examples.fresh "repos.ini"))))) = true.
Proof.
  apply (unsupported_list_extension Sim.platform (Examples.command_line "repos.ini")
           (Sim.start (Examples.fresh "repos.ini"))).
  vm_compute. discriminate.
Defined.

(** [.CSV] is read like [.csv]: the comparison is made on the lower-cased
    extension. *)
Lemma upper_case_extension_is_read :
  Str.lower (path_suffix "repos.CSV") = ".csv"
  /\ calls (trace (snd (main (Examples.command_line "repos.CSV")
                          (Sim.start (Examples.fresh "repos.CSV")))))
     = [MakeDirs "./workspace"; ReadText "template.yml"; ReadCsv "repos.CSV";
        GitCloneFrom Examples.app_url "./workspace/app" (Some "main");
        ReadText "./workspace/app/build.gradle";
        MakeDirs "./workspace/app/.circleci";
        WriteText "./workspace/app/.circleci/config.yml"
          "image: circleci/openjdk:17-buster-node-browsers-legacy";
        GitRepo "./workspace/app"; GitIsDirty "./workspace/app"].
Proof. split; vm_compute; reflexivity. Qed.

(** ** A configuration file that did not exist *)

Lemma sim_makedirs_keeps (d : string) (w w' : Sim.world) :
  Sim.run (MakeDirs d) w = (inr tt, w') ->
  Sim.files w' = Sim.files w /\ Sim.repos w' = Sim.repos w.
Proof.
  cbn [Sim.run]. repeat case_bool_decide; intros [= <-]; done.
Qed.

Lemma sim_write_result (f c : string) (w w' : Sim.world) :
  Sim.run (WriteText f c) w = (inr tt, w') ->
  Sim.files w' = <[f := c]> (Sim.files w) /\ Sim.repos w' = Sim.repos w.
Proof.
  cbn [Sim.run]. repeat case_bool_decide; intros [= <-]; done.
Qed.

(** Writing a file that no tracked file stands for leaves a clean working
    copy clean. *)
Lemma sim_clean_after_new_file (w w' : Sim.world) (path f c : string) (r : Sim.repo) :
  Sim.is_dirty w path r = false ->
  Sim.files w !! f = None ->
  Sim.files w' = <[f := c]> (Sim.files w) ->
  Sim.is_dirty w' path r = false.
Proof.
  unfold Sim.is_dirty. intros Hclean Hnew Hfiles.
  apply orb_false_iff in Hclean as [Hindex Htracked].
  rewrite Hindex. cbn [orb].
  apply negb_false_iff, bool_decide_eq_true in Htracked.
  apply negb_false_iff, bool_decide_eq_true.
  intros g content Hg. specialize (Htracked g content Hg). cbn beta in Htracked |- *.
  rewrite Hfiles, lookup_insert_ne; [done|]. intros Heq. rewrite <- Heq in Htracked. congruence.
Qed.

(** C6.  In a clean working copy in which the CI configuration file does
    not exist, a successful [update_circleci_config] creates the file, and
    the publisher that follows finds the working copy clean: [is_dirty]
    answers [False], and [commit_and_push_changes] returns [True] after
    opening the repository and asking, with no add, commit or push.  The new
    file stays out of the repository. *)
Theorem new_config_is_not_published :
  forall (self : updater) (repo_path java_version : string)
         (w : Sim.world) (tr : list event) (r : Sim.repo) (st1 : Sim.state),
    Sim.repos w !! repo_path = Some r ->
    Sim.is_dirty w repo_path r = false ->
    Sim.files w !! config_file_of repo_path = None ->
    update_circleci_config self repo_path java_version (Sim.resume w tr)
    = (Ret true, st1) ->
    is_Some (Sim.files (world st1) !! config_file_of repo_path)
    /\ Sim.repos (world st1) !! repo_path = Some r
    /\ fst (Sim.run (GitIsDirty repo_path) (world st1)) = inr false
    /\ commit_and_push_changes self repo_path java_version st1
       = (Ret true,
          Sim.resume (world st1)
            (trace st1 ++ [ECall (GitRepo repo_path) true;
                           ECall (GitIsDirty repo_path) true;
                           ELog INFO "No changes to commit"])).
Proof.
  intros self repo_path java_version w tr r st1 Hrepo Hclean Hnew Hupd.
  unfold Sim.resume in *.
  unfold update_circleci_config, bind, try_except in Hupd.
  unfold ext at 1 in Hupd. cbn [world perform Sim.platform] in Hupd.
  destruct (Sim.run (MakeDirs _) w) as [[e|[]] w1] eqn:Hmk; [done|].
  apply sim_makedirs_keeps in Hmk as [Hf1 Hr1].
  match type of Hupd with
  | context [get_docker_image_for_java_version ?s ?v ?st] =>
      destruct (get_docker_image_returns s v st) as (image & st' & Himg & _ & Hw & _)
  end.
  rewrite Himg in Hupd. unfold ext, log, ret in Hupd.
  cbn [perform Sim.platform] in Hupd. rewrite Hw in Hupd. cbn [world] in Hupd.
  destruct (Sim.run (WriteText _ _) w1) as [[e|[]] w2] eqn:Hwr; [done|].
  apply sim_write_result in Hwr as [Hf2 Hr2].
  injection Hupd as <-. unfold emit. cbn [world trace].
  fold (config_file_of repo_path) in Hf2.
  rewrite Hf1 in Hf2. rewrite Hr1 in Hr2.
  assert (Hclean2 : Sim.is_dirty w2 repo_path r = false)
    by (by apply (sim_clean_after_new_file w w2 repo_path _ _ r Hclean Hnew Hf2)).
  split; [by rewrite Hf2, lookup_insert_eq|].
  split; [by rewrite Hr2|].
  split.
  - cbn [Sim.run]. unfold Sim.with_repo. rewrite Hr2, Hrepo. cbn. by rewrite Hclean2.
  - unfold commit_and_push_changes, try_except, bind, ext, log, ret, emit.
    cbn [perform Sim.platform world trace Sim.run]. unfold Sim.with_repo.
    rewrite Hr2, Hrepo. cbn [world trace]. rewrite ?Hr2, ?Hrepo, Hclean2. cbn [negb].
    by trace_simpl.
Qed.

Lemma new_config_is_not_published_witness :
  fst (Sim.run (GitIsDirty "./workspace/app")
         (world (snd (update_circleci_config Examples.self "./workspace/app" "17"
                        (Sim.resume (Examples.checkout "sourceCompatibility = 17") [])))))
  = inr false
  /\ fst (commit_and_push_changes Examples.self "./workspace/app" "17"
            (snd (update_circleci_config Examples.self "./workspace/app" "17"
                    (Sim.resume (Examples.checkout "sourceCompatibility = 17") []))))
     = Ret true.
Proof.
  pose (w := Examples.checkout "sourceCompatibility = 17").
  pose (st1 := snd (update_circleci_config Examples.self "./workspace/app" "17"
                      (Sim.resume w []))).
  assert (H1 : Sim.repos w !! "./workspace/app"
               = Some (Examples.checkout_repo "sourceCompatibility = 17"))
    by (vm_compute; reflexivity).
  assert (H2 : Sim.is_dirty w "./workspace/app"
                 (Examples.checkout_repo "sourceCompatibility = 17") = false)
    by (vm_compute; reflexivity).
  assert (H3 : Sim.files w !! config_file_of "./workspace/app" = None)
    by (vm_compute; reflexivity).
  assert (H4 : update_circleci_config Examples.self "./workspace/app" "17" (Sim.resume w [])
               = (Ret true, st1))
    by (vm_compute; reflexivity).
  destruct (new_config_is_not_published Examples.self "./workspace/app" "17" w []
              (Examples.checkout_repo "sourceCompatibility = 17") st1 H1 H2 H3 H4)
    as (_ & _ & Hclean & Hpub).
  split; [exact Hclean|]. exact (f_equal fst Hpub).
Defined.

(** ** Which failures end the run *)

Lemma no_failed_makedirs_app (evs evs' : list event) :
  no_failed_makedirs (evs ++ evs') = no_failed_makedirs evs && no_failed_makedirs evs'.
Proof. apply forallb_app. Qed.

Lemma errors_logged_weaken (evs : list event) :
  errors_logged false evs = true -> errors_logged true evs = true.
Proof.
  induction evs as [|ev evs IH]; [done|]. cbn [errors_logged].
  destruct ev as [c [|]|lvl msg]; try exact IH.
  destruct evs as [|[c' ok|[| |] msg] evs]; try done; try exact IH.
Qed.

(** Events with every failure logged, followed by further events. *)
Lemma errors_logged_app (b : bool) (evs evs' : list event) :
  errors_logged false evs = true ->
  errors_logged b evs' = true ->
  errors_logged b (evs ++ evs') = true.
Proof.
  intros H H'. induction evs as [|ev evs IH]; [done|].
  cbn [app errors_logged] in *.
  destruct ev as [c [|]|lvl msg]; try (by apply IH).
  destruct evs as [|[c' ok|[| |] msg] evs]; try done; try (by apply IH).
Qed.

(** Events whose last failure may be pending, followed by the events of a
    handler that logs the error first. *)
Lemma errors_logged_handler (b : bool) (evs evs' : list event) (msg : string) :
  errors_logged true evs = true ->
  errors_logged b evs' = true ->
  errors_logged b (evs ++ ELog ERROR msg :: evs') = true.
Proof.
  intros H H'. induction evs as [|ev evs IH]; [done|].
  cbn [app errors_logged] in *.
  destruct ev as [c [|]|lvl msg']; try (by apply IH).
  destruct evs as [|[c' ok|[| |] msg'] evs]; try done; try (by apply IH).
Qed.

Section Failures.

Context {P : Platform}.

Lemma total_tame {A} (m : M A) : total m -> tame m.
Proof.
  intros H st. destruct (H st) as (evs & a & Ht & Hn & Hr).
  exists evs. split; [done|]. split; [by apply errors_logged_weaken|].
  split; [done|]. intros r Hr'. congruence.
Qed.

Lemma total_guarded {A} (m : M A) : total m -> guarded m.
Proof.
  intros H st. destruct (H st) as (evs & a & Ht & Hn & Hr).
  exists evs. split; [done|]. left. eauto.
Qed.

Lemma total_ret {A} (a : A) : total (ret a).
Proof. intros st. exists [], a. cbn. by rewrite app_nil_r. Qed.

Lemma total_log (lvl : level) (msg : string) : total (log lvl msg).
Proof. intros st. by exists [ELog lvl msg], tt. Qed.

Lemma total_observe {A} (f : World -> A) : total (observe f).
Proof. intros st. exists [], (f (world st)). cbn. by rewrite app_nil_r. Qed.

Lemma tame_ext (c : call) : tame (ext c).
Proof.
  intros st. unfold ext.
  destruct (perform c (world st)) as [[e|v] w'].
  - exists [ECall c false]. split; [done|]. split; [done|]. split; [done|].
    intros r [= <-]. by exists e.
  - exists [ECall c true]. done.
Qed.

Lemma guarded_makedirs (d : string) : guarded (ext (MakeDirs d)).
Proof.
  intros st. unfold ext.
  destruct (perform (MakeDirs d) (world st)) as [[e|v] w'].
  - exists [ECall (MakeDirs d) false]. split; [done|]. right. split; [by exists e|done].
  - exists [ECall (MakeDirs d) true]. split; [done|]. left. split; [by exists v|done].
Qed.

Lemma tame_raise {A} (e : py_exc) : tame (raise (Exc e) : M A).
Proof.
  intros st. exists []. cbn. rewrite app_nil_r. split; [done|]. split; [done|].
  split; [done|]. intros r [= <-]. by exists e.
Qed.

Lemma tame_bind {A B} (m : M A) (k : A -> M B) :
  tame m -> (forall a, tame (k a)) -> tame (bind m k).
Proof.
  intros Hm Hk st. unfold bind.
  destruct (Hm st) as (evs & Ht & Hp & Hret & Hr).
  destruct (m st) as [[a|r] st1]; cbn [fst snd] in *.
  - destruct (Hk a st1) as (evs' & Ht' & Hp' & Hret' & Hr').
    exists (evs ++ evs'). rewrite Ht', Ht, app_assoc. split; [done|].
    split; [by apply errors_logged_app; [apply (Hret a)|]|].
    split; [|done]. intros b Hb. apply errors_logged_app; [by apply (Hret a)|by apply (Hret' b)].
  - exists evs. split; [done|]. split; [done|]. split; [done|].
    intros r' [= <-]. by apply Hr.
Qed.

Lemma total_bind {A B} (m : M A) (k : A -> M B) :
  total m -> (forall a, total (k a)) -> total (bind m k).
Proof.
  intros Hm Hk st. unfold bind.
  destruct (Hm st) as (evs & a & Ht & Hn & Hr).
  destruct (m st) as [[a'|r] st1]; cbn [fst snd] in *; [|done].
  destruct (Hk a' st1) as (evs' & b & Ht' & Hn' & Hr').
  exists (evs ++ evs'), b. rewrite Ht', Ht, app_assoc. split; [done|].
  split; [|done]. by apply errors_logged_app.
Qed.

Lemma guarded_bind {A B} (m : M A) (k : A -> M B) :
  guarded m -> (forall a, guarded (k a)) -> guarded (bind m k).
Proof.
  intros Hm Hk st. unfold bind.
  destruct (Hm st) as (evs & Ht & Hcase).
  destruct (m st) as [[a|r] st1]; cbn [fst snd] in *.
  - destruct Hcase as [[_ Hn]|[[e He] _]]; [|done].
    destruct (Hk a st1) as (evs' & Ht' & Hcase').
    exists (evs ++ evs'). rewrite Ht', Ht, app_assoc. split; [done|].
    destruct Hcase' as [[Ha Hn']|[He Hn']]; [left|right].
    + split; [done|]. by apply errors_logged_app.
    + split; [done|]. rewrite no_failed_makedirs_app, Hn'. apply andb_false_r.
  - destruct Hcase as [[[a Ha] _]|[[e [= ->]] Hn]]; [done|].
    exists evs. split; [done|]. right. split; [by exists e|done].
Qed.

Lemma logging_handler_intro {A} (f : py_exc -> string) (a : A) :
  logging_handler (fun e => bind (log ERROR (f e)) (fun _ => ret a)).
Proof. intros e st. by exists (f e), [], a. Qed.

(** A [try] whose body is tame and whose handler logs the error and
    returns, always returns, every failure logged. *)
Lemma total_try {A} (m : M A) (h : py_exc -> M A) :
  tame m -> logging_handler h -> total (try_except m h).
Proof.
  intros Hm Hh st. unfold try_except.
  destruct (Hm st) as (evs & Ht & Hp & Hret & Hr).
  destruct (m st) as [[a|r] st1]; cbn [fst snd] in *.
  - exists evs, a. split; [done|]. split; [by apply (Hret a)|done].
  - destruct (Hr r eq_refl) as [e ->].
    destruct (Hh e st1) as (msg & evs' & a & Ht' & Hn' & Hr').
    exists (evs ++ ELog ERROR msg :: evs'), a. rewrite Ht', Ht, app_assoc. split; [done|].
    split; [|done]. by apply errors_logged_handler.
Qed.

End Failures.

Ltac tame_steps :=
  repeat first
    [ apply tame_bind; [|intros ?]
    | apply total_tame; apply total_log
    | apply total_tame; apply total_ret
    | apply total_tame; apply total_observe
    | match goal with
      | |- tame (ext ?c) => exact (tame_ext c)
      end
    | apply tame_raise
    | match goal with
      | |- tame (if ?b then _ else _) => destruct b
      | |- tame (match ?x with _ => _ end) => destruct x
      end ].

Ltac total_steps :=
  repeat first
    [ apply total_bind; [|intros ?]
    | apply total_log
    | apply total_ret
    | apply total_observe
    | match goal with
      | |- total (if ?b then _ else _) => destruct b
      | |- total (match ?x with _ => _ end) => destruct x
      end ].

Section Methods.

Context {P : Platform}.

(** Clone and fetch failures are logged; the method returns. *)
Lemma clone_repository_total (self : updater) (repo_url : string) (b : option string) :
  total (clone_repository self (Some repo_url) b).
Proof.
  unfold clone_repository. apply total_try; [tame_steps|apply logging_handler_intro].
Qed.

(** A missing descriptor is logged as a warning, an unreadable one as an
    error; the method returns. *)
Lemma detect_java_version_total (self : updater) (repo_path : string) :
  total (detect_java_version self repo_path).
Proof.
  unfold detect_java_version. apply total_bind; [apply total_observe|intros existing].
  destruct (negb existing); [total_steps|].
  apply total_try; [tame_steps|apply logging_handler_intro].
Qed.

Lemma get_docker_image_total (self : updater) (java_version : string) :
  total (get_docker_image_for_java_version self java_version).
Proof.
  intros st.
  destruct (get_docker_image_returns self java_version st)
    as (image & st' & Heq & _ & _ & logs & Ht & Hlogs).
  exists logs, image. rewrite Heq. split; [done|]. split; [|done].
  clear Ht. induction Hlogs as [|ev logs (lvl & msg & ->) _ IH]; [done|]. exact IH.
Qed.

(** An error while writing the file is logged and answered with [False];
    only a failed creation of the directory leaves the method. *)
Lemma update_circleci_config_guarded (self : updater) (repo_path java_version : string) :
  guarded (update_circleci_config self repo_path java_version).
Proof.
  unfold update_circleci_config. apply guarded_bind; [apply guarded_makedirs|intros _].
  apply total_guarded. apply total_bind; [apply get_docker_image_total|intros image].
  apply total_try; [tame_steps|apply logging_handler_intro].
Qed.

(** Commit and push failures are logged; the method returns. *)
Lemma commit_and_push_changes_total (self : updater) (repo_path java_version : string) :
  total (commit_and_push_changes self repo_path java_version).
Proof.
  unfold commit_and_push_changes. apply total_try; [tame_steps|apply logging_handler_intro].
Qed.

(** One turn of the loop, for an entry that has a URL: it opens with the
    "Processing repository" line and comes to its end, every failure
    logged, unless the creation of the configuration directory raised. *)
Lemma process_repository_events (self : updater) (repo : repository) (st : state) :
  url repo <> None ->
  exists evs,
    trace (snd (process_repository self repo st))
    = trace st ++ ELog INFO (processing_message repo) :: evs
    /\ (fst (process_repository self repo st) = Ret tt /\ errors_logged false evs = true
        \/ (exists e, fst (process_repository self repo st) = Raise (Exc e))
           /\ no_failed_makedirs evs = false).
Proof.
  intros Hurl. destruct repo as [[u|] b]; [clear Hurl|done].
  assert (Hrest : guarded
    (bind (clone_repository self (Some u) b) (fun repo_path =>
       match truthy repo_path with
       | None => log ERROR ("Skipping " +:+ fmt (Some u) +:+ " due to clone error")
       | Some repo_path =>
           bind (detect_java_version self repo_path) (fun java_version =>
             match truthy java_version with
             | None =>
                 log WARNING ("Skipping " +:+ fmt (Some u) +:+ " due to missing Java version")
             | Some java_version =>
                 bind (update_circleci_config self repo_path java_version) (fun updated =>
                   if updated : bool
                   then bind (commit_and_push_changes self repo_path java_version)
                          (fun _ => ret tt)
                   else ret tt)
             end)
       end))).
  { apply guarded_bind; [apply total_guarded, clone_repository_total|intros repo_path].
    destruct (truthy repo_path) as [path|]; [|apply total_guarded, total_log].
    apply guarded_bind; [apply total_guarded, detect_java_version_total|intros version].
    destruct (truthy version) as [v|]; [|apply total_guarded, total_log].
    apply guarded_bind; [apply update_circleci_config_guarded|intros updated].
    apply total_guarded. destruct updated; [|apply total_ret].
    apply total_bind; [apply commit_and_push_changes_total|intros _; apply total_ret]. }
  match type of Hrest with
  | guarded ?rest =>
      change (process_repository self (Repository (Some u) b) st)
        with (rest (emit (ELog INFO (processing_message (Repository (Some u) b))) st))
  end.
  destruct (Hrest (emit (ELog INFO (processing_message (Repository (Some u) b))) st))
    as (evs & Ht & Hcase).
  exists evs. split.
  - rewrite Ht. unfold emit. cbn [trace]. by rewrite <- app_assoc.
  - destruct Hcase as [[[[] Ha] Hn]|[He Hn]]; [left|right]; done.
Qed.

(** The loop: unless a creation of a configuration directory raised, it
    takes up every entry, logs every failure and returns. *)
Lemma for_each_repository (self : updater) (repos : list repository) (st : state) :
  Forall (fun repo => url repo <> None) repos ->
  exists evs,
    trace (snd (for_each repos (process_repository self) st)) = trace st ++ evs
    /\ (no_failed_makedirs evs = true ->
        fst (for_each repos (process_repository self) st) = Ret tt
        /\ attempted repos evs
        /\ errors_logged false evs = true).
Proof.
  intros Hurls. revert st. induction Hurls as [|repo repos Hurl _ IH]; intros st.
  - exists []. cbn. rewrite app_nil_r. split; [done|]. intros _.
    split; [done|]. split; [constructor|done].
  - cbn [for_each]. unfold bind.
    destruct (process_repository_events self repo st Hurl) as (evs & Ht & Hcase).
    destruct (process_repository self repo st) as [[[]|r] st1]; cbn [fst snd] in *.
    + destruct Hcase as [[_ Hn]|[[e He] _]]; [|done].
      destruct (IH st1) as (evs' & Ht' & Hloop).
      exists (ELog INFO (processing_message repo) :: evs ++ evs').
      split; [rewrite Ht', Ht, <- app_assoc; done|].
      change (no_failed_makedirs (ELog INFO (processing_message repo) :: evs ++ evs'))
        with (no_failed_makedirs (evs ++ evs')).
      rewrite no_failed_makedirs_app. intros [_ Hn']%andb_true_iff.
      destruct (Hloop Hn') as (Hret & Hatt & Hlog). split; [done|].
      split; [by constructor|]. cbn [errors_logged]. by apply errors_logged_app.
    + destruct Hcase as [[Hret _]|[_ Hn]]; [done|].
      exists (ELog INFO (processing_message repo) :: evs). split; [done|].
      change (no_failed_makedirs (ELog INFO (processing_message repo) :: evs))
        with (no_failed_makedirs evs).
      rewrite Hn. done.
Qed.

(** [read_repositories] leaves only by returning or by [sys.exit(1)]. *)
Lemma read_repositories_exit (self : updater) (st : state) (r : raised) (st' : state) :
  read_repositories self st = (Raise r, st') -> r = SystemExit 1.
Proof.
  unfold read_repositories, try_except.
  match goal with |- context [bind ?m ?k st] => set (body := bind m k) end.
  assert (Hbody : forall r0, fst (body st) = Raise r0 ->
                             (exists e, r0 = Exc e) \/ r0 = SystemExit 1).
  { subst body. destruct (decide (Str.lower (path_suffix (repo_file self)) = ".csv")).
    - intros r0 Hr0. left.
      match type of Hr0 with
      | fst (?m st) = _ => assert (Ht : tame m)
      end.
      { apply tame_bind; [|intros repos; tame_steps].
        apply tame_bind; [apply tame_ext|intros rows].
        induction rows as [|row rows IH]; cbn [map_m]; [tame_steps|].
        apply tame_bind; [|intros repo; apply tame_bind; [exact IH|intros; tame_steps]].
        unfold row_get. tame_steps. }
      destruct (Ht st) as (evs & _ & _ & _ & Hexc). by apply Hexc.
    - intros r0. unfold bind, log, sys_exit, raise. cbn. intros [= <-]. by right. }
  destruct (body st) as [[repos|r0] st1]; [done|].
  destruct (Hbody r0 eq_refl) as [[e ->]| ->].
  - unfold bind, log, sys_exit, raise. cbn. by intros [= <- _].
  - by intros [= <- _].
Qed.

End Methods.

Section Rows.

Context {P : Platform}.

Lemma bind_run {A B} (m : M A) (k : A -> M B) (st : state) :
  bind m k st = match m st with
                | (Ret a, st') => k a st'
                | (Raise r, st') => (Raise r, st')
                end.
Proof. done. Qed.

Lemma row_entry_run (r : row) (st : state) :
  match row_entry r with
  | Some repo =>
      bind (row_get r "repository_url") (fun u =>
      bind (row_get r "branch") (fun b => ret (Repository u b))) st
      = (Ret repo, st)
  | None =>
      exists e,
      bind (row_get r "repository_url") (fun u =>
      bind (row_get r "branch") (fun b => ret (Repository u b))) st
      = (Raise (Exc e), st)
  end.
Proof.
  unfold row_entry, bind, row_get, ret, raise.
  destruct (r !! "repository_url") as [u|]; [|by eexists].
  destruct (r !! "branch") as [b|]; [done|by eexists].
Qed.

Lemma map_m_rows (rows : list row) (st : state) :
  match mapM row_entry rows with
  | Some repos =>
      map_m (fun r : row =>
               bind (row_get r "repository_url") (fun u =>
               bind (row_get r "branch") (fun b => ret (Repository u b)))) rows st
      = (Ret repos, st)
  | None =>
      exists e,
      map_m (fun r : row =>
               bind (row_get r "repository_url") (fun u =>
               bind (row_get r "branch") (fun b => ret (Repository u b)))) rows st
      = (Raise (Exc e), st)
  end.
Proof.
  induction rows as [|r rows IH]; [done|].
  pose proof (row_entry_run r st) as Hr.
  cbn [map_m]. cbn [mapM].
  destruct (row_entry r) as [repo|]; cbn [mbind option_bind].
  - rewrite bind_run, Hr.
    destruct (mapM row_entry rows) as [repos|]; cbn [mbind option_bind mret option_ret].
    + by rewrite bind_run, IH.
    + destruct IH as [e IH]. exists e. by rewrite bind_run, IH.
  - destruct Hr as [e Hr]. exists e. by rewrite bind_run, Hr.
Qed.

End Rows.

Section Loading.

Context {P : Platform}.

(** [__init__] returns once the workspace is there and the template is
    read. *)
Lemma init_returns (a : arguments) (st : state) (w1 : World) (template : string)
    (w2 : World) :
  perform (MakeDirs (arg_workspace a)) (world st) = (inr tt, w1) ->
  perform (ReadText (arg_master_config a)) w1 = (inr template, w2) ->
  exists self st1,
    init a st = (Ret self, st1) /\ repo_file self = arg_repo_file a /\ world st1 = w2.
Proof.
  intros Hmk Hrd.
  unfold init, load_master_config_template, try_except, bind, ext, log, ret, observe,
    sys_exit, raise, emit.
  destruct (truthy (arg_token a)) as [t|]; cbn [truthy].
  - destruct t as [|c t]; cbn [truthy world]; rewrite Hmk; cbn [world]; rewrite Hrd;
      eexists _, _; (split; [reflexivity|]); by split.
  - destruct (truthy (environ_get "GITHUB_TOKEN" (world st))) as [t|];
      cbn [world]; rewrite Hmk; cbn [world]; rewrite Hrd;
      eexists _, _; (split; [reflexivity|]); by split.
Qed.

(** A list that cannot be opened or parsed ends the run. *)
Lemma read_repositories_unreadable (self : updater) (st : state) (e : py_exc) (w' : World) :
  Str.lower (path_suffix (repo_file self)) = ".csv" ->
  perform (ReadCsv (repo_file self)) (world st) = (inl e, w') ->
  fst (read_repositories self st) = Raise (SystemExit 1).
Proof.
  intros Hext Hread. unfold read_repositories, try_except. rewrite Hext.
  destruct (decide (".csv" = ".csv")) as [_|]; [|done].
  rewrite !bind_run. unfold ext. by rewrite Hread.
Qed.

(** So does a row without one of the two columns. *)
Lemma read_repositories_short_row (self : updater) (st : state) (rows : list row)
    (w' : World) :
  Str.lower (path_suffix (repo_file self)) = ".csv" ->
  perform (ReadCsv (repo_file self)) (world st) = (inr rows, w') ->
  mapM row_entry rows = None ->
  fst (read_repositories self st) = Raise (SystemExit 1).
Proof.
  intros Hext Hread Hrows. unfold read_repositories, try_except. rewrite Hext.
  destruct (decide (".csv" = ".csv")) as [_|]; [|done].
  rewrite !bind_run. unfold ext. rewrite Hread.
  pose proof (map_m_rows rows (State w' (trace st ++ [ECall (ReadCsv (repo_file self)) true])))
    as Hm.
  rewrite Hrows in Hm. by destruct Hm as [e' ->].
Qed.

End Loading.

(** C3, as the code has it.  The process ends with status 1 when
    [os.makedirs] of the workspace raises, when the workspace is there and
    reading the template raises, and when both have returned and the list
    cannot be loaded: its extension is not [.csv], reading it raises, or a
    row lacks one of the two columns.  Once [__init__] and the loading of
    the list have returned, and for a list whose rows all have a URL, a run
    in which no creation of a configuration directory raises ends with
    status 0 after taking up every entry in order: clone and fetch
    failures, a missing descriptor, an error writing the configuration,
    commit and push failures are logged and passed. *)
Theorem run_exit_status :
  forall (P : Platform) (a : arguments) (st : state),
    (forall e w1,
        perform (MakeDirs (arg_workspace a)) (world st) = (inl e, w1) ->
        exit_status (fst (main a st)) = 1%Z)
    /\ (forall w1 e w2,
        perform (MakeDirs (arg_workspace a)) (world st) = (inr tt, w1) ->
        perform (ReadText (arg_master_config a)) w1 = (inl e, w2) ->
        exit_status (fst (main a st)) = 1%Z)
    /\ (forall w1 (template : string) w2,
        perform (MakeDirs (arg_workspace a)) (world st) = (inr tt, w1) ->
        perform (ReadText (arg_master_config a)) w1 = (inr template, w2) ->
        Str.lower (path_suffix (arg_repo_file a)) <> ".csv"
        \/ (exists e w3, perform (ReadCsv (arg_repo_file a)) w2 = (inl e, w3))
        \/ (exists (rows : list row) w3,
               perform (ReadCsv (arg_repo_file a)) w2 = (inr rows, w3)
               /\ mapM row_entry rows = None) ->
        exit_status (fst (main a st)) = 1%Z)
    /\ (forall self st1 repos st2,
        init a st = (Ret self, st1) ->
        read_repositories self st1 = (Ret repos, st2) ->
        forallb has_url repos = true ->
        no_failed_makedirs (new_events st2 (snd (main a st))) = true ->
        exit_status (fst (main a st)) = 0%Z
        /\ attempted repos (new_events st2 (snd (main a st)))
        /\ errors_logged false (new_events st2 (snd (main a st))) = true).
Proof.
  intros P a st. split; [|split; [|split]].
  - intros e w1 Hmk.
    unfold main, init, bind, ext, log, ret, observe, emit.
    destruct (truthy (arg_token a)) as [t|]; cbn [truthy].
    + destruct t as [|c t]; cbn [truthy world]; by rewrite Hmk.
    + destruct (truthy (environ_get "GITHUB_TOKEN" (world st))) as [t|];
        cbn [world]; by rewrite Hmk.
  - intros w1 e w2 Hmk Hrd.
    unfold main, init, load_master_config_template, try_except, bind, ext, log, ret,
      observe, sys_exit, raise, emit.
    destruct (truthy (arg_token a)) as [t|]; cbn [truthy].
    + destruct t as [|c t]; cbn [truthy world]; rewrite Hmk; cbn [world]; by rewrite Hrd.
    + destruct (truthy (environ_get "GITHUB_TOKEN" (world st))) as [t|];
        cbn [world]; rewrite Hmk; cbn [world]; by rewrite Hrd.
  - intros w1 template w2 Hmk Hrd Hlist.
    destruct (init_returns a st w1 template w2 Hmk Hrd) as (self & st1 & Hinit & Hfile & Hw).
    assert (Hexit : fst (read_repositories self st1) = Raise (SystemExit 1)).
    { rewrite <- Hfile, <- Hw in Hlist.
      destruct (decide (Str.lower (path_suffix (repo_file self)) = ".csv")) as [Hext|Hext].
      - destruct Hlist as [Hno|[(e & w3 & Hread)|(rows & w3 & Hread & Hrows)]]; [done| |].
        + by apply (read_repositories_unreadable self st1 e w3).
        + by apply (read_repositories_short_row self st1 rows w3).
      - by rewrite (read_repositories_unsupported self st1 Hext). }
    unfold main, process_repositories. rewrite bind_run, Hinit, bind_run.
    destruct (read_repositories self st1) as [[repos|r] st2]; cbn [fst] in Hexit; [done|].
    by injection Hexit as ->.
  - intros self st1 repos st2 Hinit Hread Hurls.
    unfold main, process_repositories, bind. rewrite Hinit, Hread.
    assert (Hall : Forall (fun repo => url repo <> None) repos).
    { apply Forall_forall. intros repo Hin. apply list_elem_of_In in Hin.
      apply (proj1 (forallb_forall _ _) Hurls) in Hin.
      unfold has_url in Hin. by destruct (url repo). }
    destruct (for_each_repository self repos st2 Hall) as (evs & Ht & Hloop).
    rewrite (new_events_of_trace _ _ _ Ht). intros Hn.
    destruct (Hloop Hn) as (-> & Hatt & Hlog). done.
Qed.

Lemma run_exit_status_witness :
  exit_status (fst (main (Examples.command_line "absent.csv")
                      (Sim.start Examples.two_entries))) = 1%Z
  /\ exit_status (fst (main (Examples.command_line "repos.csv")
                         (Sim.start Examples.two_entries))) = 0%Z
  /\ exists evs,
       attempted [Repository (Some Examples.lib_url) (Some "dev");
                  Repository (Some Examples.app_url) (Some "main")] evs
       /\ calls evs
          = [GitCloneFrom Examples.lib_url "./workspace/lib" (Some "dev");
             GitCloneFrom Examples.app_url "./workspace/app" (Some "main");
             ReadText "./workspace/app/build.gradle";
             MakeDirs "./workspace/app/.circleci";
             WriteText "./workspace/app/.circleci/config.yml"
               "image: circleci/openjdk:17-buster-node-browsers-legacy";
             GitRepo "./workspace/app"; GitIsDirty "./workspace/app"].
Proof.
  pose (st := Sim.start Examples.two_entries).
  split.
  { pose (w1 := snd (Sim.run (MakeDirs "./workspace") Examples.two_entries)).
    pose (w2 := snd (Sim.run (ReadText "template.yml") w1)).
    apply (proj1 (proj2 (proj2 (run_exit_status Sim.platform
                                  (Examples.command_line "absent.csv") st)))
             w1 "image: {{JAVA_DOCKER_IMAGE}}" w2).
    - vm_compute. reflexivity.
    - vm_compute. reflexivity.
    - right. left.
      exists (match fst (Sim.run (ReadCsv "absent.csv") w2) with
              | inl e => e
              | inr _ => PyExc OtherError EmptyString
              end), (snd (Sim.run (ReadCsv "absent.csv") w2)).
      vm_compute. reflexivity. }
  pose (a := Examples.command_line "repos.csv").
  pose (self := Updater "repos.csv" "./workspace" "template.yml" ∅ None
                  "image: {{JAVA_DOCKER_IMAGE}}").
  pose (repos := [Repository (Some Examples.lib_url) (Some "dev");
                  Repository (Some Examples.app_url) (Some "main")]).
  assert (H := proj2 (proj2 (proj2 (run_exit_status Sim.platform a st)))
                 self (snd (init a st)) repos (snd (read_repositories self (snd (init a st))))).
  assert (H1 : init a st = (Ret self, snd (init a st))) by (vm_compute; reflexivity).
  assert (H2 : read_repositories self (snd (init a st))
               = (Ret repos, snd (read_repositories self (snd (init a st)))))
    by (vm_compute; reflexivity).
  assert (H3 : forallb has_url repos = true) by reflexivity.
  assert (H4 : no_failed_makedirs
                 (new_events (snd (read_repositories self (snd (init a st))))
                    (snd (main a st))) = true) by (vm_compute; reflexivity).
  destruct (H H1 H2 H3 H4) as (Hexit & Hatt & _).
  split; [exact Hexit|].
  exists (new_events (snd (read_repositories self (snd (init a st)))) (snd (main a st))).
  split; [exact Hatt|]. vm_compute; reflexivity.
Defined.

(** C3 as stated fails: the list and the template can both be loaded, and
    the process still ends with status 1, because the workspace directory
    cannot be created. *)
Lemma workspace_failure_is_fatal :
  returned (fst (Sim.run (ReadCsv "repos.csv") Examples.blocked_workspace)) = true
  /\ returned (fst (Sim.run (ReadText "template.yml") Examples.blocked_workspace)) = true
  /\ Str.lower (path_suffix "repos.csv") = ".csv"
  /\ exit_status (fst (main (Examples.command_line "repos.csv")
                         (Sim.start Examples.blocked_workspace))) = 1%Z
  /\ calls (trace (snd (main (Examples.command_line "repos.csv")
                          (Sim.start Examples.blocked_workspace))))
     = [MakeDirs "./workspace"].
Proof. repeat split; vm_compute; reflexivity. Qed.

(** The creation of the configuration directory stands outside the [try]
    of [update_circleci_config]: when it raises, the exception ends the
    run, and the entries that follow are not taken up. *)
Lemma config_dir_failure_ends_run :
  exit_status (fst (main (Examples.command_line "repos.csv")
                      (Sim.start Examples.circleci_is_a_file))) = 1%Z
  /\ calls (trace (snd (main (Examples.command_line "repos.csv")
                          (Sim.start Examples.circleci_is_a_file))))
     = [MakeDirs "./workspace"; ReadText "template.yml"; ReadCsv "repos.csv";
        GitCloneFrom Examples.lib_url "./workspace/lib" (Some "main");
        ReadText "./workspace/lib/build.gradle";
        MakeDirs "./workspace/lib/.circleci"]
  /\ last (trace (snd (main (Examples.command_line "repos.csv")
                          (Sim.start Examples.circleci_is_a_file))))
     = Some (ECall (MakeDirs "./workspace/lib/.circleci") false).
Proof. repeat split; vm_compute; reflexivity. Qed.

(** * Further properties *)

(** ** Splitting and the name of the checkout *)

Lemma split_without_sep (sep : ascii) (s : string) :
  has_char sep s = false -> Str.split sep s = [s].
Proof.
  induction s as [|c s IH]; [done|]. cbn [has_char Str.split].
  intros [Hc Hs]%orb_false_iff. rewrite Hc, (IH Hs). done.
Qed.

(** What follows the last separator is the last piece. *)
Lemma split_app_sep (sep : ascii) (p seg : string) :
  has_char sep seg = false ->
  exists l, Str.split sep (p +:+ String sep seg) = l ++ [seg] /\ l <> [].
Proof.
  intros Hseg. induction p as [|c p (l & IH & Hl)].
  - rewrite app_empty_l. cbn [Str.split]. rewrite Ascii.eqb_refl, (split_without_sep _ _ Hseg).
    by exists [EmptyString].
  - rewrite app_cons. cbn [Str.split]. rewrite IH. destruct (Ascii.eqb c sep).
    + by exists (EmptyString :: l).
    + destruct l as [|x l]; [done|]. by exists (String c x :: l).
Qed.

Lemma last_of_split_app (sep : ascii) (p seg : string) :
  has_char sep seg = false ->
  Str.last (Str.split sep (p +:+ String sep seg)) = seg.
Proof.
  intros Hseg. destruct (split_app_sep sep p seg Hseg) as (l & -> & _).
  unfold Str.last. by rewrite List.last_last.
Qed.

Lemma split_nonempty (sep : ascii) (s : string) : Str.split sep s <> [].
Proof.
  destruct s as [|c s]; [done|]. cbn [Str.split].
  destruct (Ascii.eqb c sep); [done|]. by destruct (Str.split sep s).
Qed.

(** The last piece holds no separator. *)
Lemma last_of_split_has_no_sep (sep : ascii) (s : string) :
  has_char sep (Str.last (Str.split sep s)) = false.
Proof.
  induction s as [|c s IH]; [done|]. cbn [Str.split].
  destruct (Ascii.eqb c sep) eqn:Hc.
  - pose proof (split_nonempty sep s) as Hne.
    destruct (Str.split sep s) as [|x l]; [done|]. exact IH.
  - destruct (Str.split sep s) as [|x [|y l]] eqn:Hs.
    + cbn. by rewrite Hc.
    + unfold Str.last in *. cbn in *. by rewrite Hc, IH.
    + exact IH.
Qed.

(** Replacing leaves out characters that neither the text nor the new
    string has. *)
Lemma replace_from_has_char (c : ascii) (old new s : string) (k : nat) :
  has_char c new = false ->
  has_char c s = false ->
  has_char c (Str.replace_from old new k s) = false.
Proof.
  intros Hnew. revert k. induction s as [|a s IH]; intros k Hs; [done|].
  cbn [has_char] in Hs. apply orb_false_iff in Hs as [Ha Hs].
  cbn [Str.replace_from]. destruct k as [|k]; [|by apply IH].
  destruct (Str.startswith (String a s) old).
  - assert (Happ : forall x y, has_char c x = false -> has_char c y = false ->
                               has_char c (x +:+ y) = false).
    { intros x y Hx Hy. induction x as [|b x IHx]; [done|].
      rewrite app_cons. cbn [has_char] in *. apply orb_false_iff in Hx as [-> Hx].
      by apply IHx. }
    apply Happ; [done|by apply IH].
  - cbn [has_char]. rewrite Ha. by apply IH.
Qed.

(** X1.  The name of a checkout never holds a slash; it depends on the
    last segment of the URL alone: two URLs that differ only before their
    last slash get the same name; and it can be [..]: that is the name for
    every URL that ends with [/..]. *)
Theorem repo_name_from_last_segment :
  forall (repo_url : string),
    has_char "/" (repo_name_of repo_url) = false
    /\ (forall (owner1 owner2 segment : string),
          has_char "/" segment = false ->
          repo_name_of (owner1 +:+ "/" +:+ segment)
          = repo_name_of (owner2 +:+ "/" +:+ segment))
    /\ (forall (prefix : string), repo_name_of (prefix +:+ "/..") = "..").
Proof.
  intros repo_url. split; [|split].
  - unfold repo_name_of, Str.replace. apply replace_from_has_char; [done|].
    apply last_of_split_has_no_sep.
  - intros owner1 owner2 segment Hseg. unfold repo_name_of.
    change ("/" +:+ segment) with (String "/" segment).
    by rewrite !last_of_split_app.
  - intros prefix. unfold repo_name_of.
    by rewrite (last_of_split_app "/" prefix ".." eq_refl).
Qed.

Lemma repo_name_from_last_segment_witness :
  repo_name_of ("https://github.com/acme" +:+ "/" +:+ "app.git")
  = repo_name_of ("https://gitlab.com/other" +:+ "/" +:+ "app.git").
Proof.
  apply (proj1 (proj2 (repo_name_from_last_segment "https://github.com/acme/app.git"))).
  vm_compute. reflexivity.
Defined.

(** X2.  A URL that ends with a slash has an empty last segment: the name
    of the checkout is empty. *)
Theorem repo_name_of_trailing_slash (prefix : string) :
  repo_name_of (prefix +:+ "/") = EmptyString.
Proof.
  unfold repo_name_of.
  by rewrite (last_of_split_app "/" prefix EmptyString eq_refl).
Qed.

(** ** Rendering *)

Lemma replace_from_skip (old new x s : string) :
  Str.replace_from old new (String.length x) (x +:+ s) = Str.replace_from old new 0 s.
Proof. induction x as [|c x IH]; [done|]. rewrite app_cons. exact IH. Qed.

(** At an occurrence, the new string is put and the occurrence skipped. *)
Lemma replace_from_here (old new post : string) :
  old <> EmptyString ->
  Str.replace_from old new 0 (old +:+ post) = new +:+ Str.replace_from old new 0 post.
Proof.
  intros Hold. destruct old as [|a old]; [done|].
  rewrite app_cons. cbn [Str.replace_from]. unfold Str.startswith.
  rewrite <- app_cons, strip_prefix_app. f_equal.
  replace (String.length (String a old) - 1) with (String.length old)
    by (cbn [String.length]; lia).
  apply replace_from_skip.
Qed.

Lemma replace_from_before (old new pre rest : string) :
  free_before old pre rest = true ->
  Str.replace_from old new 0 (pre +:+ rest) = pre +:+ Str.replace_from old new 0 rest.
Proof.
  induction pre as [|c pre IH]; [done|]. cbn [free_before].
  intros [Hc Hpre]%andb_true_iff. apply negb_true_iff in Hc.
  rewrite !app_cons in *. cbn [Str.replace_from]. rewrite Hc. f_equal. by apply IH.
Qed.

(** X3.  The first placeholder of a template is replaced by the image, the
    text before it is kept, and the text after it is rendered in the same
    way: every placeholder is replaced, from left to right. *)
Theorem render_first_placeholder (pre post image : string) :
  free_before placeholder pre (placeholder +:+ post) = true ->
  config_content (pre +:+ placeholder +:+ post) image
  = pre +:+ image +:+ config_content post image.
Proof.
  intros Hpre. unfold config_content, Str.replace. cbn [placeholder].
  rewrite (replace_from_before _ _ _ _ Hpre).
  by rewrite replace_from_here.
Qed.

Lemma render_first_placeholder_witness :
  config_content ("image: " +:+ placeholder +:+ " # and {{JAVA_DOCKER_IMAGE}} again")
    docker_image_17
  = "image: " +:+ docker_image_17
    +:+ " # and circleci/openjdk:17-buster-node-browsers-legacy again".
Proof.
  rewrite (render_first_placeholder "image: " " # and {{JAVA_DOCKER_IMAGE}} again"
             docker_image_17); [|vm_compute; reflexivity].
  vm_compute. reflexivity.
Defined.

(** A text without the first character of [new] that begins the rendered
    text begins the text itself. *)
Lemma prefix_of_replaced (old new s x : string) (n0 : ascii) (new' : string) :
  new = String n0 new' ->
  has_char n0 x = false ->
  Str.startswith (Str.replace_from old new 0 s) x = true ->
  Str.startswith s x = true.
Proof.
  intros -> Hx. revert x Hx. induction s as [|c s IH]; intros x Hx.
  - done.
  - destruct x as [|a x]; [done|]. cbn [has_char] in Hx.
    apply orb_false_iff in Hx as [Ha Hx].
    cbn [Str.replace_from]. destruct (Str.startswith (String c s) old).
    + rewrite app_cons. unfold Str.startswith. cbn [Str.strip_prefix]. by rewrite Ha.
    + unfold Str.startswith in *. cbn [Str.strip_prefix].
      destruct (Ascii.eqb a c); [|done]. by apply IH.
Qed.

Lemma contains_cons (old s : string) (c : ascii) :
  contains old (String c s) = Str.startswith (String c s) old || contains old s.
Proof. done. Qed.

(** No occurrence of [old] starts within a text whose characters [old]
    does not have. *)
Lemma contains_after_apart (old new r : string) :
  old <> EmptyString ->
  chars_apart new old = true ->
  contains old (new +:+ r) = contains old r.
Proof.
  intros Hold. induction new as [|c new IH]; [done|].
  unfold chars_apart. cbn [Str.forallb]. intros [Hc Hnew]%andb_true_iff.
  rewrite app_cons, contains_cons, (IH Hnew).
  destruct old as [|a old]; [done|]. unfold Str.startswith. cbn [Str.strip_prefix].
  apply negb_true_iff in Hc. cbn [has_char] in Hc. apply orb_false_iff in Hc as [Hc _].
  by rewrite Hc.
Qed.

Lemma has_char_of_apart (new old : string) (n0 : ascii) (new' : string) :
  new = String n0 new' -> chars_apart new old = true -> has_char n0 old = false.
Proof.
  intros ->. unfold chars_apart. cbn [Str.forallb].
  intros [Hc _]%andb_true_iff. by apply negb_true_iff in Hc.
Qed.

Lemma has_char_tail (c a : ascii) (s : string) :
  has_char c (String a s) = false -> has_char c s = false.
Proof. cbn [has_char]. by intros [_ H]%orb_false_iff. Qed.

(** Where the new string is not empty and shares no character with the old
    one, the old string does not occur in the result. *)
Lemma replace_from_leaves_none (old new s : string) (k : nat) :
  old <> EmptyString -> new <> EmptyString -> chars_apart new old = true ->
  contains old (Str.replace_from old new k s) = false.
Proof.
  intros Hold Hnew Hapart. revert k. induction s as [|c s IH]; intros k.
  - destruct old; [done|]. by destruct k.
  - cbn [Str.replace_from]. destruct k as [|k]; [|by apply IH].
    destruct (Str.startswith (String c s) old) eqn:Hhere.
    + by rewrite contains_after_apart, IH.
    + rewrite contains_cons, IH, orb_false_r.
      destruct (Str.startswith (String c (Str.replace_from old new 0 s)) old) eqn:Hout; [|done].
      destruct new as [|n0 new'] eqn:En; [done|].
      destruct old as [|a old'] eqn:Eo; [done|].
      unfold Str.startswith in Hout, Hhere. cbn [Str.strip_prefix] in Hout, Hhere.
      destruct (Ascii.eqb a c); [|done].
      assert (Hpre : Str.startswith s old' = true).
      { apply (prefix_of_replaced (String a old') (String n0 new') s old' n0 new' eq_refl).
        - apply (has_char_tail n0 a old').
          by apply (has_char_of_apart (String n0 new') _ n0 new').
        - unfold Str.startswith. by destruct (Str.strip_prefix old' _). }
      unfold Str.startswith in Hpre. by destruct (Str.strip_prefix old' s).
Qed.

(** X4.  A template rendered with either image holds no placeholder, and
    rendering it once more changes nothing. *)
Theorem render_leaves_no_placeholder (template : string) :
  (~ Str.occurs placeholder (config_content template docker_image_17)
   /\ config_content (config_content template docker_image_17) docker_image_17
      = config_content template docker_image_17)
  /\ (~ Str.occurs placeholder (config_content template docker_image_13)
      /\ config_content (config_content template docker_image_13) docker_image_13
         = config_content template docker_image_13).
Proof.
  assert (H : forall image, image <> EmptyString -> chars_apart image placeholder = true ->
    ~ Str.occurs placeholder (config_content template image)
    /\ config_content (config_content template image) image = config_content template image).
  { intros image Hne Hap.
    assert (Hno : ~ Str.occurs placeholder (config_content template image)).
    { apply not_occurs_of_contains. unfold config_content, Str.replace. cbn [placeholder].
      by apply replace_from_leaves_none. }
    split; [done|]. unfold config_content at 1. unfold Str.replace. cbn [placeholder].
    by apply replace_from_absent. }
  split; apply H; done.
Qed.

(** ** The path of the configuration file *)

Lemma endswith_char_app (a b : string) (c : ascii) :
  b <> EmptyString -> Str.endswith_char (a +:+ b) c = Str.endswith_char b c.
Proof.
  intros Hb. induction a as [|x a IH]; [done|].
  rewrite app_cons. cbn [Str.endswith_char].
  destruct (a +:+ b) eqn:E; [|done].
  destruct a; [|done]. by rewrite app_empty_l in E.
Qed.

(** X5.  The file that [update_circleci_config] writes is the file that
    [commit_and_push_changes] stages: joining the checkout with [.circleci]
    and then with [config.yml] gives the checkout joined with
    [.circleci/config.yml], whatever the path of the checkout. *)
Theorem config_file_is_staged_file (repo_path : string) :
  config_file_of repo_path = os_path_join repo_path ".circleci/config.yml".
Proof.
  unfold config_file_of, os_path_join.
  change (Str.startswith ".circleci" "/") with false.
  change (Str.startswith "config.yml" "/") with false.
  change (Str.startswith ".circleci/config.yml" "/") with false. cbn match.
  destruct repo_path as [|c p]; [reflexivity|].
  destruct (Str.endswith_char (String c p) "/").
  - rewrite endswith_char_app by done. rewrite app_cons. cbn match.
    change (Str.endswith_char ".circleci" "/") with false. cbn match.
    rewrite <- app_cons, app_assoc_str. reflexivity.
  - rewrite app_cons. cbn match. rewrite <- app_cons.
    rewrite endswith_char_app by done.
    change (Str.endswith_char ("/" +:+ ".circleci") "/") with false. cbn match.
    rewrite !app_assoc_str. reflexivity.
Qed.

(** ** What the detector can return *)

Lemma star_splits_class (p : ascii -> bool) (s a b : string) :
  In (a, b) (star_splits p s) -> Str.forallb p a = true.
Proof.
  revert a b. induction s as [|c s IH]; intros a b; cbn [star_splits].
  - by intros [[= <- <-]|[]].
  - destruct (p c) eqn:Hc.
    + rewrite in_app_iff, in_map_iff. intros [([a' b'] & [= <- <-] & Hin)|[[= <- <-]|[]]]; [|done].
      cbn [Str.forallb]. rewrite Hc. by apply (IH a' b').
    + by intros [[= <- <-]|[]].
Qed.

Lemma keeps_lit (l : string) : keeps_group (Lit l).
Proof.
  intros s g t. cbn [rmatch]. destruct (Str.strip_prefix l s); [|done]. by intros [<-|[]].
Qed.

Lemma keeps_opt (p : ascii -> bool) : keeps_group (Opt p).
Proof.
  intros s g t. cbn [rmatch]. destruct s as [|c s]; [by intros [<-|[]]|].
  destruct (p c); [by intros [<-|[<-|[]]]|by intros [<-|[]]].
Qed.

Lemma keeps_star (p : ascii -> bool) : keeps_group (Star p).
Proof.
  intros s g t. cbn [rmatch]. rewrite in_map_iff. by intros ([a b] & <- & _).
Qed.

Lemma sets_group_plus (p : ascii -> bool) :
  sets_group (fun v => v <> EmptyString /\ Str.forallb p v = true) (Group (Plus p)).
Proof.
  intros s g t. cbn [rmatch]. rewrite in_map_iff. intros (t' & <- & Hin).
  cbn [group1]. eexists. split; [done|].
  destruct s as [|c s]; [done|]. destruct (p c) eqn:Hc; [|done].
  apply in_map_iff in Hin as ([a b] & <- & Hin). cbn [consumed]. split; [done|].
  cbn [Str.forallb]. rewrite Hc. by apply (star_splits_class p s a b).
Qed.

Lemma in_rmatch_seq (r1 r2 : regex) (s : string) (g : option string) (t : thread) :
  In t (rmatch (Seq r1 r2) s g) ->
  exists t1 t2, In t1 (rmatch r1 s g) /\ In t2 (rmatch r2 (rest t1) (group1 t1))
                /\ group1 t = group1 t2.
Proof.
  cbn [rmatch]. rewrite in_flat_map. intros (t1 & H1 & Hin).
  apply in_map_iff in Hin as (t2 & <- & H2). by exists t1, t2.
Qed.

Lemma sets_group_seq_r (Q : string -> Prop) (r1 r2 : regex) :
  sets_group Q r2 -> sets_group Q (Seq r1 r2).
Proof.
  intros H2 s g t Hin. apply in_rmatch_seq in Hin as (t1 & t2 & _ & Hin2 & ->).
  by apply (H2 _ _ _ Hin2).
Qed.

Lemma sets_group_seq_l (Q : string -> Prop) (r1 r2 : regex) :
  sets_group Q r1 -> keeps_group r2 -> sets_group Q (Seq r1 r2).
Proof.
  intros H1 H2 s g t Hin. apply in_rmatch_seq in Hin as (t1 & t2 & Hin1 & Hin2 & ->).
  rewrite (H2 _ _ _ Hin2). by apply (H1 _ _ _ Hin1).
Qed.

Lemma search_from_group (Q : string -> Prop) (r : regex) (s : string) (n : nat) m :
  sets_group Q r -> search_from r n s = Some m -> exists v, m_group1 m = Some v /\ Q v.
Proof.
  intros Hr. revert n. induction s as [|c s IH]; intros n; cbn [search_from].
  - destruct (rmatch r EmptyString None) as [|t ts] eqn:Hm; [done|].
    intros [= <-]. apply (Hr EmptyString None t). rewrite Hm. by left.
  - destruct (rmatch r (String c s) None) as [|t ts] eqn:Hm; [apply IH|].
    intros [= <-]. apply (Hr (String c s) None t). rewrite Hm. by left.
Qed.

Lemma source_compat_sets_digits : sets_group digits source_compat_pattern.
Proof.
  unfold source_compat_pattern. do 5 apply sets_group_seq_r.
  apply sets_group_seq_l; [apply sets_group_plus|apply keeps_opt].
Qed.

Lemma java_version_sets_digits : sets_group digits java_version_pattern.
Proof.
  unfold java_version_pattern. do 5 apply sets_group_seq_r. apply sets_group_plus.
Qed.

Lemma detect_returns_digits `{P : Platform} (self : updater) (repo_path : string)
    (st : state) (v : string) :
  fst (detect_java_version self repo_path st) = Ret (Some v) -> digits v.
Proof.
  unfold detect_java_version, bind, observe, try_except, ext, log, ret.
  destruct (path_exists _ (world st)); cbn [negb]; [|done].
  destruct (perform _ (world st)) as [[e|content] w']; [done|].
  destruct (search source_compat_pattern content) as [m|] eqn:Hs.
  - cbn [fst]. intros [= Hv].
    destruct (search_from_group digits _ _ _ _ source_compat_sets_digits Hs) as (v' & Hv' & Hd).
    congruence.
  - destruct (search java_version_pattern content) as [m|] eqn:Hj; [|done].
    cbn [fst]. intros [= Hv].
    destruct (search_from_group digits _ _ _ _ java_version_sets_digits Hj) as (v' & Hv' & Hd).
    congruence.
Qed.

(** X6.  Whatever the platform and the descriptor, a version that the
    detector returns is a text of decimal digits that is not empty; so a
    detected version always counts as present in [process_repositories]. *)
Theorem detected_version_is_digits :
  forall (P : Platform) (self : updater) (repo_path : string) (st : state) (v : string),
    fst (detect_java_version self repo_path st) = Ret (Some v) ->
    digits v /\ truthy (Some v) = Some v.
Proof.
  intros P self repo_path st v Hv.
  pose proof (detect_returns_digits self repo_path st v Hv) as Hd.
  split; [done|]. destruct Hd as [Hne _]. by destruct v.
Qed.

Lemma detected_version_is_digits_witness : digits "17".
Proof.
  apply (detected_version_is_digits Sim.platform Examples.self "./workspace/app"
           (Sim.start (Examples.checkout Examples.gradle_quoted_17)) "17").
  vm_compute. reflexivity.
Defined.

(** ** Versions that are digits *)

Lemma digit_char_facts (c : ascii) :
  is_digit c = true ->
  PyInt.is_ascii c = true /\ is_c_space c = false
  /\ Ascii.eqb c "_" = false /\ Ascii.eqb c "+" = false /\ Ascii.eqb c "-" = false.
Proof.
  destruct c as [[] [] [] [] [] [] [] []]; intros H; try discriminate H; repeat split.
Qed.

Lemma digits_are_ascii (s : string) :
  Str.forallb is_digit s = true -> Str.forallb PyInt.is_ascii s = true.
Proof.
  induction s as [|c s IH]; [done|]. cbn [Str.forallb].
  intros [Hc Hs]%andb_true_iff. destruct (digit_char_facts c Hc) as (-> & _). by apply IH.
Qed.

(** On digits, the digit loop reads to the end and computes the value. *)
Lemma scan_digits_all (s : string) (acc : Z) (n : nat) :
  Str.forallb is_digit s = true ->
  PyInt.scan_digits s false acc n
  = Some ((acc * 10 ^ Z.of_nat (String.length s) + decimal_value s)%Z,
          n + String.length s, EmptyString).
Proof.
  revert acc n. induction s as [|c s IH]; intros acc n.
  - intros _. cbn. do 3 f_equal; lia.
  - cbn [Str.forallb]. intros [Hc Hs]%andb_true_iff.
    destruct (digit_char_facts c Hc) as (_ & _ & Hus & _).
    cbn [PyInt.scan_digits]. rewrite Hus, Hc, (IH _ _ Hs).
    cbn [decimal_value String.length]. rewrite Nat2Z.inj_succ, Z.pow_succ_r by lia.
    do 3 f_equal; lia.
Qed.

(** [int] of a text of at most 640 digits is its value. *)
Lemma int_of_digits (m : nat) (v : string) :
  digits v -> String.length v <= 640 -> PyInt.int m v = inr (decimal_value v).
Proof.
  intros [Hne Hd] Hlen. destruct v as [|c v]; [done|].
  pose proof Hd as Hd'. cbn [Str.forallb] in Hd'. apply andb_true_iff in Hd' as [Hc Hv].
  destruct (digit_char_facts c Hc) as (_ & Hsp & Hus & Hplus & Hminus).
  unfold PyInt.int, PyInt.transform. rewrite (digits_are_ascii _ Hd).
  cbn [Str.drop_while]. rewrite Hsp.
  assert (Hsign : match String c v with
                  | String "+" r => (false, r)
                  | String "-" r => (true, r)
                  | _ => (false, String c v)
                  end = (false, String c v)).
  { clear - Hc. destruct c as [[] [] [] [] [] [] [] []]; try discriminate Hc; reflexivity. }
  rewrite Hsign.
  assert (Hunder : forall (A : Type) (x y : A),
             match String c v with String "_" _ => x | _ => y end = y).
  { clear - Hc. intros A x y.
    destruct c as [[] [] [] [] [] [] [] []]; try discriminate Hc; reflexivity. }
  rewrite Hunder, (scan_digits_all _ 0 0 Hd).
  replace (640 <? 0 + String.length (String c v)) with false
    by (symmetry; apply Nat.ltb_ge; lia).
  cbn [andb]. replace (0 + String.length (String c v) =? 0) with false
    by (symmetry; apply Nat.eqb_neq; cbn; lia).
  cbn [Str.drop_while]. f_equal; lia.
Qed.

(** X7.  For a version of at most 640 decimal digits the selector decides
    by the number the digits stand for, leading zeros included: the Java 17
    image from 17 on, the Java 13 image below, with a warning below 13.  The
    fallback for an invalid version is not taken and no error is logged. *)
Theorem select_image_by_value :
  forall (P : Platform) (self : updater) (v : string) (st : state),
    digits v -> String.length v <= 640 ->
    get_docker_image_for_java_version self v st
    = if (17 <=? decimal_value v)%Z then (Ret docker_image_17, st)
      else if (13 <=? decimal_value v)%Z then (Ret docker_image_13, st)
      else (Ret docker_image_13,
            emit (ELog WARNING ("No specific Docker image for Java " +:+ v
                                +:+ ", using Java 13 image")) st).
Proof.
  intros P self v st Hd Hlen.
  unfold get_docker_image_for_java_version, try_except_ValueError.
  rewrite (int_of_digits _ v Hd Hlen).
  by destruct (17 <=? decimal_value v)%Z, (13 <=? decimal_value v)%Z.
Qed.

Lemma select_image_by_value_witness :
  fst (get_docker_image_for_java_version Examples.self "017"
         (Sim.start (Examples.checkout EmptyString))) = Ret docker_image_17.
Proof.
  rewrite (select_image_by_value Sim.platform Examples.self "017"
             (Sim.start (Examples.checkout EmptyString))).
  - reflexivity.
  - split; [discriminate|reflexivity].
  - cbn; lia.
Defined.

(** ** The updater and its list *)

(** X8.  When [__init__] returns, the token is the one of the command line
    if that is not empty and the value of [GITHUB_TOKEN] otherwise; the
    headers hold [Authorization: token ...] exactly when the token is not
    empty; the workspace has been created first and the template is the
    text of the template file, read after that. *)
Theorem init_token_and_template :
  forall (P : Platform) (a : arguments) (st st1 : state) (self : updater),
    init a st = (Ret self, st1) ->
    token self = match truthy (arg_token a) with
                 | Some t => Some t
                 | None => environ_get "GITHUB_TOKEN" (world st)
                 end
    /\ headers self = match truthy (token self) with
                      | Some t => {["Authorization" := "token " +:+ t]}
                      | None => ∅
                      end
    /\ workspace_dir self = arg_workspace a
    /\ master_config_file self = arg_master_config a
    /\ exists w1,
         perform (MakeDirs (arg_workspace a)) (world st) = (inr tt, w1)
         /\ perform (ReadText (arg_master_config a)) w1
            = (inr (master_config_template self), world st1).
Proof.
  intros P a st st1 self.
  unfold init, load_master_config_template, try_except, bind, ext, log, ret, observe,
    sys_exit, raise.
  destruct (truthy (arg_token a)) as [t|] eqn:Harg.
  - assert (Ht : truthy (Some t) = Some t).
    { destruct (arg_token a) as [[|c x]|]; cbn in Harg; by inversion Harg. }
    rewrite Ht.
    destruct (perform (MakeDirs (arg_workspace a)) _) as [[e|[]] w1]; cbn [world]; [done|].
    destruct (perform (ReadText (arg_master_config a)) w1) as [[e|text] w2] eqn:Hrd; [done|].
    intros [= <- <-]. cbn [token headers workspace_dir master_config_file
                             master_config_template world].
    rewrite Ht. repeat split. exists w1. split; [done|].
    unfold emit. cbn [world]. exact Hrd.
  - destruct (truthy (environ_get "GITHUB_TOKEN" (world st))) as [t|] eqn:Henv;
      destruct (perform (MakeDirs (arg_workspace a)) _) as [[e|[]] w1]; cbn [world];
      try done;
      destruct (perform (ReadText (arg_master_config a)) w1) as [[e|text] w2] eqn:Hrd;
      try done;
      intros [= <- <-]; cbn [token headers workspace_dir master_config_file
                               master_config_template world];
      rewrite Henv; repeat split; exists w1; (split; [done|]);
      unfold emit; cbn [world]; exact Hrd.
Qed.

Lemma init_token_and_template_witness :
  headers (Updater "repos.csv" "./workspace" "template.yml"
             {["Authorization" := "token s3cr3t"]} (Some "s3cr3t")
             "image: {{JAVA_DOCKER_IMAGE}}")
  = match truthy (Some "s3cr3t") with
    | Some t => {["Authorization" := "token " +:+ t]}
    | None => ∅
    end.
Proof.
  pose (self := Updater "repos.csv" "./workspace" "template.yml"
                  {["Authorization" := "token s3cr3t"]} (Some "s3cr3t")
                  "image: {{JAVA_DOCKER_IMAGE}}").
  pose (st := Sim.start (Examples.fresh "repos.csv")).
  assert (H : init Examples.command_line_with_token st
              = (Ret self, snd (init Examples.command_line_with_token st)))
    by (vm_compute; reflexivity).
  exact (proj1 (proj2 (init_token_and_template Sim.platform
                         Examples.command_line_with_token st _ self H))).
Defined.

(** X9.  With the extension [.csv] and a file that the reader can read,
    [read_repositories] returns one entry per row, in the order of the
    rows, each made of the fields [repository_url] and [branch] of its row,
    and logs their number; when a row lacks one of the two columns it
    leaves through [sys.exit(1)]. *)
Theorem read_repositories_rows :
  forall (P : Platform) (self : updater) (st : state) (rows : list row) (w' : World),
    Str.lower (path_suffix (repo_file self)) = ".csv" ->
    perform (ReadCsv (repo_file self)) (world st) = (inr rows, w') ->
    match mapM row_entry rows with
    | Some repos =>
        read_repositories self st
        = (Ret repos,
           State w' (trace st ++ [ECall (ReadCsv (repo_file self)) true;
                                  ELog INFO ("Loaded " +:+ Str.of_nat (length rows)
                                             +:+ " repositories from " +:+ repo_file self)]))
        /\ Forall2 (fun r repo => row_entry r = Some repo) rows repos
    | None => fst (read_repositories self st) = Raise (SystemExit 1)
    end.
Proof.
  intros P self st rows w' Hext Hread.
  unfold read_repositories, try_except. rewrite Hext.
  destruct (decide (".csv" = ".csv")) as [_|]; [|done].
  rewrite !bind_run. unfold ext. rewrite Hread.
  pose proof (map_m_rows rows (State w' (trace st ++ [ECall (ReadCsv (repo_file self)) true])))
    as Hrows.
  destruct (mapM row_entry rows) as [repos|] eqn:Hm.
  - rewrite Hrows. apply mapM_Some in Hm.
    split; [|done]. unfold bind, log, ret, emit. cbn [world trace].
    rewrite <- app_assoc. by rewrite (Forall2_length _ _ _ Hm).
  - destruct Hrows as [e ->]. done.
Qed.

Lemma read_repositories_rows_witness :
  fst (read_repositories Examples.self (Sim.start Examples.two_entries))
  = Ret [Repository (Some Examples.lib_url) (Some "dev");
         Repository (Some Examples.app_url) (Some "main")].
Proof.
  pose (rows := Sim.parse_csv ("repository_url,branch" +:+ Examples.nl
                               +:+ Examples.lib_url +:+ ",dev" +:+ Examples.nl
                               +:+ Examples.app_url +:+ ",main" +:+ Examples.nl)).
  assert (H := read_repositories_rows Sim.platform Examples.self
                 (Sim.start Examples.two_entries) rows Examples.two_entries
                 ltac:(vm_compute; reflexivity) ltac:(vm_compute; reflexivity)).
  assert (Hm : mapM row_entry rows
               = Some [Repository (Some Examples.lib_url) (Some "dev");
                       Repository (Some Examples.app_url) (Some "main")])
    by (vm_compute; reflexivity).
  rewrite Hm in H. destruct H as [H _]. exact (f_equal fst H).
Defined.

(** ** Cloning and updating a checkout *)

Lemma calls_app (evs evs' : list event) : calls (evs ++ evs') = calls evs ++ calls evs'.
Proof. unfold calls. apply omap_app. Qed.

(** X10.  [clone_repository], for an entry with a URL, returns the path of
    the checkout when no call raised and [None] when one did.  Where the
    path does not exist its only call is [clone_from]; where it exists it
    never clones: it opens the repository, takes the remote [origin],
    fetches, reads the references, checks the branch out, one way or the
    other, and pulls, stopping at the first of these that raises: every
    call before the last one made has returned, and when fewer than the six
    are made the last one raised. *)
Theorem clone_repository_calls :
  forall (P : Platform) (self : updater) (repo_url : string) (b : option string) (st : state),
    fst (clone_repository self (Some repo_url) b st)
    = Ret (if all_returned (new_events st (snd (clone_repository self (Some repo_url) b st)))
           then Some (checkout_path self repo_url) else None)
    /\ (path_exists (checkout_path self repo_url) (world st) = false ->
        calls (new_events st (snd (clone_repository self (Some repo_url) b st)))
        = [GitCloneFrom repo_url (checkout_path self repo_url) b])
    /\ (path_exists (checkout_path self repo_url) (world st) = true ->
        exists k checkout last,
          1 <= k <= 6
          /\ (checkout = GitCheckout (checkout_path self repo_url) b
              \/ checkout = GitCheckoutNew (checkout_path self repo_url)
                              ("origin/" +:+ fmt b) b)
          /\ calls (new_events st (snd (clone_repository self (Some repo_url) b st)))
             = take k [GitRepo (checkout_path self repo_url);
                       GitOrigin (checkout_path self repo_url);
                       GitFetch (checkout_path self repo_url);
                       GitReferences (checkout_path self repo_url);
                       checkout;
                       GitPull (checkout_path self repo_url)]
          /\ outcomes (new_events st (snd (clone_repository self (Some repo_url) b st)))
             = replicate (k - 1) true ++ [last]
          /\ (k < 6 -> last = false)).
Proof.
  intros P self repo_url b st. unfold checkout_path.
  set (path := os_path_join (workspace_dir self) (repo_name_of repo_url)).
  unfold clone_repository. fold path.
  unfold try_except, bind, observe, ext, log, ret.
  destruct (path_exists path (world st)); cbn [world].
  - destruct (perform (GitRepo path) _) as [[e|[]] w1]; cbn [world].
    { split; [by trace_simpl|]. split; [done|]. intros _.
      exists 1, (GitCheckout path b), false. split; [lia|]. split; [by left|].
      split; [by trace_simpl|]. split; [by trace_simpl|done]. }
    destruct (perform (GitOrigin path) _) as [[e|[]] w2]; cbn [world].
    { split; [by trace_simpl|]. split; [done|]. intros _.
      exists 2, (GitCheckout path b), false. split; [lia|]. split; [by left|].
      split; [by trace_simpl|]. split; [by trace_simpl|done]. }
    destruct (perform (GitFetch path) _) as [[e|[]] w3]; cbn [world].
    { split; [by trace_simpl|]. split; [done|]. intros _.
      exists 3, (GitCheckout path b), false. split; [lia|]. split; [by left|].
      split; [by trace_simpl|]. split; [by trace_simpl|done]. }
    destruct (perform (GitReferences path) _) as [[e|refs] w4]; cbn [world].
    { split; [by trace_simpl|]. split; [done|]. intros _.
      exists 4, (GitCheckout path b), false. split; [lia|]. split; [by left|].
      split; [by trace_simpl|]. split; [by trace_simpl|done]. }
    destruct (decide (b ∈ List.map (fun name => Some (Str.last (Str.split "/" name))) refs))
      as [Hin|Hnot].
    + destruct (perform (GitCheckout path b) _) as [[e|[]] w5]; cbn [world].
      { split; [by trace_simpl|]. split; [done|]. intros _.
        exists 5, (GitCheckout path b), false. split; [lia|]. split; [by left|].
        split; [by trace_simpl|]. split; [by trace_simpl|done]. }
      destruct (perform (GitPull path) _) as [[e|[]] w6]; cbn [world].
      { split; [by trace_simpl|]. split; [done|]. intros _.
        exists 6, (GitCheckout path b), false. split; [lia|]. split; [by left|].
        split; [by trace_simpl|]. split; [by trace_simpl|done]. }
      split; [by trace_simpl|]. split; [done|]. intros _.
      exists 6, (GitCheckout path b), true. split; [lia|]. split; [by left|].
      split; [by trace_simpl|]. split; [by trace_simpl|lia].
    + destruct (perform (GitCheckoutNew path _ b) _) as [[e|[]] w5]; cbn [world].
      { split; [by trace_simpl|]. split; [done|]. intros _.
        exists 5, (GitCheckoutNew path ("origin/" +:+ fmt b) b), false.
        split; [lia|]. split; [by right|].
        split; [by trace_simpl|]. split; [by trace_simpl|done]. }
      destruct (perform (GitPull path) _) as [[e|[]] w6]; cbn [world].
      { split; [by trace_simpl|]. split; [done|]. intros _.
        exists 6, (GitCheckoutNew path ("origin/" +:+ fmt b) b), false.
        split; [lia|]. split; [by right|].
        split; [by trace_simpl|]. split; [by trace_simpl|done]. }
      split; [by trace_simpl|]. split; [done|]. intros _.
      exists 6, (GitCheckoutNew path ("origin/" +:+ fmt b) b), true.
      split; [lia|]. split; [by right|].
      split; [by trace_simpl|]. split; [by trace_simpl|lia].
  - destruct (perform (GitCloneFrom repo_url path b) _) as [[e|[]] w1]; cbn [world].
    + split; [by trace_simpl|]. split; [intros _; by trace_simpl|done].
    + split; [by trace_simpl|]. split; [intros _; by trace_simpl|done].
Qed.

Lemma clone_repository_calls_witness :
  calls (new_events (Sim.start (Examples.fresh "repos.csv"))
           (snd (clone_repository Examples.self (Some Examples.app_url) (Some "main")
                   (Sim.start (Examples.fresh "repos.csv")))))
  = [GitCloneFrom Examples.app_url (checkout_path Examples.self Examples.app_url)
       (Some "main")]
  /\ exists k checkout last,
       calls (new_events (Sim.start (Examples.checkout "sourceCompatibility = 17"))
                (snd (clone_repository Examples.self (Some Examples.app_url) (Some "main")
                        (Sim.start (Examples.checkout "sourceCompatibility = 17")))))
       = take k [GitRepo (checkout_path Examples.self Examples.app_url);
                 GitOrigin (checkout_path Examples.self Examples.app_url);
                 GitFetch (checkout_path Examples.self Examples.app_url);
                 GitReferences (checkout_path Examples.self Examples.app_url);
                 checkout;
                 GitPull (checkout_path Examples.self Examples.app_url)]
       /\ outcomes (new_events (Sim.start (Examples.checkout "sourceCompatibility = 17"))
                      (snd (clone_repository Examples.self (Some Examples.app_url)
                              (Some "main")
                              (Sim.start (Examples.checkout "sourceCompatibility = 17")))))
          = replicate (k - 1) true ++ [last]
       /\ (k < 6 -> last = false).
Proof.
  split.
  - apply (proj1 (proj2 (clone_repository_calls Sim.platform Examples.self Examples.app_url
                           (Some "main") (Sim.start (Examples.fresh "repos.csv"))))).
    vm_compute. reflexivity.
  - destruct (proj2 (proj2 (clone_repository_calls Sim.platform Examples.self
                              Examples.app_url (Some "main")
                              (Sim.start (Examples.checkout "sourceCompatibility = 17"))))
                ltac:(vm_compute; reflexivity))
      as (k & checkout & last & _ & _ & Hcalls & Hout & Hlast).
    exists k, checkout, last. split; [exact Hcalls|]. split; [exact Hout|exact Hlast].
Defined.

(** X11.  In an existing checkout whose references can be read, the branch
    is checked out as it is when its name is the last segment of the name
    of some reference, a remote-tracking reference such as [origin/dev]
    included; otherwise it is created from [origin/<branch>]. *)
Theorem clone_repository_checkout_choice :
  forall (P : Platform) (self : updater) (repo_url : string) (b : option string) (st : state)
         (w1 w2 w3 w4 : World) (refs : list string),
    path_exists (checkout_path self repo_url) (world st) = true ->
    perform (GitRepo (checkout_path self repo_url)) (world st) = (inr tt, w1) ->
    perform (GitOrigin (checkout_path self repo_url)) w1 = (inr tt, w2) ->
    perform (GitFetch (checkout_path self repo_url)) w2 = (inr tt, w3) ->
    perform (GitReferences (checkout_path self repo_url)) w3 = (inr refs, w4) ->
    ((exists name, In name refs /\ b = Some (Str.last (Str.split "/" name))) ->
     calls (new_events st (snd (clone_repository self (Some repo_url) b st))) !! 4
     = Some (GitCheckout (checkout_path self repo_url) b))
    /\ ((forall name, In name refs -> b <> Some (Str.last (Str.split "/" name))) ->
        calls (new_events st (snd (clone_repository self (Some repo_url) b st))) !! 4
        = Some (GitCheckoutNew (checkout_path self repo_url) ("origin/" +:+ fmt b) b)).
Proof.
  intros P self repo_url b st w1 w2 w3 w4 refs. unfold checkout_path.
  set (path := os_path_join (workspace_dir self) (repo_name_of repo_url)).
  intros Hex H1 H2 H3 H4.
  unfold clone_repository. fold path.
  unfold try_except, bind, observe, ext, log, ret, emit.
  rewrite Hex. cbn [world]. rewrite H1. cbn [world]. rewrite H2. cbn [world].
  rewrite H3. cbn [world]. rewrite H4. cbn [world].
  destruct (decide (b ∈ List.map (fun name => Some (Str.last (Str.split "/" name))) refs))
    as [Hin|Hnot].
  - split.
    + intros _.
      destruct (perform (GitCheckout path b) _) as [[e|[]] w5]; cbn [world];
        [by trace_simpl|].
      destruct (perform (GitPull path) _) as [[e|[]] w6]; by trace_simpl.
    + intros Hall. exfalso. apply list_elem_of_In, in_map_iff in Hin as (name & Hb & Hname).
      by apply (Hall name Hname).
  - split.
    + intros (name & Hname & ->). exfalso. apply Hnot, list_elem_of_In, in_map_iff.
      by exists name.
    + intros _.
      destruct (perform (GitCheckoutNew path _ b) _) as [[e|[]] w5]; cbn [world];
        [by trace_simpl|].
      destruct (perform (GitPull path) _) as [[e|[]] w6]; by trace_simpl.
Qed.

Lemma clone_repository_checkout_choice_witness :
  calls (new_events (Sim.start Examples.remote_only_branch)
           (snd (clone_repository Examples.self (Some Examples.app_url) (Some "dev")
                   (Sim.start Examples.remote_only_branch)))) !! 4
  = Some (GitCheckout (checkout_path Examples.self Examples.app_url) (Some "dev")).
Proof.
  apply (proj1 (clone_repository_checkout_choice Sim.platform Examples.self Examples.app_url
                  (Some "dev") (Sim.start Examples.remote_only_branch)
                  Examples.remote_only_branch Examples.remote_only_branch
                  Examples.remote_only_branch Examples.remote_only_branch
                  ["main"; "origin/main"; "origin/dev"]
                  ltac:(vm_compute; reflexivity) ltac:(vm_compute; reflexivity)
                  ltac:(vm_compute; reflexivity) ltac:(vm_compute; reflexivity)
                  ltac:(vm_compute; reflexivity))).
  exists "origin/dev". split; [cbn; tauto|vm_compute; reflexivity].
Defined.

(** ** A descriptor that is missing or cannot be read *)

(** X12.  Without a [build.gradle] in the checkout the detector answers
    [None] with one warning and reads nothing; when the file is there but
    reading it raises, it answers [None] with one error line that carries
    the message of the exception. *)
Theorem detect_without_descriptor :
  forall (P : Platform) (self : updater) (repo_path : string) (st : state),
    (path_exists (os_path_join repo_path "build.gradle") (world st) = false ->
     detect_java_version self repo_path st
     = (Ret None, emit (ELog WARNING ("build.gradle not found in " +:+ repo_path)) st))
    /\ (forall e w',
        path_exists (os_path_join repo_path "build.gradle") (world st) = true ->
        perform (ReadText (os_path_join repo_path "build.gradle")) (world st) = (inl e, w') ->
        detect_java_version self repo_path st
        = (Ret None,
           State w' (trace st ++ [ECall (ReadText (os_path_join repo_path "build.gradle")) false;
                                  ELog ERROR ("Error reading build.gradle: " +:+ exc_msg e)]))).
Proof.
  intros P self repo_path st. split.
  - intros Hex. unfold detect_java_version, bind, observe. by rewrite Hex.
  - intros e w' Hex Hread.
    unfold detect_java_version, bind, observe, try_except, ext, log, ret.
    rewrite Hex. cbn [negb]. cbn beta iota. rewrite Hread. by trace_simpl.
Qed.

Lemma detect_without_descriptor_witness :
  fst (detect_java_version Examples.self "./workspace/app"
         (Sim.start (Examples.fresh "repos.csv"))) = Ret None.
Proof.
  refine (f_equal fst
            (proj1 (detect_without_descriptor Sim.platform Examples.self "./workspace/app"
                      (Sim.start (Examples.fresh "repos.csv"))) _)).
  vm_compute. reflexivity.
Defined.

(** ** What the renderer writes *)

Lemma calls_of_logs (logs : list event) :
  Forall (fun ev => exists lvl msg, ev = ELog lvl msg) logs -> calls logs = [].
Proof. induction 1 as [|ev logs (lvl & msg & ->) _ IH]; [done|]. exact IH. Qed.

Section Renderer.

Context {P : Platform}.

Lemma selected_image_anywhere (self : updater) (v : string) (st st' : state) :
  fst (get_docker_image_for_java_version self v st)
  = fst (get_docker_image_for_java_version self v st').
Proof.
  unfold get_docker_image_for_java_version, try_except_ValueError.
  destruct (PyInt.int max_str_digits v) as [e|n] eqn:Hint.
  - apply int_raises_ValueError in Hint. destruct e as [cls msg]. cbn in Hint. by subst cls.
  - by destruct (17 <=? n)%Z, (13 <=? n)%Z.
Qed.

End Renderer.

(** X13.  Once the configuration directory is there,
    [update_circleci_config] makes one more call: it writes, to
    [.circleci/config.yml] of the checkout, the template rendered with the
    image the selector gives for the version.  It answers [True] when the
    write returns and [False] when it raises. *)
Theorem update_writes_rendered_template :
  forall (P : Platform) (self : updater) (repo_path java_version : string) (st : state)
         (w1 : World),
    perform (MakeDirs (os_path_join repo_path ".circleci")) (world st) = (inr tt, w1) ->
    exists image,
      fst (get_docker_image_for_java_version self java_version st) = Ret image
      /\ calls (new_events st (snd (update_circleci_config self repo_path java_version st)))
         = [MakeDirs (os_path_join repo_path ".circleci");
            WriteText (config_file_of repo_path)
              (config_content (master_config_template self) image)]
      /\ fst (update_circleci_config self repo_path java_version st)
         = Ret (returned
                  (fst (perform
                          (WriteText (config_file_of repo_path)
                             (config_content (master_config_template self) image)) w1))).
Proof.
  intros P self repo_path java_version st w1 Hmk.
  remember (update_circleci_config self repo_path java_version st) as out eqn:Hout.
  unfold update_circleci_config in Hout. fold (config_file_of repo_path) in Hout.
  rewrite bind_run in Hout. unfold ext at 1 in Hout. rewrite Hmk, bind_run in Hout.
  set (s1 := State w1 (trace st ++ [ECall (MakeDirs (os_path_join repo_path ".circleci")) true]))
    in Hout.
  destruct (get_docker_image_returns self java_version s1)
    as (image & st' & Himg & _ & Hw & logs & Ht & Hlogs).
  pose proof (selected_image_anywhere self java_version st s1) as Hsame.
  rewrite Himg in Hout, Hsame. cbn [fst] in Hsame. exists image. split; [done|].
  subst s1. cbn [world trace] in *.
  unfold try_except, bind, ext, log, ret, emit in Hout. rewrite Hw in Hout.
  destruct (perform (WriteText _ _) w1) as [[e|[]] w2];
    cbn [fst snd trace world returned] in *; subst out; cbn [fst snd].
  - split; [|done]. rewrite Ht, <- !app_assoc, new_events_app, !calls_app.
    by rewrite (calls_of_logs _ Hlogs).
  - split; [|done]. rewrite Ht, <- !app_assoc, new_events_app, !calls_app.
    by rewrite (calls_of_logs _ Hlogs).
Qed.

Lemma update_writes_rendered_template_witness :
  exists image,
    fst (get_docker_image_for_java_version Examples.self "17"
           (Sim.start (Examples.checkout "sourceCompatibility = 17"))) = Ret image
    /\ calls (new_events (Sim.start (Examples.checkout "sourceCompatibility = 17"))
                (snd (update_circleci_config Examples.self "./workspace/app" "17"
                        (Sim.start (Examples.checkout "sourceCompatibility = 17")))))
       = [MakeDirs (os_path_join "./workspace/app" ".circleci");
          WriteText (config_file_of "./workspace/app")
            (config_content (master_config_template Examples.self) image)].
Proof.
  destruct (update_writes_rendered_template Sim.platform Examples.self "./workspace/app" "17"
              (Sim.start (Examples.checkout "sourceCompatibility = 17"))
              (snd (Sim.run (MakeDirs (os_path_join "./workspace/app" ".circleci"))
                      (Examples.checkout "sourceCompatibility = 17")))
              ltac:(vm_compute; reflexivity))
    as (image & H1 & H2 & _).
  exists image. split; [exact H1|exact H2].
Defined.

(** ** What the publisher answers *)

(** X14.  [commit_and_push_changes] never raises: it answers [True] when
    none of its calls raised and [False] when one did, and its calls are the
    first of opening the repository, asking whether it is dirty, add,
    commit and push, at least one. *)
Theorem publish_answer :
  forall (P : Platform) (self : updater) (repo_path java_version : string) (st : state),
    fst (commit_and_push_changes self repo_path java_version st)
    = Ret (all_returned
             (new_events st (snd (commit_and_push_changes self repo_path java_version st))))
    /\ exists k,
         1 <= k
         /\ calls (new_events st (snd (commit_and_push_changes self repo_path java_version st)))
            = take k [GitRepo repo_path; GitIsDirty repo_path;
                      GitAdd repo_path ".circleci/config.yml";
                      GitCommit repo_path (commit_message java_version);
                      GitPush repo_path].
Proof.
  intros P self repo_path java_version st.
  unfold commit_and_push_changes, try_except, bind, ext, log, ret.
  destruct (perform (GitRepo repo_path) _) as [[e|[]] w1]; cbn [world].
  { split; [by trace_simpl|]. exists 1. split; [lia|]. by trace_simpl. }
  destruct (perform (GitIsDirty repo_path) _) as [[e|[|]] w2]; cbn [world negb].
  { split; [by trace_simpl|]. exists 2. split; [lia|]. by trace_simpl. }
  2:{ split; [by trace_simpl|]. exists 2. split; [lia|]. by trace_simpl. }
  destruct (perform (GitAdd repo_path _) _) as [[e|[]] w3]; cbn [world].
  { split; [by trace_simpl|]. exists 3. split; [lia|]. by trace_simpl. }
  destruct (perform (GitCommit repo_path _) _) as [[e|[]] w4]; cbn [world].
  { split; [by trace_simpl|]. exists 4. split; [lia|]. by trace_simpl. }
  destruct (perform (GitPush repo_path) _) as [[e|[]] w5]; cbn [world].
  { split; [by trace_simpl|]. exists 5. split; [lia|]. by trace_simpl. }
  split; [by trace_simpl|]. exists 5. split; [lia|]. by trace_simpl.
Qed.

(** ** A row without a URL *)

Section Loop.

Context {P : Platform}.

Lemma for_each_app {A} (l l' : list A) (body : A -> M unit) (st st1 : state) :
  for_each l body st = (Ret tt, st1) ->
  for_each (l ++ l') body st = for_each l' body st1.
Proof.
  revert st. induction l as [|x l IH]; intros st; cbn [for_each app].
  - by intros [= <-].
  - rewrite !bind_run. destruct (body x st) as [[[]|r] st2]; [apply IH|done].
Qed.

End Loop.

(** X15.  An entry whose URL is [None] (a row that ends before the
    [repository_url] column) ends the loop: after its "Processing
    repository" line an [AttributeError] leaves [process_repositories]
    uncaught, and the entries after it are not taken up. *)
Theorem entry_without_url_ends_loop :
  forall (P : Platform) (self : updater) (before after : list repository)
         (b : option string) (st st1 : state),
    for_each before (process_repository self) st = (Ret tt, st1) ->
    exists e,
      exc_cls e = AttributeError
      /\ for_each (before ++ Repository None b :: after) (process_repository self) st
         = (Raise (Exc e), emit (ELog INFO (processing_message (Repository None b))) st1).
Proof.
  intros P self before after b st st1 Hbefore.
  rewrite (for_each_app _ _ _ _ _ Hbefore). cbn [for_each].
  eexists. split; [|reflexivity]. reflexivity.
Qed.

Lemma entry_without_url_ends_loop_witness :
  exists e,
    exc_cls e = AttributeError
    /\ fst (for_each ([] ++ Repository None (Some "main")
                        :: [Repository (Some Examples.app_url) (Some "main")])
              (process_repository Examples.self) (Sim.start (Examples.fresh "repos.csv")))
       = Raise (Exc e).
Proof.
  destruct (entry_without_url_ends_loop Sim.platform Examples.self []
              [Repository (Some Examples.app_url) (Some "main")] (Some "main")
              (Sim.start (Examples.fresh "repos.csv")) (Sim.start (Examples.fresh "repos.csv"))
              eq_refl) as (e & He & Hrun).
  exists e. split; [exact He|]. exact (f_equal fst Hrun).
Defined.

(** ** What the work on the list touches *)

Section Emits.

Context {P : Platform}.

Lemma emits_ret {A} (Q : event -> Prop) (R : A -> Prop) (a : A) : R a -> emits Q R (ret a).
Proof.
  intros Ha st. exists []. cbn. rewrite app_nil_r. split; [done|]. split; [done|].
  by intros a' [= <-].
Qed.

Lemma emits_log (Q : event -> Prop) (R : unit -> Prop) (lvl : level) (msg : string) :
  Q (ELog lvl msg) -> R tt -> emits Q R (log lvl msg).
Proof.
  intros HQ HR st. exists [ELog lvl msg]. split; [done|]. split; [by repeat constructor|].
  by intros [] _.
Qed.

Lemma emits_observe {A} (Q : event -> Prop) (R : A -> Prop) (f : World -> A) :
  (forall w, R (f w)) -> emits Q R (observe f).
Proof.
  intros HR st. exists []. cbn. rewrite app_nil_r. split; [done|]. split; [done|].
  by intros a [= <-].
Qed.

Lemma emits_raise {A} (Q : event -> Prop) (R : A -> Prop) (r : raised) : emits Q R (raise r).
Proof. intros st. exists []. cbn. by rewrite app_nil_r. Qed.

Lemma emits_ext (Q : event -> Prop) (c : call) (R : response c -> Prop) :
  (forall ok, Q (ECall c ok)) -> (forall v, R v) -> emits Q R (ext c).
Proof.
  intros HQ HR st. unfold ext. destruct (perform c (world st)) as [[e|v] w'].
  - exists [ECall c false]. split; [done|]. split; [by repeat constructor|]. done.
  - exists [ECall c true]. split; [done|]. split; [by repeat constructor|]. done.
Qed.

Lemma emits_bind {A B} (Q : event -> Prop) (R1 : A -> Prop) (R2 : B -> Prop)
    (m : M A) (k : A -> M B) :
  emits Q R1 m -> (forall a, R1 a -> emits Q R2 (k a)) -> emits Q R2 (bind m k).
Proof.
  intros Hm Hk st. rewrite bind_run.
  destruct (Hm st) as (evs & Ht & HQ & HR).
  destruct (m st) as [[a|r] st1]; cbn [fst snd] in *.
  - destruct (Hk a (HR a eq_refl) st1) as (evs' & Ht' & HQ' & HR').
    exists (evs ++ evs'). rewrite Ht', Ht, app_assoc. split; [done|].
    split; [by apply Forall_app|done].
  - exists evs. done.
Qed.

Lemma emits_try {A} (Q : event -> Prop) (R : A -> Prop) (m : M A) (h : py_exc -> M A) :
  emits Q R m -> (forall e, emits Q R (h e)) -> emits Q R (try_except m h).
Proof.
  intros Hm Hh st. unfold try_except.
  destruct (Hm st) as (evs & Ht & HQ & HR).
  destruct (m st) as [[a|[e|code]] st1]; cbn [fst snd] in *.
  - by exists evs.
  - destruct (Hh e st1) as (evs' & Ht' & HQ' & HR').
    exists (evs ++ evs'). rewrite Ht', Ht, app_assoc. split; [done|].
    split; [by apply Forall_app|done].
  - exists evs. done.
Qed.

Lemma emits_weaken {A} (Q : event -> Prop) (R R' : A -> Prop) (m : M A) :
  emits Q R m -> (forall a, R a -> R' a) -> emits Q R' m.
Proof.
  intros Hm HR st. destruct (Hm st) as (evs & Ht & HQ & Ha).
  exists evs. split; [done|]. split; [done|]. intros a Hret. by apply HR, Ha.
Qed.

Lemma emits_for_each {A} (Q : event -> Prop) (l : list A) (body : A -> M unit) :
  (forall x, emits Q (fun _ => True) (body x)) ->
  emits Q (fun _ => True) (for_each l body).
Proof.
  intros Hbody. induction l as [|x l IH]; cbn [for_each].
  - by apply emits_ret.
  - apply (emits_bind Q (fun _ => True)); [apply Hbody|by intros _ _].
Qed.

Lemma emits_map_m {A B} (Q : event -> Prop) (f : A -> M B) (l : list A) :
  (forall x, emits Q (fun _ => True) (f x)) ->
  emits Q (fun _ => True) (map_m f l).
Proof.
  intros Hf. induction l as [|x l IH]; cbn [map_m].
  - by apply emits_ret.
  - apply (emits_bind Q (fun _ => True)); [apply Hf|intros y _].
    apply (emits_bind Q (fun _ => True)); [exact IH|intros ys _]. by apply emits_ret.
Qed.

End Emits.

Ltac emits_steps :=
  repeat first
    [ apply emits_ret; cbn; eauto; fail
    | apply emits_log; [exact I|cbn; eauto]
    | apply emits_raise
    | match goal with
      | |- emits _ _ (ext ?c) => refine (emits_ext _ c _ _ _); [intros ?; cbn; eauto|cbn; eauto]
      end
    | match goal with
      | |- emits ?Q _ (bind _ _) => apply (emits_bind Q (fun _ => True)); [|intros ? _]
      end
    | match goal with
      | |- emits _ _ (if ?b then _ else _) => destruct b
      | |- emits _ _ (match ?x with _ => _ end) => destruct x
      end ].

Section ListEvents.

Context {P : Platform}.

Lemma read_repositories_emits (self : updater) :
  emits (list_event self) (fun _ => True) (read_repositories self).
Proof.
  unfold read_repositories. apply emits_try; [|intros e; emits_steps].
  apply (emits_bind _ (fun _ => True)); [|intros repos _; emits_steps].
  destruct (decide _); [|emits_steps].
  apply (emits_bind _ (fun _ => True)); [emits_steps|intros rows _].
  apply emits_map_m. intros r. unfold row_get. emits_steps.
Qed.

Lemma clone_repository_emits (self : updater) (repo_url b : option string) :
  emits (list_event self)
    (fun r => forall p, r = Some p ->
                        exists u, repo_url = Some u /\ p = checkout_path self u)
    (clone_repository self repo_url b).
Proof.
  unfold clone_repository. destruct repo_url as [u|]; [|apply emits_raise].
  fold (checkout_path self u).
  apply emits_try.
  2:{ intros e. apply (emits_bind _ (fun _ => True)); [emits_steps|intros _ _].
      apply emits_ret. by intros p [=]. }
  apply (emits_bind _ (fun _ => True)); [by apply emits_observe|intros existing _].
  apply (emits_bind _ (fun _ => True)).
  - destruct existing; emits_steps.
  - intros _ _. apply emits_ret. intros p [= <-]. by exists u.
Qed.

Lemma detect_java_version_emits (self : updater) (repo_url : string) :
  emits (list_event self) (fun r => forall v, r = Some v -> digits v)
    (detect_java_version self (checkout_path self repo_url)).
Proof.
  intros st.
  assert (H : emits (list_event self) (fun _ => True)
                (detect_java_version self (checkout_path self repo_url))).
  { unfold detect_java_version.
    apply (emits_bind _ (fun _ => True)); [by apply emits_observe|intros existing _].
    destruct (negb existing); [emits_steps|].
    apply emits_try; [|intros e; emits_steps].
    apply (emits_bind _ (fun _ => True)); [|intros content _; emits_steps].
    refine (emits_ext _ _ _ _ _); [intros ok; cbn; eauto|done]. }
  destruct (H st) as (evs & Ht & HQ & _). exists evs. split; [done|]. split; [done|].
  intros r Hr v ->. exact (detect_returns_digits self _ st v Hr).
Qed.

Lemma get_docker_image_emits (self : updater) (v : string) :
  emits (list_event self) (fun image => image = docker_image_17 \/ image = docker_image_13)
    (get_docker_image_for_java_version self v).
Proof.
  intros st.
  destruct (get_docker_image_returns self v st) as (image & st' & Heq & Himg & _ & logs & Ht & Hl).
  exists logs. rewrite Heq. split; [done|]. split.
  - eapply Forall_impl; [exact Hl|]. by intros ev (lvl & msg & ->).
  - by intros a [= <-].
Qed.

Lemma update_circleci_config_emits (self : updater) (repo_url v : string) :
  emits (list_event self) (fun _ => True)
    (update_circleci_config self (checkout_path self repo_url) v).
Proof.
  unfold update_circleci_config. fold (config_file_of (checkout_path self repo_url)).
  apply (emits_bind _ (fun _ => True)).
  { refine (emits_ext _ _ _ _ _); [intros ok; cbn; eauto|done]. }
  intros _ _. eapply emits_bind; [apply get_docker_image_emits|intros image Himg].
  apply emits_try; [|intros e; emits_steps].
  apply (emits_bind _ (fun _ => True)); [|intros _ _; emits_steps].
  refine (emits_ext _ _ _ _ _); [intros ok; cbn; eauto|done].
Qed.

Lemma commit_and_push_changes_emits (self : updater) (repo_path v : string) :
  digits v ->
  emits (list_event self) (fun _ => True) (commit_and_push_changes self repo_path v).
Proof.
  intros Hv. unfold commit_and_push_changes.
  apply emits_try; [|intros e; emits_steps].
  apply (emits_bind _ (fun _ => True)); [emits_steps|intros _ _].
  apply (emits_bind _ (fun _ => True)); [emits_steps|intros dirty _].
  destruct (negb dirty); [emits_steps|].
  apply (emits_bind _ (fun _ => True)); [emits_steps|intros _ _].
  apply (emits_bind _ (fun _ => True)); [|intros _ _; emits_steps].
  refine (emits_ext _ _ _ _ _); [intros ok; cbn; eauto|done].
Qed.

Lemma process_repository_emits (self : updater) (repo : repository) :
  emits (list_event self) (fun _ => True) (process_repository self repo).
Proof.
  unfold process_repository.
  apply (emits_bind _ (fun _ => True)); [emits_steps|intros _ _].
  eapply emits_bind; [apply clone_repository_emits|intros r Hr].
  destruct (truthy r) as [p|] eqn:Hp; [|emits_steps].
  assert (r = Some p) as -> by (destruct r as [[|c x]|]; cbn in Hp; by inversion Hp).
  destruct (Hr p eq_refl) as (u & _ & ->).
  eapply emits_bind; [apply detect_java_version_emits|intros rv Hrv].
  destruct (truthy rv) as [v|] eqn:Hv; [|emits_steps].
  assert (rv = Some v) as -> by (destruct rv as [[|c x]|]; cbn in Hv; by inversion Hv).
  apply (emits_bind _ (fun _ => True)); [apply update_circleci_config_emits|intros updated _].
  destruct updated; [|emits_steps].
  apply (emits_bind _ (fun _ => True)); [|intros _ _; emits_steps].
  apply commit_and_push_changes_emits. by apply Hrv.
Qed.

End ListEvents.

(** X16.  Whatever the platform does, the files [process_repositories]
    touches are named from the list file, the workspace directory and the
    names of URLs: it reads only the list and files [build.gradle] under a
    path [os.path.join(workspace_dir, name)], [name] being the checkout
    name of some URL, creates only the directory [.circleci] under such a
    path, and writes only [.circleci/config.yml] under such a path, each
    time the template rendered with one of the two images; every path it
    stages is [.circleci/config.yml] and every commit message is "Update
    CircleCI config for Java " followed by decimal digits. *)
Theorem process_repositories_touches_only_configs :
  forall (P : Platform) (self : updater) (st : state),
    Forall (list_event self) (new_events st (snd (process_repositories self st))).
Proof.
  intros P self st.
  assert (H : emits (list_event self) (fun _ => True) (process_repositories self)).
  { unfold process_repositories.
    apply (emits_bind _ (fun _ => True)); [apply read_repositories_emits|intros repos _].
    apply emits_for_each. intros repo. apply process_repository_emits. }
  destruct (H st) as (evs & Ht & HQ & _). by rewrite (new_events_of_trace _ _ _ Ht).
Qed.

(** ** The order of reading, writing and publishing *)

Lemma earlier_mono (pre pre' : list event) (c : call) :
  (forall ev, In ev pre -> In ev pre') -> earlier pre c -> earlier pre' c.
Proof.
  intros Hincl. destruct c; cbn; try done.
  - intros (p & -> & Hin). exists p. eauto.
  - intros (content & Hin). eauto.
  - intros (content & Hin). eauto.
  - intros (content & Hin). eauto.
  - intros (content & Hin). eauto.
Qed.

Lemma in_order_given (ctx a b : list event) :
  in_order a -> (forall ev, In ev ctx -> In ev a) -> Forall (given ctx) b ->
  in_order (a ++ b).
Proof.
  intros Ha Hctx Hb pre c ok post Heq.
  apply app_eq_inv in Heq as [(l & -> & Hl)|(l & -> & ->)].
  - destruct l as [|x l]; cbn in Hl.
    + subst b. rewrite app_nil_r in *. inversion Hb as [|? ? Hc _]; subst.
      by apply (earlier_mono ctx).
    + injection Hl as <- ->. by apply (Ha pre c ok l).
  - apply Forall_app in Hb as [_ Hb]. inversion Hb as [|? ? Hc _]; subst.
    apply (earlier_mono ctx); [|done]. intros ev Hin. apply in_or_app. left. by apply Hctx.
Qed.

Lemma in_order_nil : in_order [].
Proof. intros pre c ok post Heq. by destruct pre. Qed.

Lemma in_order_plain (evs : list event) : Forall (given []) evs -> in_order evs.
Proof. intros H. by apply (in_order_given [] [] evs in_order_nil). Qed.

Lemma in_order_app (a b : list event) : in_order a -> in_order b -> in_order (a ++ b).
Proof.
  intros Ha Hb pre c ok post Heq.
  apply app_eq_inv in Heq as [(l & -> & Hl)|(l & -> & ->)].
  - destruct l as [|x l]; cbn in Hl.
    + subst b. apply (earlier_mono []); [done|]. by apply (Hb [] c ok post).
    + injection Hl as <- ->. by apply (Ha pre c ok l).
  - apply (earlier_mono l); [|by apply (Hb l c ok post)].
    intros ev Hin. apply in_or_app. by right.
Qed.

Section Order.

Context {P : Platform}.

Lemma read_repositories_plain (self : updater) :
  emits (given []) (fun _ => True) (read_repositories self).
Proof.
  unfold read_repositories. apply emits_try; [|intros e; emits_steps].
  apply (emits_bind _ (fun _ => True)); [|intros repos _; emits_steps].
  destruct (decide _); [|emits_steps].
  apply (emits_bind _ (fun _ => True)); [emits_steps|intros rows _].
  apply emits_map_m. intros r. unfold row_get. emits_steps.
Qed.

Lemma clone_repository_plain (self : updater) (repo_url b : option string) :
  emits (given []) (fun _ => True) (clone_repository self repo_url b).
Proof.
  unfold clone_repository. destruct repo_url as [u|]; [|apply emits_raise].
  apply emits_try; [|intros e; emits_steps].
  apply (emits_bind _ (fun _ => True)); [by apply emits_observe|intros existing _].
  destruct existing; emits_steps.
Qed.

Lemma detect_java_version_plain (self : updater) (repo_path : string) :
  emits (given []) (fun _ => True) (detect_java_version self repo_path).
Proof.
  unfold detect_java_version.
  apply (emits_bind _ (fun _ => True)); [by apply emits_observe|intros existing _].
  destruct (negb existing); [emits_steps|].
  apply emits_try; [|intros e; emits_steps].
  apply (emits_bind _ (fun _ => True)); [emits_steps|intros content _; emits_steps].
Qed.

Lemma detect_java_version_read (self : updater) (repo_path : string) (st : state)
    (v : string) :
  fst (detect_java_version self repo_path st) = Ret (Some v) ->
  In (ECall (ReadText (os_path_join repo_path "build.gradle")) true)
     (new_events st (snd (detect_java_version self repo_path st))).
Proof.
  unfold detect_java_version, bind, observe, try_except, ext, log, ret.
  destruct (path_exists _ (world st)); cbn [negb]; [|done].
  destruct (perform _ (world st)) as [[e|content] w']; [done|].
  destruct (search source_compat_pattern content) as [m|];
    [|destruct (search java_version_pattern content) as [m|]; [|done]];
    intros _; trace_simpl; by left.
Qed.

Lemma update_circleci_config_given (self : updater) (repo_path v : string) :
  emits (given [ECall (ReadText (os_path_join repo_path "build.gradle")) true])
    (fun _ => True) (update_circleci_config self repo_path v).
Proof.
  unfold update_circleci_config. fold (config_file_of repo_path).
  apply (emits_bind _ (fun _ => True)); [emits_steps|intros _ _].
  apply (emits_bind _ (fun _ => True)).
  { intros st.
    destruct (get_docker_image_returns self v st)
      as (image & st' & Heq & _ & _ & logs & Ht & Hl).
    exists logs. rewrite Heq. split; [done|]. split; [|done].
    eapply Forall_impl; [exact Hl|]. by intros ev (lvl & msg & ->). }
  intros image _. apply emits_try; [|intros e; emits_steps].
  apply (emits_bind _ (fun _ => True)); [|intros _ _; emits_steps].
  refine (emits_ext _ _ _ _ _); [intros ok|done].
  exists repo_path. split; [done|by left].
Qed.

Lemma update_circleci_config_wrote (self : updater) (repo_path v : string) (st : state) :
  fst (update_circleci_config self repo_path v st) = Ret true ->
  exists content,
    In (ECall (WriteText (config_file_of repo_path) content) true)
       (new_events st (snd (update_circleci_config self repo_path v st))).
Proof.
  remember (update_circleci_config self repo_path v st) as out eqn:Hout.
  unfold update_circleci_config in Hout. fold (config_file_of repo_path) in Hout.
  rewrite bind_run in Hout. unfold ext at 1 in Hout.
  destruct (perform (MakeDirs _) (world st)) as [[e|[]] w1]; [by subst out|].
  rewrite bind_run in Hout.
  set (s1 := State w1 _) in Hout.
  destruct (get_docker_image_returns self v s1)
    as (image & st' & Himg & _ & Hw & logs & Ht & Hlogs).
  rewrite Himg in Hout. unfold try_except, bind, ext, log, ret, emit in Hout.
  destruct (perform (WriteText _ _) (world st')) as [[e|[]] w2];
    cbn [fst snd trace world] in Hout; subst out; cbn [fst snd]; [done|].
  intros _. exists (config_content (master_config_template self) image).
  rewrite Ht. subst s1. cbn [trace]. rewrite <- !app_assoc, new_events_app.
  rewrite !in_app_iff. right. right. left. by left.
Qed.

Lemma commit_and_push_changes_given (self : updater) (repo_path v content : string) :
  emits (given [ECall (WriteText (config_file_of repo_path) content) true])
    (fun _ => True) (commit_and_push_changes self repo_path v).
Proof.
  assert (Hin : exists c,
             In (ECall (WriteText (config_file_of repo_path) c) true)
                [ECall (WriteText (config_file_of repo_path) content) true]).
  { exists content. by left. }
  unfold commit_and_push_changes.
  apply emits_try; [|intros e; emits_steps].
  apply (emits_bind _ (fun _ => True)); [emits_steps|intros _ _].
  apply (emits_bind _ (fun _ => True)).
  { refine (emits_ext _ _ _ _ _); [intros ok; exact Hin|done]. }
  intros dirty _. destruct (negb dirty); [emits_steps|].
  apply (emits_bind _ (fun _ => True)).
  { refine (emits_ext _ _ _ _ _); [intros ok; exact Hin|done]. }
  intros _ _. apply (emits_bind _ (fun _ => True)).
  { refine (emits_ext _ _ _ _ _); [intros ok; exact Hin|done]. }
  intros _ _. apply (emits_bind _ (fun _ => True)).
  { refine (emits_ext _ _ _ _ _); [intros ok; exact Hin|done]. }
  intros _ _. emits_steps.
Qed.

Lemma process_repository_in_order (self : updater) (repo : repository) (st : state) :
  exists evs,
    trace (snd (process_repository self repo st)) = trace st ++ evs /\ in_order evs.
Proof.
  unfold process_repository. rewrite bind_run. unfold log at 1. cbn beta iota.
  set (l0 := ELog INFO _). set (st0 := emit l0 st).
  assert (Ht0 : trace st0 = trace st ++ [l0]) by done.
  assert (Hq0 : Forall (given []) [l0]) by (by repeat constructor).
  clearbody st0. rewrite bind_run.
  destruct (clone_repository_plain self (url repo) (branch repo) st0) as (e1 & Ht1 & Hq1 & _).
  destruct (clone_repository self (url repo) (branch repo) st0) as [[r|rs] st1];
    cbn [fst snd] in Ht1 |- *.
  2:{ exists ([l0] ++ e1). split; [by rewrite Ht1, Ht0, <- app_assoc|].
      apply in_order_plain. by apply Forall_app. }
  destruct (truthy r) as [p|].
  2:{ exists (([l0] ++ e1) ++ [ELog ERROR ("Skipping " +:+ fmt (url repo) +:+ " due to clone error")]).
      split; [unfold log, emit; cbn [snd trace]; by rewrite Ht1, Ht0, <- !app_assoc|].
      apply in_order_plain. repeat (apply Forall_app; split); try done. by repeat constructor. }
  rewrite bind_run.
  destruct (detect_java_version_plain self p st1) as (e2 & Ht2 & Hq2 & _).
  pose proof (detect_java_version_read self p st1) as Hread.
  rewrite (new_events_of_trace _ _ _ Ht2) in Hread.
  destruct (detect_java_version self p st1) as [[rv|rs] st2]; cbn [fst snd] in Ht2, Hread |- *.
  2:{ exists (([l0] ++ e1) ++ e2). split; [by rewrite Ht2, Ht1, Ht0, <- !app_assoc|].
      apply in_order_plain. repeat (apply Forall_app; split); done. }
  destruct (truthy rv) as [v|] eqn:Hv.
  2:{ exists ((([l0] ++ e1) ++ e2)
               ++ [ELog WARNING ("Skipping " +:+ fmt (url repo) +:+ " due to missing Java version")]).
      split; [unfold log, emit; cbn [snd trace]; by rewrite Ht2, Ht1, Ht0, <- !app_assoc|].
      apply in_order_plain. repeat (apply Forall_app; split); try done. by repeat constructor. }
  assert (rv = Some v) as -> by (destruct rv as [[|c x]|]; cbn in Hv; by inversion Hv).
  specialize (Hread v eq_refl).
  assert (Hord2 : in_order (([l0] ++ e1) ++ e2)).
  { apply in_order_plain. repeat (apply Forall_app; split); done. }
  rewrite bind_run.
  destruct (update_circleci_config_given self p v st2) as (e3 & Ht3 & Hq3 & _).
  pose proof (update_circleci_config_wrote self p v st2) as Hwrote.
  rewrite (new_events_of_trace _ _ _ Ht3) in Hwrote.
  assert (Hord3 : in_order ((([l0] ++ e1) ++ e2) ++ e3)).
  { eapply in_order_given; [exact Hord2| |exact Hq3].
    intros ev [<-|[]]. apply in_or_app. by right. }
  destruct (update_circleci_config self p v st2) as [[updated|rs] st3];
    cbn [fst snd] in Ht3, Hwrote |- *.
  2:{ exists ((([l0] ++ e1) ++ e2) ++ e3).
      split; [by rewrite Ht3, Ht2, Ht1, Ht0, <- !app_assoc|done]. }
  destruct updated.
  2:{ exists ((([l0] ++ e1) ++ e2) ++ e3).
      split; [cbn [ret snd]; by rewrite Ht3, Ht2, Ht1, Ht0, <- !app_assoc|done]. }
  destruct (Hwrote eq_refl) as (content & Hin).
  rewrite bind_run.
  destruct (commit_and_push_changes_given self p v content st3) as (e4 & Ht4 & Hq4 & _).
  exists (((([l0] ++ e1) ++ e2) ++ e3) ++ e4). split.
  - destruct (commit_and_push_changes self p v st3) as [[a|rs] st4]; cbn [fst snd ret] in *;
      by rewrite Ht4, Ht3, Ht2, Ht1, Ht0, <- !app_assoc.
  - eapply in_order_given; [exact Hord3| |exact Hq4].
    intros ev [<-|[]]. apply in_or_app. by right.
Qed.

Lemma for_each_in_order (self : updater) (repos : list repository) (st : state) :
  exists evs,
    trace (snd (for_each repos (process_repository self) st)) = trace st ++ evs
    /\ in_order evs.
Proof.
  revert st. induction repos as [|repo repos IH]; intros st; cbn [for_each].
  - exists []. split; [by rewrite app_nil_r|apply in_order_nil].
  - rewrite bind_run.
    destruct (process_repository_in_order self repo st) as (e1 & Ht1 & Ho1).
    destruct (process_repository self repo st) as [[[]|rs] st1]; cbn [fst snd] in Ht1.
    + destruct (IH st1) as (e2 & Ht2 & Ho2). exists (e1 ++ e2).
      split; [by rewrite Ht2, Ht1, <- app_assoc|by apply in_order_app].
    + by exists e1.
Qed.

End Order.

(** X17.  Whatever the platform does, the calls of a run of
    [process_repositories] come in order: every write goes to
    [.circleci/config.yml] of a checkout whose [build.gradle] was read
    without an exception earlier in the run, and every [is_dirty], add,
    commit and push works on a checkout whose [.circleci/config.yml] was
    written without an exception earlier in the run. *)
Theorem process_repositories_in_order :
  forall (P : Platform) (self : updater) (st : state),
    in_order (new_events st (snd (process_repositories self st))).
Proof.
  intros P self st. unfold process_repositories. rewrite bind_run.
  destruct (read_repositories_plain self st) as (e0 & Ht0 & Hq0 & _).
  destruct (read_repositories self st) as [[repos|rs] st0]; cbn [fst snd] in Ht0.
  - destruct (for_each_in_order self repos st0) as (e1 & Ht1 & Ho1).
    rewrite (new_events_of_trace _ _ (e0 ++ e1)); [|by rewrite Ht1, Ht0, <- app_assoc].
    apply in_order_app; [by apply in_order_plain|done].
  - cbn [snd]. rewrite (new_events_of_trace _ _ _ Ht0). by apply in_order_plain.
Qed.

(** ** The token *)

Section Frame.

Context {P : Platform}.

Lemma framed_ret {A} (a : A) : framed (ret a).
Proof. intros w. exists (Ret a), w, []. intros t. by rewrite app_nil_r. Qed.

Lemma framed_raise {A} (r : raised) : framed (raise (A:=A) r).
Proof. intros w. exists (Raise r), w, []. intros t. by rewrite app_nil_r. Qed.

Lemma framed_log (lvl : level) (msg : string) : framed (log lvl msg).
Proof. intros w. by exists (Ret tt), w, [ELog lvl msg]. Qed.

Lemma framed_observe {A} (f : World -> A) : framed (observe f).
Proof. intros w. exists (Ret (f w)), w, []. intros t. by rewrite app_nil_r. Qed.

Lemma framed_ext (c : call) : framed (ext c).
Proof.
  intros w. unfold ext. cbn [world trace].
  destruct (perform c w) as [[e|v] w'].
  - by exists (Raise (Exc e)), w', [ECall c false].
  - by exists (Ret v), w', [ECall c true].
Qed.

Lemma framed_bind {A B} (m : M A) (k : A -> M B) :
  framed m -> (forall a, framed (k a)) -> framed (bind m k).
Proof.
  intros Hm Hk w. destruct (Hm w) as (r & w1 & e1 & H1). destruct r as [a|rs].
  - destruct (Hk a w1) as (r2 & w2 & e2 & H2). exists r2, w2, (e1 ++ e2).
    intros t. by rewrite bind_run, H1, H2, app_assoc.
  - exists (Raise rs), w1, e1. intros t. by rewrite bind_run, H1.
Qed.

Lemma framed_try {A} (m : M A) (h : py_exc -> M A) :
  framed m -> (forall e, framed (h e)) -> framed (try_except m h).
Proof.
  intros Hm Hh w. destruct (Hm w) as (r & w1 & e1 & H1). unfold try_except.
  destruct r as [a|[e|code]].
  - exists (Ret a), w1, e1. intros t. by rewrite H1.
  - destruct (Hh e w1) as (r2 & w2 & e2 & H2). exists r2, w2, (e1 ++ e2).
    intros t. by rewrite H1, H2, app_assoc.
  - exists (Raise (SystemExit code)), w1, e1. intros t. by rewrite H1.
Qed.

Lemma framed_try_ValueError {A} (m h : M A) :
  framed m -> framed h -> framed (try_except_ValueError m h).
Proof.
  intros Hm Hh w. destruct (Hm w) as (r & w1 & e1 & H1). unfold try_except_ValueError.
  destruct (Hh w1) as (r2 & w2 & e2 & H2).
  destruct r as [a|[[cls msg]|code]]; [| |];
    try (eexists _, w1, e1; intros t; by rewrite H1).
  destruct cls; try (eexists _, w1, e1; intros t; by rewrite H1).
  exists r2, w2, (e1 ++ e2). intros t. by rewrite H1, H2, app_assoc.
Qed.

Lemma framed_for_each {A} (l : list A) (body : A -> M unit) :
  (forall x, framed (body x)) -> framed (for_each l body).
Proof.
  intros Hbody. induction l as [|x l IH]; cbn [for_each].
  - apply framed_ret.
  - apply framed_bind; [apply Hbody|by intros _].
Qed.

Lemma framed_map_m {A B} (f : A -> M B) (l : list A) :
  (forall x, framed (f x)) -> framed (map_m f l).
Proof.
  intros Hf. induction l as [|x l IH]; cbn [map_m].
  - apply framed_ret.
  - apply framed_bind; [apply Hf|intros y].
    apply framed_bind; [exact IH|intros ys; apply framed_ret].
Qed.

End Frame.

Ltac framed_steps :=
  repeat first
    [ apply framed_ret
    | apply framed_log
    | apply framed_raise
    | apply framed_observe
    | match goal with |- framed (ext ?c) => exact (framed_ext c) end
    | match goal with
      | |- framed (bind _ _) => apply framed_bind; [|intros ?]
      | |- framed (try_except_ValueError _ _) => apply framed_try_ValueError
      | |- framed (try_except _ _) => apply framed_try; [|intros ?]
      | |- framed (for_each _ _) => apply framed_for_each; intros ?
      | |- framed (map_m _ _) => apply framed_map_m; intros ?
      end
    | match goal with
      | |- framed (if ?b then _ else _) => destruct b
      | |- framed (match ?x with _ => _ end) => destruct x
      end ].

Section Token.

Context {P : Platform}.

Lemma process_repositories_framed (self : updater) : framed (process_repositories self).
Proof.
  unfold process_repositories, process_repository, read_repositories, clone_repository,
    detect_java_version, update_circleci_config, commit_and_push_changes,
    get_docker_image_for_java_version, row_get, sys_exit.
  framed_steps.
Qed.

Lemma init_rest_framed (a : arguments) (h : gmap string string) (t : option string) :
  framed (bind (init_rest a h t) process_repositories).
Proof.
  apply framed_bind; [|intros self; apply process_repositories_framed].
  unfold init_rest, load_master_config_template, sys_exit. framed_steps.
Qed.

Lemma main_after_token (a : arguments) (st : state) :
  exists lvl msg h t,
    main a st = bind (init_rest a h t) process_repositories (emit (ELog lvl msg) st).
Proof.
  unfold main, init.
  destruct (truthy (arg_token a)) as [t|] eqn:Harg.
  - assert (Ht : truthy (Some t) = Some t).
    { destruct (arg_token a) as [[|c x]|]; cbn in Harg; by inversion Harg. }
    eexists _, _, _, (Some t). rewrite !bind_run. cbn [ret]. rewrite Ht.
    rewrite !bind_run. cbn [log ret]. reflexivity.
  - destruct (truthy (environ_get "GITHUB_TOKEN" (world st))) as [t|] eqn:Henv.
    + eexists _, _, _, _. rewrite !bind_run. cbn [observe]. rewrite Henv.
      rewrite !bind_run. cbn [log ret]. reflexivity.
    + eexists _, _, _, _. rewrite !bind_run. cbn [observe]. rewrite Henv.
      rewrite !bind_run. cbn [log ret]. reflexivity.
Qed.

Lemma init_rest_same (a a' : arguments) (h h' : gmap string string) (t t' : option string)
    (st : state) :
  arg_repo_file a = arg_repo_file a' ->
  arg_master_config a = arg_master_config a' ->
  arg_workspace a = arg_workspace a' ->
  bind (init_rest a h t) process_repositories st
  = bind (init_rest a' h' t') process_repositories st.
Proof.
  intros Hf Hm Hw. unfold init_rest. rewrite <- Hf, <- Hm, <- Hw. rewrite !bind_run.
  destruct (ext (MakeDirs (arg_workspace a)) st) as [[[]|rs] st1]; [|done].
  rewrite !bind_run.
  destruct (load_master_config_template (arg_master_config a) st1) as [[template|rs] st2];
    [|done].
  reflexivity.
Qed.

End Token.

(** X18.  The token has no part in the work: two runs of [main] from the
    same state whose command lines differ at most in [--token] end with the
    same outcome in the same world, and their events differ at most in the
    first, the log line of [__init__] about the token. *)
Theorem token_changes_one_log_line :
  forall (P : Platform) (a a' : arguments) (st : state),
    arg_repo_file a = arg_repo_file a' ->
    arg_master_config a = arg_master_config a' ->
    arg_workspace a = arg_workspace a' ->
    fst (main a st) = fst (main a' st)
    /\ world (snd (main a st)) = world (snd (main a' st))
    /\ tail (new_events st (snd (main a st))) = tail (new_events st (snd (main a' st))).
Proof.
  intros P a a' st Hf Hm Hw.
  destruct (main_after_token a st) as (lvl & msg & h & t & ->).
  destruct (main_after_token a' st) as (lvl' & msg' & h' & t' & ->).
  rewrite (init_rest_same a' a h' h t' t) by done.
  destruct (init_rest_framed a h t (world st)) as (r & w' & evs & Hrun).
  unfold emit. rewrite !Hrun. cbn [fst snd world trace].
  by rewrite <- !app_assoc, !new_events_app.
Qed.

Lemma token_changes_one_log_line_witness :
  fst (main (Examples.command_line "repos.csv") (Sim.start Examples.two_entries))
  = fst (main Examples.command_line_with_token (Sim.start Examples.two_entries)).
Proof.
  exact (proj1 (token_changes_one_log_line Sim.platform (Examples.command_line "repos.csv")
                  Examples.command_line_with_token (Sim.start Examples.two_entries)
                  eq_refl eq_refl eq_refl)).
Defined.

(** ** A descriptor without a declaration *)

Lemma search_from_without_literal (l : string) (r : regex) (pos : nat) (s : string) :
  contains l s = false -> search_from (Seq (Lit l) r) pos s = None.
Proof.
  revert pos. induction s as [|c s IH]; intros pos Hno; cbn [contains] in Hno;
    apply orb_false_iff in Hno as [Hhere Hlater]; unfold Str.startswith in Hhere;
    cbn [search_from rmatch];
    destruct (Str.strip_prefix l _); try done; cbn [flat_map].
  by apply IH.
Qed.

(** X19.  A [build.gradle] that is read and in which the word
    [sourceCompatibility] does not occur gives no version: the detector
    returns [None] after the read and one warning. *)
Theorem detect_without_declaration :
  forall (P : Platform) (self : updater) (repo_path content : string) (st : state),
    descriptor_reads repo_path content st ->
    contains "sourceCompatibility" content = false ->
    fst (detect_java_version self repo_path st) = Ret None
    /\ new_events st (snd (detect_java_version self repo_path st))
       = [ECall (ReadText (os_path_join repo_path "build.gradle")) true;
          ELog WARNING "Could not detect Java version in build.gradle"].
Proof.
  intros P self repo_path content st [Hex Hrd] Hno.
  unfold detect_java_version, bind, observe, try_except, ext, log, ret.
  rewrite Hex. cbn [negb].
  destruct (perform _ (world st)) as [[e|content'] w']; cbn [fst] in Hrd; [done|].
  injection Hrd as ->.
  unfold search, source_compat_pattern, java_version_pattern.
  rewrite !(search_from_without_literal _ _ _ _ Hno).
  split; [done|]. by trace_simpl.
Qed.

Lemma detect_without_declaration_witness :
  fst (detect_java_version Examples.self "./workspace/app"
         (Sim.start (Examples.checkout Examples.gradle_none))) = Ret None.
Proof.
  refine (proj1 (detect_without_declaration Sim.platform Examples.self "./workspace/app"
                   Examples.gradle_none (Sim.start (Examples.checkout Examples.gradle_none))
                   _ _)).
  - split; vm_compute; reflexivity.
  - vm_compute. reflexivity.
Defined.
